(** * build_peeringdb_dump.py: snapshot import and SQL export

    A shallow embedding of [scripts/build_peeringdb_dump.py]: the row
    extraction over parsed JSON, the [objects] table with its
    [INSERT OR REPLACE] statement, the per-resource chunk files, the
    filtered dump, and the run as a whole in a state-and-exception monad. *)

From Stdlib Require Import String Ascii ZArith NArith List Lia Bool.
From Stdlib Require Import DecimalN DecimalFacts Permutation SpecFloat.
Import ListNotations.

Set Warnings "-register-all".
Local Open Scope N_scope.
Local Open Scope list_scope.

(** ** Python strings

    A Python [str] is a sequence of Unicode code points; a code point is
    kept as its number. *)

Definition pystr := list N.

Definition str (s : string) : pystr :=
  map N_of_ascii (list_ascii_of_string s).

Definition pystr_eqb (a b : pystr) : bool :=
  if list_eq_dec N.eq_dec a b then true else false.

Definition LF : N := 10.
Definition CR : N := 13.
Definition QUOTE : N := 39.        (* the single quote ' *)
Definition DQUOTE : N := 34.
Definition BACKSLASH : N := 92.
Definition MINUS : N := 45.

(** [str.startswith(prefix)] *)
Fixpoint startswith (s p : pystr) : bool :=
  match p, s with
  | [], _ => true
  | _ :: _, [] => false
  | a :: p', b :: s' => (a =? b) && startswith s' p'
  end.

(** [str.startswith(tuple)] *)
Definition startswith_any (s : pystr) (ps : list pystr) : bool :=
  existsb (startswith s) ps.

(** The code points [str.strip()] removes: those for which
    [str.isspace()] holds. *)
Definition py_isspace (c : N) : bool :=
  ((9 <=? c) && (c <=? 13)) || ((28 <=? c) && (c <=? 32))
  || (c =? 133) || (c =? 160) || (c =? 5760)
  || ((8192 <=? c) && (c <=? 8202))
  || (c =? 8232) || (c =? 8233) || (c =? 8239) || (c =? 8287)
  || (c =? 12288).

Fixpoint lstrip (s : pystr) : pystr :=
  match s with
  | [] => []
  | c :: s' => if py_isspace c then lstrip s' else s
  end.

Definition rstrip (s : pystr) : pystr := rev (lstrip (rev s)).

Definition strip (s : pystr) : pystr := rstrip (lstrip s).

(** [s.replace(old, new)] for a one-character [old]: every occurrence
    of the character is replaced by [new]. *)
Fixpoint replace_char (old : N) (new : pystr) (s : pystr) : pystr :=
  match s with
  | [] => []
  | c :: s' =>
      (if c =? old then new else [c]) ++ replace_char old new s'
  end.

(** [sep.join(parts)] *)
Fixpoint join (sep : pystr) (parts : list pystr) : pystr :=
  match parts with
  | [] => []
  | [p] => p
  | p :: ps => p ++ sep ++ join sep ps
  end.

(** ** Decimal numerals: [str(n)] for a Python [int] *)

Definition digit_of (d : N) : N := 48 + d.

Fixpoint digits (u : Decimal.uint) : pystr :=
  match u with
  | Decimal.Nil => []
  | Decimal.D0 u => digit_of 0 :: digits u
  | Decimal.D1 u => digit_of 1 :: digits u
  | Decimal.D2 u => digit_of 2 :: digits u
  | Decimal.D3 u => digit_of 3 :: digits u
  | Decimal.D4 u => digit_of 4 :: digits u
  | Decimal.D5 u => digit_of 5 :: digits u
  | Decimal.D6 u => digit_of 6 :: digits u
  | Decimal.D7 u => digit_of 7 :: digits u
  | Decimal.D8 u => digit_of 8 :: digits u
  | Decimal.D9 u => digit_of 9 :: digits u
  end.

Definition str_of_N (n : N) : pystr := digits (N.to_uint n).

Definition str_of_Z (z : Z) : pystr :=
  match z with
  | Z0 => str_of_N 0
  | Zpos p => str_of_N (Npos p)
  | Zneg p => MINUS :: str_of_N (Npos p)
  end.

Definition is_digit (c : N) : bool := (48 <=? c) && (c <=? 57).

(** ** Exceptions and results *)

Inductive exn : Type :=
| URLError            (* urllib: the request failed *)
| JSONDecodeError     (* json.load: the body is not JSON *)
| KeyError            (* a dict has no such key *)
| TypeError           (* the value cannot be subscripted or iterated *)
| AttributeError      (* the value has no method get *)
| ProgrammingError    (* sqlite3: a parameter of an unsupported type *)
| OverflowError       (* sqlite3: an int outside 64 bits *)
| UnicodeEncodeError  (* sqlite3: a str that has no UTF-8 encoding *)
| IntegrityError      (* sqlite3: a constraint failed *)
| OperationalError    (* sqlite3: the database file cannot be used *)
| OSError.            (* the file or directory cannot be written *)

Inductive result (A : Type) : Type :=
| Returned (a : A)
| Raised (e : exn).
Arguments Returned {A} a.
Arguments Raised {A} e.

Definition bindR {A B} (m : result A) (k : A -> result B) : result B :=
  match m with
  | Returned a => k a
  | Raised e => Raised e
  end.

Notation "'let*' x ':=' m 'in' k" := (bindR m (fun x => k))
  (at level 10, x pattern, m at level 100, k at level 200).

Fixpoint mapR {A B} (f : A -> result B) (l : list A) : result (list B) :=
  match l with
  | [] => Returned []
  | a :: l' =>
      let* b := f a in
      let* bs := mapR f l' in
      Returned (b :: bs)
  end.

(** ** Floating-point numbers

    A Python [float] and an SQLite REAL are IEEE 754 binary64 values:
    a zero, an infinity, a NaN, or a finite [m * 2^e] with its sign.
    The values are kept exactly.  How the libraries write such a value
    as text and read one from text (Python's [repr], SQLite's
    conversions between REAL and TEXT) is not computed here: it is the
    part of the libraries the development is parameterised by. *)

Definition float : Type := spec_float.

(** The characters of a number written by [repr]: digits, the signs,
    the point and the letter e. *)
Definition numeric_char (c : N) : bool :=
  is_digit c || (c =? 43) || (c =? 45) || (c =? 46) || (c =? 101).

(** An infinity and a NaN are written by name ([Inf], [inf], [nan],
    [Infinity], [NaN]): letters. *)
Definition real_char (c : N) : bool :=
  numeric_char c || ((65 <=? c) && (c <=? 90)) || ((97 <=? c) && (c <=? 122)).

Class lib : Type := mkLib {
  (** [float.__repr__] of a finite value: the shortest decimal that
      reads back as the value, [1.5], [1e+16], [-0.0]. *)
  float_repr : float -> pystr;
  (** SQLite: a REAL value stored in a TEXT column, [1.5], [1.0e+16],
      [Inf]. *)
  real_text : float -> pystr;
  (** SQLite: the REAL value that a text in the form of a number
      stands for. *)
  text_real : pystr -> float;
  float_repr_chars : forall f, forallb numeric_char (float_repr f) = true;
  real_text_chars : forall f, forallb real_char (real_text f) = true
}.

(** ** Parsed JSON

    What [json.load] returns: [None], [bool], [int], [float], [str],
    [list] and [dict] values.  A [dict] is kept as its items in
    insertion order. *)

Inductive json : Type :=
| JNull
| JBool (b : bool)
| JInt (z : Z)
| JFloat (f : float)
| JString (s : pystr)
| JArray (items : list json)
| JObject (members : list (pystr * json)).

(** From here on the library [L] is fixed. *)
Section Library.

Context {L : lib}.

(** *** [json.dumps(obj, separators=(",", ":"))]

    The default [ensure_ascii=True] encoder: a string is quoted, the
    quote and the backslash are escaped, and every code point outside
    space..tilde is written as a short escape or as [\uXXXX] (a
    surrogate pair above the basic plane). *)

Definition hex_digit (d : N) : N := if d <? 10 then 48 + d else 87 + d.

Definition hex4 (n : N) : pystr :=
  [ hex_digit ((n / 4096) mod 16); hex_digit ((n / 256) mod 16);
    hex_digit ((n / 16) mod 16); hex_digit (n mod 16) ].

Definition u_escape (n : N) : pystr := BACKSLASH :: 117 :: hex4 n.

Definition escape_char (c : N) : pystr :=
  if c =? DQUOTE then [BACKSLASH; DQUOTE]
  else if c =? BACKSLASH then [BACKSLASH; BACKSLASH]
  else if c =? 10 then [BACKSLASH; 110]
  else if c =? 13 then [BACKSLASH; 114]
  else if c =? 9 then [BACKSLASH; 116]
  else if c =? 8 then [BACKSLASH; 98]
  else if c =? 12 then [BACKSLASH; 102]
  else if (32 <=? c) && (c <=? 126) then [c]
  else if c <? 65536 then u_escape c
  else
    let v := c - 65536 in
    u_escape (N.lor 55296 (N.land (N.shiftr v 10) 1023))
    ++ u_escape (N.lor 56320 (N.land v 1023)).

Definition encode_string (s : pystr) : pystr :=
  DQUOTE :: flat_map escape_char s ++ [DQUOTE].

(** The encoder writes a float with [float.__repr__], and the three
    values that are no JSON by their JavaScript names. *)
Definition float_json (f : float) : pystr :=
  match f with
  | S754_nan => str "NaN"
  | S754_infinity false => str "Infinity"
  | S754_infinity true => str "-Infinity"
  | _ => float_repr f
  end.

Fixpoint dumps (j : json) : pystr :=
  match j with
  | JNull => str "null"
  | JBool true => str "true"
  | JBool false => str "false"
  | JInt z => str_of_Z z
  | JFloat f => float_json f
  | JString s => encode_string s
  | JArray items => 91 :: join [44] (map dumps items) ++ [93]
  | JObject members =>
      123 :: join [44]
               (map (fun kv => match kv with
                               | (k, v) => encode_string k ++ 58 :: dumps v
                               end) members)
          ++ [125]
  end.

(** ** Row extraction (lines 60-70 of the script) *)

Fixpoint dict_get (k : pystr) (members : list (pystr * json)) : option json :=
  match members with
  | [] => None
  | (k', v) :: ms => if pystr_eqb k k' then Some v else dict_get k ms
  end.

(** [json.load(resp)["data"]] *)
Definition subscript_data (body : json) : result json :=
  match body with
  | JObject members =>
      match dict_get (str "data") members with
      | Some v => Returned v
      | None => Raised KeyError
      end
  | _ => Raised TypeError
  end.

(** [for obj in data]: the elements of a list, the keys of a dict, the
    characters of a str; anything else is not iterable. *)
Definition py_iter (data : json) : result (list json) :=
  match data with
  | JArray items => Returned items
  | JObject members => Returned (map (fun kv => JString (fst kv)) members)
  | JString s => Returned (map (fun c => JString [c]) s)
  | _ => Raised TypeError
  end.

(** [obj.get(k, default)]: only a dict has the method. *)
Definition get (obj : json) (k : pystr) (default : json) : result json :=
  match obj with
  | JObject members =>
      Returned (match dict_get k members with
                | Some v => v
                | None => default
                end)
  | _ => Raised AttributeError
  end.

(** The tuple built for one element:
    [(res, obj.get("id"), obj.get("updated", empty), json.dumps(obj, ...))],
    [empty] being the empty string. *)
Definition pyrow : Type := (pystr * json * json * pystr)%type.

Definition row_tuple (res : pystr) (obj : json) : result pyrow :=
  let* i := get obj (str "id") JNull in
  let* u := get obj (str "updated") (JString []) in
  Returned (res, i, u, dumps obj).

(** The list comprehension [rows = [... for obj in data]]. *)
Definition build_rows (res : pystr) (data : json) : result (list pyrow) :=
  let* objs := py_iter data in
  mapR (row_tuple res) objs.

(** ** The [objects] table

<<
CREATE TABLE objects (
  resource TEXT NOT NULL,
  obj_id   INTEGER NOT NULL,
  updated  TEXT NOT NULL,
  payload  TEXT NOT NULL,
  PRIMARY KEY (resource, obj_id)
);
>>
*)

(** A value handed to the engine. *)
Inductive sqlval : Type :=
| SNull
| SInteger (z : Z)
| SReal (f : float)
| SText (s : pystr).

Definition int64 (z : Z) : bool :=
  ((- 2 ^ 63 <=? z) && (z <=? 2 ^ 63 - 1))%Z.

Definition is_surrogate (c : N) : bool := (55296 <=? c) && (c <=? 57343).

(** How the [sqlite3] module binds a Python value to a [?]: [None] is
    NULL, a [bool] or an [int] is an INTEGER when it fits 64 bits, a
    [float] is a REAL (the engine turns a NaN into NULL), a [str] is
    TEXT in UTF-8, a [list] or a [dict] is refused. *)
Definition bind_param (v : json) : result sqlval :=
  match v with
  | JNull => Returned SNull
  | JBool b => Returned (SInteger (if b then 1 else 0))
  | JInt z => if int64 z then Returned (SInteger z) else Raised OverflowError
  | JFloat S754_nan => Returned SNull
  | JFloat f => Returned (SReal f)
  | JString s =>
      if existsb is_surrogate s then Raised UnicodeEncodeError
      else Returned (SText s)
  | JArray _ | JObject _ => Raised ProgrammingError
  end.

(** Column affinity.  A TEXT column stores a number as its text.  An
    INTEGER column stores a text in the form of a number as that
    number: an integer within 64 bits as that integer; any other number
    (with a fraction or an exponent, or outside 64 bits) as the REAL it
    stands for, and a REAL that is a whole number strictly between the
    least and the greatest 64-bit integer as that integer.  A text that
    has not the form of a number stays a text. *)

Definition sql_isspace (c : N) : bool := (c =? 32) || ((9 <=? c) && (c <=? 13)).

Fixpoint sql_ltrim (s : pystr) : pystr :=
  match s with
  | [] => []
  | c :: s' => if sql_isspace c then sql_ltrim s' else s
  end.

Definition sql_trim (s : pystr) : pystr := rev (sql_ltrim (rev (sql_ltrim s))).

Definition horner (ds : pystr) : N :=
  fold_left (fun acc c => 10 * acc + (c - 48)) ds 0.

Definition unsigned_literal (ds : pystr) : option N :=
  match ds with
  | [] => None
  | _ :: _ => if forallb is_digit ds then Some (horner ds) else None
  end.

Definition integer_literal (s : pystr) : option Z :=
  let t := sql_trim s in
  let signed :=
    match t with
    | 45 :: ds => option_map (fun n => (- Z.of_N n)%Z) (unsigned_literal ds)
    | 43 :: ds => option_map Z.of_N (unsigned_literal ds)
    | _ => option_map Z.of_N (unsigned_literal t)
    end in
  match signed with
  | Some z => if int64 z then Some z else None
  | None => None
  end.

(** The form of a number: blanks, a sign, digits with at most one
    point and at least one digit, an exponent of at least one digit
    with its sign, blanks. *)
Fixpoint skip_digits (s : pystr) : nat * pystr :=
  match s with
  | [] => (O, [])
  | c :: s' =>
      if is_digit c then let (n, r) := skip_digits s' in (S n, r)
      else (O, s)
  end.

Definition skip_sign (s : pystr) : pystr :=
  match s with
  | c :: s' => if (c =? 43) || (c =? 45) then s' else s
  | [] => []
  end.

Definition numeric_text (s : pystr) : bool :=
  let (n1, t1) := skip_digits (skip_sign (sql_ltrim s)) in
  let (n2, t2) :=
    match t1 with
    | c :: r => if c =? 46 then skip_digits r else (O, t1)
    | [] => (O, [])
    end in
  let (exponent_ok, t3) :=
    match t2 with
    | c :: r =>
        if (c =? 101) || (c =? 69) then
          let (n3, r') := skip_digits (skip_sign r) in
          (negb (Nat.eqb n3 0), r')
        else (true, t2)
    | [] => (true, [])
    end in
  exponent_ok && negb (Nat.eqb (n1 + n2) 0)
  && match sql_ltrim t3 with [] => true | _ :: _ => false end.

(** The exact value of a REAL, as far as keys are compared: a whole
    number, a fraction [m / 2^k] in lowest terms with its sign, an
    infinity or a NaN; or the text of a value that is no number.  Two
    keys are the same key when they have the same value, whether
    stored as INTEGER or as REAL. *)
Inductive key_class : Type :=
| CInt (z : Z)
| CFrac (neg : bool) (m k : positive)
| CInf (neg : bool)
| CNan
| CText (s : pystr).

(** [m / 2^k] in lowest terms; the exponent 0 when it is whole. *)
Fixpoint halve (m k : positive) : positive * N :=
  match m with
  | xO m' =>
      match k with
      | xH => (m', 0)
      | _ => halve m' (Pos.pred k)
      end
  | _ => (m, Npos k)
  end.

Definition signed (neg : bool) (z : Z) : Z := if neg then (- z)%Z else z.

Definition real_class (f : float) : key_class :=
  match f with
  | S754_zero _ => CInt 0
  | S754_infinity s => CInf s
  | S754_nan => CNan
  | S754_finite s m e =>
      match e with
      | Zneg k =>
          match halve m k with
          | (m', N0) => CInt (signed s (Zpos m'))
          | (m', Npos k') => CFrac s m' k'
          end
      | _ => CInt (signed s (Zpos m * 2 ^ e))
      end
  end.

(** A REAL offered to an INTEGER column. *)
Definition real_affinity (f : float) : sqlval :=
  match real_class f with
  | CInt z =>
      if ((- 2 ^ 63 <? z) && (z <? 2 ^ 63 - 1))%Z then SInteger z
      else SReal f
  | _ => SReal f
  end.

Definition text_affinity (v : sqlval) : sqlval :=
  match v with
  | SInteger z => SText (str_of_Z z)
  | SReal f => SText (real_text f)
  | _ => v
  end.

Definition integer_affinity (v : sqlval) : sqlval :=
  match v with
  | SText s =>
      match integer_literal s with
      | Some z => SInteger z
      | None => if numeric_text s then real_affinity (text_real s) else SText s
      end
  | SReal f => real_affinity f
  | _ => v
  end.

(** A stored row.  The three TEXT NOT NULL columns hold text; [obj_id]
    holds an integer, a REAL that is no such integer, or a text that
    has not the form of a number. *)
Inductive key : Type :=
| KInt (z : Z)
| KReal (f : float)
| KText (s : pystr).

Record row : Type := mkRow {
  resource : pystr;
  obj_id : key;
  updated : pystr;
  payload : pystr
}.

(** The table as its rows, oldest insertion first. *)
Definition table := list row.

Definition class_of (k : key) : key_class :=
  match k with
  | KInt z => CInt z
  | KReal f => real_class f
  | KText s => CText s
  end.

Definition class_eqb (a b : key_class) : bool :=
  match a, b with
  | CInt x, CInt y => (x =? y)%Z
  | CFrac s m k, CFrac s' m' k' =>
      Bool.eqb s s' && (m =? m')%positive && (k =? k')%positive
  | CInf s, CInf s' => Bool.eqb s s'
  | CNan, CNan => true
  | CText x, CText y => pystr_eqb x y
  | _, _ => false
  end.

Definition key_eqb (a b : key) : bool :=
  class_eqb (class_of a) (class_of b).

(** Two rows conflict on PRIMARY KEY (resource, obj_id). *)
Definition same_key (a b : row) : bool :=
  pystr_eqb (resource a) (resource b) && key_eqb (obj_id a) (obj_id b).

(** REPLACE conflict resolution: the rows that conflict with the new
    row are deleted, then the new row is inserted. *)
Definition upsert (t : table) (r : row) : table :=
  filter (fun old => negb (same_key old r)) t ++ [r].

(** Affinity, then NOT NULL: the row the statement is about to store.
    A NULL in a NOT NULL column is not resolved by REPLACE (the columns
    have no default value): the statement fails. *)
Definition constrained_row (r i u p : sqlval) : result row :=
  match text_affinity r, integer_affinity i,
        text_affinity u, text_affinity p with
  | SText r', SInteger z, SText u', SText p' =>
      Returned (mkRow r' (KInt z) u' p')
  | SText r', SReal f, SText u', SText p' =>
      Returned (mkRow r' (KReal f) u' p')
  | SText r', SText s, SText u', SText p' =>
      Returned (mkRow r' (KText s) u' p')
  | _, _, _, _ => Raised IntegrityError
  end.

(** [INSERT OR REPLACE INTO objects (resource,obj_id,updated,payload)
    VALUES (?,?,?,?)] on bound values. *)
Definition insert_or_replace
    (r i u p : sqlval) (t : table) : result table :=
  let* new := constrained_row r i u p in
  Returned (upsert t new).

(** One element of [executemany]: the four parameters are bound in
    order, then the statement runs. *)
Definition execute_insert (pr : pyrow) (t : table) : result table :=
  match pr with
  | (res, i, u, p) =>
      let* r' := bind_param (JString res) in
      let* i' := bind_param i in
      let* u' := bind_param u in
      let* p' := bind_param (JString p) in
      insert_or_replace r' i' u' p' t
  end.

(** [cur.executemany(..., rows)] when no row fails. *)
Fixpoint store_rows (rows : list pyrow) (t : table) : result table :=
  match rows with
  | [] => Returned t
  | pr :: rest =>
      let* t' := execute_insert pr t in
      store_rows rest t'
  end.

(** [SELECT obj_id, updated, payload FROM objects WHERE resource = ?] *)
Definition select_resource (res : pystr) (t : table) : list row :=
  filter (fun r => pystr_eqb (resource r) res) t.

(** ** Constants of the script *)

Definition RESOURCES : list pystr :=
  map str
    [ "org"; "campus"; "fac"; "net"; "ix"; "carrier"; "carrierfac";
      "ixfac"; "ixlan"; "ixpfx"; "netfac"; "netixlan" ]%string.

Definition DB_PATH : pystr := str "peeringdb_dump.db".
Definition SQL_PATH : pystr := str "peeringdb_dump.sql".
Definition CDN_BASE : pystr := str "https://public.peeringdb.com".
Definition D1_DIR : pystr := str "d1_sql".
Definition D1_SQL_PATH : pystr := str "peeringdb_dump_d1.sql".

(** [os.path.join(D1_DIR, name)] *)
Definition d1_path (name : pystr) : pystr := D1_DIR ++ str "/" ++ name.

Definition SCHEMA_SQL : pystr := str "
CREATE TABLE IF NOT EXISTS objects (
  resource TEXT NOT NULL,
  obj_id   INTEGER NOT NULL,
  updated  TEXT NOT NULL,
  payload  TEXT NOT NULL,
  PRIMARY KEY (resource, obj_id)
);
CREATE INDEX IF NOT EXISTS objects_resource_updated_idx
  ON objects (resource, updated DESC);
".

Definition skip_prefixes : list pystr :=
  [ str "BEGIN TRANSACTION"; str "COMMIT"; str "PRAGMA" ].

(** ** Chunk files (lines 105-118) *)

(** [str(x)] of a float. *)
Definition float_str (f : float) : pystr :=
  match f with
  | S754_nan => str "nan"
  | S754_infinity false => str "inf"
  | S754_infinity true => str "-inf"
  | _ => float_repr f
  end.

(** [f"{obj_id}"]: the value read from the table is an [int], a
    [float] or a [str]. *)
Definition format_key (k : key) : pystr :=
  match k with
  | KInt z => str_of_Z z
  | KReal f => float_str f
  | KText s => s
  end.

Definition delete_stmt (res : pystr) : pystr :=
  str "DELETE FROM objects WHERE resource = '" ++ res ++ str "';" ++ [LF].

Definition INSERT_HEAD : pystr :=
  str "INSERT OR REPLACE INTO objects (resource,obj_id,updated,payload) VALUES ('".

Definition insert_stmt (res : pystr) (r : row) : pystr :=
  let payload_escaped := replace_char QUOTE [QUOTE; QUOTE] (payload r) in
  INSERT_HEAD ++ res ++ str "'," ++ format_key (obj_id r)
    ++ str ",'" ++ updated r ++ str "','" ++ payload_escaped
    ++ str "');" ++ [LF].

(** What is written to [d1_sql/<res>.sql], given the rows the SELECT
    yields. *)
Definition chunk_text (res : pystr) (selected : list row) : pystr :=
  delete_stmt res ++ concat (map (insert_stmt res) selected).

(** ** The filtered dump (lines 121-136) *)

(** Reading a text file opened with the default [newline=None]: a
    carriage return, alone or before a line feed, is read as a line
    feed. *)
Fixpoint universal_newlines (s : pystr) : pystr :=
  match s with
  | [] => []
  | c :: s' =>
      if c =? CR then
        match s' with
        | d :: s'' => if d =? LF then LF :: universal_newlines s''
                      else LF :: universal_newlines s'
        | [] => [LF]
        end
      else c :: universal_newlines s'
  end.

(** [for line in src]: each line keeps its line feed; the last line may
    lack one. *)
Fixpoint split_lines (s : pystr) : list pystr :=
  match s with
  | [] => []
  | c :: s' =>
      if c =? LF then [c] :: split_lines s'
      else match split_lines s' with
           | [] => [[c]]
           | l :: ls => (c :: l) :: ls
           end
  end.

Definition text_lines (content : pystr) : list pystr :=
  split_lines (universal_newlines content).

Definition is_empty (s : pystr) : bool :=
  match s with [] => true | _ :: _ => false end.

(** The loop body keeps the line unless
    [not stripped or stripped.startswith(skip_prefixes)]. *)
Definition keep_line (line : pystr) : bool :=
  let stripped := strip line in
  negb (is_empty stripped || startswith_any stripped skip_prefixes).

Definition filter_dump (content : pystr) : pystr :=
  concat (filter keep_line (text_lines content)).

(** ** The run: state and exceptions

    What the script cannot decide is the environment [env]: what each
    URL answers, which paths can be written, what the [sqlite3] module
    prints for [iterdump], and in which order a SELECT without ORDER BY
    yields its rows.  What the script changes is the [world]. *)

Inductive response : Type :=
| Unreachable          (* urlopen raises *)
| Malformed            (* the body is not JSON *)
| Body (j : json).     (* the parsed body *)

Record env : Type := mkEnv {
  urlopen : pystr -> response;
  writable : pystr -> bool;
  iterdump : table -> list pystr;
  select_order : list row -> list row
}.

Record world : Type := mkWorld {
  db_file : table;                 (* the committed table of DB_PATH *)
  conn : table;                    (* the open connection's view *)
  files : list (pystr * pystr);    (* text files, last written first *)
  stdout : list pystr;             (* lines printed, oldest first *)
  stderr : list pystr;
  requests : list pystr            (* URLs requested, oldest first *)
}.

Definition M (A : Type) : Type := world -> world * result A.

Definition ret {A} (a : A) : M A := fun w => (w, Returned a).

Definition raise {A} (e : exn) : M A := fun w => (w, Raised e).

Definition bind {A B} (m : M A) (k : A -> M B) : M B :=
  fun w =>
    match m w with
    | (w', Returned a) => k a w'
    | (w', Raised e) => (w', Raised e)
    end.

Notation "x <- m ;; k" := (bind m (fun x => k))
  (at level 61, m at next level, right associativity).
Notation "m ;; k" := (bind m (fun _ => k))
  (at level 61, right associativity).

Definition lift {A} (r : result A) : M A := fun w => (w, r).

Fixpoint for_each {A} (l : list A) (body : A -> M unit) : M unit :=
  match l with
  | [] => ret tt
  | a :: l' => body a ;; for_each l' body
  end.

Fixpoint lookup_file (path : pystr) (fs : list (pystr * pystr)) : option pystr :=
  match fs with
  | [] => None
  | (p, c) :: fs' => if pystr_eqb path p then Some c else lookup_file path fs'
  end.

Section Script.

Variable E : env.

Definition print (line : pystr) : M unit := fun w =>
  (mkWorld (db_file w) (conn w) (files w) (stdout w ++ [line]) (stderr w)
           (requests w), Returned tt).

Definition eprint (line : pystr) : M unit := fun w =>
  (mkWorld (db_file w) (conn w) (files w) (stdout w) (stderr w ++ [line])
           (requests w), Returned tt).

(** [os.makedirs(path, exist_ok=True)] *)
Definition makedirs (path : pystr) : M unit :=
  if writable E path then ret tt else raise OSError.

(** [with open(path, "w", encoding="utf-8") as f: f.write(...)] *)
Definition write_file (path content : pystr) : M unit := fun w =>
  if writable E path then
    (mkWorld (db_file w) (conn w) ((path, content) :: files w) (stdout w)
             (stderr w) (requests w), Returned tt)
  else (w, Raised OSError).

(** [open(path, "r", encoding="utf-8")] and reading it whole. *)
Definition read_file (path : pystr) : M pystr := fun w =>
  match lookup_file path (files w) with
  | Some c => (w, Returned c)
  | None => (w, Raised OSError)
  end.

(** [sqlite3.connect(DB_PATH)] and the [executescript] of lines 42-55:
    the table is dropped and created anew, outside any transaction. *)
Definition connect_and_create : M unit := fun w =>
  if writable E DB_PATH then
    (mkWorld [] [] (files w) (stdout w) (stderr w) (requests w), Returned tt)
  else (w, Raised OperationalError).

(** [urllib.request.urlopen(url)] and [json.load(resp)] *)
Definition http_get_json (url : pystr) : M json := fun w =>
  let w' := mkWorld (db_file w) (conn w) (files w) (stdout w) (stderr w)
                    (requests w ++ [url]) in
  match urlopen E url with
  | Unreachable => (w', Raised URLError)
  | Malformed => (w', Raised JSONDecodeError)
  | Body j => (w', Returned j)
  end.

Definition execute_one (pr : pyrow) : M unit := fun w =>
  match execute_insert pr (conn w) with
  | Returned t =>
      (mkWorld (db_file w) t (files w) (stdout w) (stderr w) (requests w),
       Returned tt)
  | Raised e => (w, Raised e)
  end.

Definition executemany (rows : list pyrow) : M unit :=
  for_each rows execute_one.

Definition resource_url (res : pystr) : pystr :=
  CDN_BASE ++ str "/" ++ res ++ str "-0.json".

Definition len {A} (l : list A) : pystr := str_of_N (N.of_nat (length l)).

(** The body of the import loop, lines 58-75. *)
Definition fetch_and_store (res : pystr) : M unit :=
  body <- http_get_json (resource_url res) ;;
  data <- lift (subscript_data body) ;;
  rows <- lift (build_rows res data) ;;
  executemany rows ;;
  eprint (res ++ str ": " ++ len rows ++ str " rows").

(** [conn.commit()] *)
Definition commit : M unit := fun w =>
  (mkWorld (conn w) (conn w) (files w) (stdout w) (stderr w) (requests w),
   Returned tt).

(** Lines 78-82. *)
Definition export_full_dump : M unit :=
  t <- (fun w => (w, Returned (conn w))) ;;
  write_file SQL_PATH (concat (map (fun line => line ++ [LF]) (iterdump E t))) ;;
  print (str "wrote " ++ DB_PATH ++ str " and " ++ SQL_PATH).

(** Lines 85-100. *)
Definition write_schema : M unit :=
  let schema_path := d1_path (str "00_schema.sql") in
  write_file schema_path SCHEMA_SQL ;;
  print (str "wrote schema file " ++ schema_path).

(** The body of the chunk loop, lines 106-118, on the second connection,
    which sees what was committed. *)
Definition export_chunk (res : pystr) : M unit :=
  let outfile := d1_path (res ++ str ".sql") in
  t <- (fun w => (w, Returned (db_file w))) ;;
  write_file outfile
    (chunk_text res (select_order E (select_resource res t))) ;;
  print (str "wrote chunk " ++ outfile).

(** Lines 122-136. *)
Definition export_filtered_dump : M unit :=
  content <- read_file SQL_PATH ;;
  write_file D1_SQL_PATH (filter_dump content) ;;
  print (str "wrote " ++ D1_SQL_PATH
           ++ str " (filtered for D1 execute; may still be large)").

Definition import_phase : M unit :=
  makedirs D1_DIR ;;
  connect_and_create ;;
  for_each RESOURCES fetch_and_store.

Definition export_phase : M unit :=
  commit ;;
  export_full_dump ;;
  write_schema ;;
  for_each RESOURCES export_chunk ;;
  export_filtered_dump.

Definition main : M Z :=
  import_phase ;;
  export_phase ;;
  ret 0%Z.

End Script.

(** [raise SystemExit(main())]: the exit status of the process.  An
    exception that reaches the top level ends the process with status 1. *)
Definition exit_status (r : result Z) : Z :=
  match r with
  | Returned n => n
  | Raised _ => 1%Z
  end.

Definition initial_world (existing : table) : world :=
  mkWorld existing [] [] [] [] [].

(** ** Reading a chunk file back as SQL

    The two statements a chunk file is made of, read the way the
    engine reads them: a string literal runs from a quote to the next
    quote that is not doubled, and a doubled quote inside stands for
    one quote; an integer literal is a decimal numeral within 64 bits;
    after the semicolon of a statement the line ends, or a comment
    [--] runs to the end of the line.  A text that holds the character
    of code 0 is refused, as [executescript] refuses it.

    The reader is partial.  It reads the statements in the layout the
    script writes, with integer keys and literal values: when it
    returns a table, running the text gives that table.  When it
    returns nothing, the text is outside what is read here (a key
    written as a real number or as a bare word, an expression in place
    of a literal), and nothing is said of what the engine does. *)

Fixpoint expect (p s : pystr) : option pystr :=
  match p, s with
  | [], _ => Some s
  | _ :: _, [] => None
  | a :: p', b :: s' => if a =? b then expect p' s' else None
  end.

(** The body of a string literal, the opening quote already read: the
    value and the text after the closing quote. *)
Fixpoint lex_string (s : pystr) : option (pystr * pystr) :=
  match s with
  | [] => None
  | c :: s' =>
      if c =? 0 then None
      else if c =? QUOTE then
        match s' with
        | d :: s'' =>
            if d =? QUOTE then
              match lex_string s'' with
              | Some (v, r) => Some (QUOTE :: v, r)
              | None => None
              end
            else Some ([], s')
        | [] => Some ([], [])
        end
      else
        match lex_string s' with
        | Some (v, r) => Some (c :: v, r)
        | None => None
        end
  end.

Definition digit_ctor (c : N) : option (Decimal.uint -> Decimal.uint) :=
  if c =? 48 then Some Decimal.D0 else if c =? 49 then Some Decimal.D1
  else if c =? 50 then Some Decimal.D2 else if c =? 51 then Some Decimal.D3
  else if c =? 52 then Some Decimal.D4 else if c =? 53 then Some Decimal.D5
  else if c =? 54 then Some Decimal.D6 else if c =? 55 then Some Decimal.D7
  else if c =? 56 then Some Decimal.D8 else if c =? 57 then Some Decimal.D9
  else None.

(** The longest run of digits at the head of [s]. *)
Fixpoint lex_uint (s : pystr) : Decimal.uint * pystr :=
  match s with
  | [] => (Decimal.Nil, [])
  | c :: s' =>
      match digit_ctor c with
      | Some d => let (u, r) := lex_uint s' in (d u, r)
      | None => (Decimal.Nil, s)
      end
  end.

Definition canonical (u : Decimal.uint) : bool :=
  if Decimal.uint_eq_dec (Decimal.unorm u) u then true else false.

Definition lex_int (s : pystr) : option (Z * pystr) :=
  match s with
  | c :: s' =>
      if c =? MINUS then
        let (u, r) := lex_uint s' in
        let n := N.of_uint u in
        if canonical u && negb (n =? 0) && int64 (- Z.of_N n)
        then Some ((- Z.of_N n)%Z, r) else None
      else
        let (u, r) := lex_uint s in
        let n := N.of_uint u in
        if canonical u && int64 (Z.of_N n) then Some (Z.of_N n, r) else None
  | [] => None
  end.

Inductive stmt : Type :=
| Delete (res : pystr)     (* DELETE FROM objects WHERE resource = '...' *)
| Insert (r : row).        (* INSERT OR REPLACE INTO objects ... VALUES (...) *)

Definition DELETE_HEAD : pystr :=
  str "DELETE FROM objects WHERE resource = '".

Definition optbind {A B} (m : option A) (k : A -> option B) : option B :=
  match m with
  | Some a => k a
  | None => None
  end.

(** The rest of a line. *)
Fixpoint skip_line (s : pystr) : pystr :=
  match s with
  | [] => []
  | c :: s' => if c =? LF then s' else skip_line s'
  end.

(** After the semicolon: the end of the line, or a comment to the end
    of the line. *)
Definition end_of_statement (s : pystr) : option pystr :=
  match s with
  | c :: s' =>
      if c =? LF then Some s'
      else if c =? MINUS then
        match s' with
        | d :: s'' => if d =? MINUS then Some (skip_line s'') else None
        | [] => None
        end
      else None
  | [] => None
  end.

Definition parse_delete (s : pystr) : option (stmt * pystr) :=
  optbind (expect DELETE_HEAD s) (fun s1 =>
  optbind (lex_string s1) (fun '(res, s2) =>
  optbind (expect (str ";") s2) (fun s3 =>
  optbind (end_of_statement s3) (fun s4 =>
  Some (Delete res, s4))))).

Definition parse_insert (s : pystr) : option (stmt * pystr) :=
  optbind (expect INSERT_HEAD s) (fun s1 =>
  optbind (lex_string s1) (fun '(res, s2) =>
  optbind (expect (str ",") s2) (fun s3 =>
  optbind (lex_int s3) (fun '(i, s4) =>
  optbind (expect (str ",'") s4) (fun s5 =>
  optbind (lex_string s5) (fun '(u, s6) =>
  optbind (expect (str ",'") s6) (fun s7 =>
  optbind (lex_string s7) (fun '(p, s8) =>
  optbind (expect (str ");") s8) (fun s9 =>
  optbind (end_of_statement s9) (fun s10 =>
  Some (Insert (mkRow res (KInt i) u p), s10))))))))))).

Definition parse_stmt (s : pystr) : option (stmt * pystr) :=
  match parse_delete s with
  | Some x => Some x
  | None => parse_insert s
  end.

(** The statements of a file; every statement reads at least one
    character, so fuel equal to the length of the text is enough. *)
Fixpoint parse_script (fuel : nat) (s : pystr) : option (list stmt) :=
  match s with
  | [] => Some []
  | _ :: _ =>
      match fuel with
      | O => None
      | S fuel' =>
          optbind (parse_stmt s) (fun '(st, rest) =>
          optbind (parse_script fuel' rest) (fun sts =>
          Some (st :: sts)))
      end
  end.

Definition exec_stmt (t : table) (st : stmt) : table :=
  match st with
  | Delete res => filter (fun r => negb (pystr_eqb (resource r) res)) t
  | Insert r => upsert t r
  end.

(** Text without the character of code 0. *)
Definition nul_free (s : pystr) : bool :=
  forallb (fun c => negb (c =? 0)) s.

(** Running the text of a file against a table. *)
Definition replay (text : pystr) (t : table) : option table :=
  if nul_free text then
    option_map (fun sts => fold_left exec_stmt sts t)
               (parse_script (length text) text)
  else None.

(** ** Derived notions used by the statements below *)

(** The primary key of a row: its resource and the value of its id,
    as the engine compares them. *)
Definition key_of (r : row) : pystr * key_class :=
  (resource r, class_of (obj_id r)).

Definition unique_keys (t : table) : Prop := NoDup (map key_of t).

(** The row one tuple of [executemany] stores: its parameters bound, its
    values constrained. *)
Definition stored_row (pr : pyrow) : result row :=
  match pr with
  | (res, i, u, p) =>
      let* r' := bind_param (JString res) in
      let* i' := bind_param i in
      let* u' := bind_param u in
      let* p' := bind_param (JString p) in
      constrained_row r' i' u' p'
  end.

(** [obj.get("id")] of a dict element; [JNull] for anything else. *)
Definition id_of (obj : json) : json :=
  match get obj (str "id") JNull with
  | Returned v => v
  | Raised _ => JNull
  end.

Definition has_key (k : pystr) (obj : json) : bool :=
  match obj with
  | JObject members =>
      match dict_get k members with Some _ => true | None => false end
  | _ => false
  end.

Definition is_int_id (obj : json) : Prop := exists z, id_of obj = JInt z.

(** The engine is free in the order of a SELECT, not in its rows. *)
Definition order_only (E : env) : Prop :=
  forall l, Permutation (select_order E l) l.

(** The statement with every literal escaped, as SQL requires. *)
Definition sql_escape (s : pystr) : pystr :=
  replace_char QUOTE [QUOTE; QUOTE] s.

Definition canonical_insert (r : row) : pystr :=
  INSERT_HEAD ++ sql_escape (resource r) ++ str "'," ++ format_key (obj_id r)
    ++ str ",'" ++ sql_escape (updated r) ++ str "','"
    ++ sql_escape (payload r) ++ str "');" ++ [LF].

Definition canonical_stmt (st : stmt) : pystr :=
  match st with
  | Delete res => DELETE_HEAD ++ sql_escape res ++ str "';" ++ [LF]
  | Insert r => canonical_insert r
  end.

Definition int_key (r : row) : Prop :=
  exists z, obj_id r = KInt z /\ int64 z = true.

(** What a step leaves alone when it only touches the connection. *)
Definition same_outside_conn (w w' : world) : Prop :=
  db_file w' = db_file w /\ files w' = files w /\ stdout w' = stdout w
  /\ stderr w' = stderr w /\ requests w' = requests w.

(** [respects R m]: however [m] ends, by returning or by raising, the
    world it leaves is related by [R] to the world it found. *)
Definition respects {A} (R : world -> world -> Prop) (m : M A) : Prop :=
  forall w w' r, m w = (w', r) -> R w w'.

Definition keys_ok (w : world) : Prop :=
  unique_keys (db_file w) /\ unique_keys (conn w).

(** The row stored for one element of the data array. *)
Definition row_for (res : pystr) (obj : json) : result row :=
  let* pr := row_tuple res obj in stored_row pr.

(** The id a stored key came from, when ids are integers or texts. *)
Definition id_json (k : key) : json :=
  match k with
  | KInt z => JInt z
  | KReal f => JFloat f
  | KText s => JString s
  end.

(** Every key in the connection's table is still there afterwards. *)
Definition keys_stay (w w' : world) : Prop :=
  forall old, In old (conn w) ->
  exists cur, In cur (conn w') /\ key_of cur = key_of old.

(** The connection's table is the same afterwards, and so is the
    committed table when the two agreed. *)
Definition table_untouched (w w' : world) : Prop :=
  conn w' = conn w /\ (db_file w = conn w -> db_file w' = db_file w).

(** The shape of what [split_lines] yields: every line but the last ends
    with its only line feed; the last may have none. *)
Inductive proper_lines : list pystr -> Prop :=
| proper_nil : proper_lines []
| proper_last l : l <> [] -> ~ In LF l -> proper_lines [l]
| proper_cons b ls :
    ~ In LF b -> proper_lines ls -> proper_lines ((b ++ [LF]) :: ls).

(** What may follow a literal for the reader to stop where the writer
    stopped. *)
Definition not_quote_head (s : pystr) : Prop :=
  match s with
  | c :: _ => c <> QUOTE
  | [] => True
  end.

Definition not_digit_head (s : pystr) : Prop :=
  match s with
  | c :: _ => digit_ctor c = None
  | [] => True
  end.

(** The statements the reader reads back as they were written: no
    text holds the character of code 0, and an INSERT carries a 64-bit
    integer key. *)
Definition readable (st : stmt) : Prop :=
  match st with
  | Delete res => nul_free res = true
  | Insert r =>
      int_key r /\ nul_free (resource r) = true
      /\ nul_free (updated r) = true /\ nul_free (payload r) = true
  end.

(** Induction on parsed JSON, through the lists of arrays and dicts. *)
Section JsonInduction.

Variable P : json -> Prop.
Hypothesis P_null : P JNull.
Hypothesis P_bool : forall b, P (JBool b).
Hypothesis P_int : forall z, P (JInt z).
Hypothesis P_float : forall f, P (JFloat f).
Hypothesis P_string : forall s, P (JString s).
Hypothesis P_array : forall items, Forall P items -> P (JArray items).
Hypothesis P_object :
  forall members, Forall (fun kv => P (snd kv)) members -> P (JObject members).

Fixpoint json_induction (j : json) : P j :=
  match j with
  | JNull => P_null
  | JBool b => P_bool b
  | JInt z => P_int z
  | JFloat f => P_float f
  | JString s => P_string s
  | JArray items =>
      P_array items
        ((fix all (l : list json) : Forall P l :=
            match l with
            | [] => Forall_nil P
            | x :: l' => Forall_cons x (json_induction x) (all l')
            end) items)
  | JObject members =>
      P_object members
        ((fix all (l : list (pystr * json)) : Forall (fun kv => P (snd kv)) l :=
            match l with
            | [] => Forall_nil _
            | kv :: l' =>
                Forall_cons (P := fun kv => P (snd kv)) kv
                  (json_induction (snd kv)) (all l')
            end) members)
  end.

End JsonInduction.

(** ** Sample inputs for the examples *)

Definition net : pystr := str "net".

(** The body [{"data": [...]}]. *)
Definition answer (data : list json) : response :=
  Body (JObject [(str "data", JArray data)]).

Definition sample_iterdump (t : table) : list pystr :=
  [str "BEGIN TRANSACTION;"]
  ++ map (fun r => str "INSERT INTO " ++ DQUOTE :: str "objects"
                   ++ DQUOTE :: str " VALUES('" ++ resource r
                   ++ str "'," ++ format_key (obj_id r) ++ str ",'"
                   ++ sql_escape (updated r) ++ str "','"
                   ++ sql_escape (payload r) ++ str "');") t
  ++ [str "COMMIT;"].

(** An environment in which the URL of [res] answers [data], every other
    URL answers an empty array, and every path can be written. *)
Definition serve (res : pystr) (data : list json) : env :=
  mkEnv (fun url => if pystr_eqb url (resource_url res)
                    then answer data else answer [])
        (fun _ => true) sample_iterdump (fun l => l).

Definition obj_1 : json :=
  JObject [(str "id", JInt 1);
           (str "updated", JString (str "2024-01-01T00:00:00Z"))].
Definition obj_2 : json := JObject [(str "id", JInt 2)].
Definition obj_1_again : json :=
  JObject [(str "id", JInt 1); (str "name", JString (str "O'Brien"))].
Definition obj_text_1 : json := JObject [(str "id", JString (str "1"))].

Definition obj_text_id : json := JObject [(str "id", JString (str "abc"))].


(** The table after importing [obj_1; obj_2; obj_1_again] as ["net"]. *)
Definition sample_table : table :=
  [ mkRow net (KInt 2) [] (dumps obj_2);
    mkRow net (KInt 1) [] (dumps obj_1_again) ].

Definition sample_world : world :=
  mkWorld sample_table sample_table [] [] [] [].


(** An environment in which the URL of ["net"] cannot be reached. *)
Definition net_down : env :=
  mkEnv (fun url => if pystr_eqb url (resource_url net)
                    then Unreachable else answer [])
        (fun _ => true) sample_iterdump (fun l => l).

(** Files are only written, lines are only added: what was there
    before is still there, under what was written since. *)
Definition output_grows (w w' : world) : Prop :=
  (exists written, files w' = written ++ files w)
  /\ (exists out, stdout w' = stdout w ++ out)
  /\ (exists err, stderr w' = stderr w ++ err).

Definition same_requests (w w' : world) : Prop := requests w' = requests w.


(** The rows [executemany] stores before it stops, and how it stops:
    the rows of the tuples before the first that fails, and its error. *)
Fixpoint accepted (rows : list pyrow) : list row * result unit :=
  match rows with
  | [] => ([], Returned tt)
  | pr :: rest =>
      match stored_row pr with
      | Returned r => let (done, out) := accepted rest in (r :: done, out)
      | Raised e => ([], Raised e)
      end
  end.

(** The paths a run writes to. *)
Definition output_paths : list pystr :=
  [ D1_DIR; DB_PATH; SQL_PATH; d1_path (str "00_schema.sql"); D1_SQL_PATH ]
  ++ map (fun res => d1_path (res ++ str ".sql")) RESOURCES.
(** ** A library for the examples

    The three conversions written out, for the numbers of the
    examples: the double nearest to a decimal text, the shortest
    digits that read back as the same double (the digits of Python's
    [repr]) and the 15 digits the engine writes for a REAL stored in a
    TEXT column.  The engine's own conversions round less exactly at
    mantissas of more than 15 digits. *)

(** [p / q] rounded to the nearest integer, a tie to the even one. *)
Definition round_div (p q : Z) : Z :=
  let d := (p / q)%Z in
  let r := (p mod q)%Z in
  if (2 * r <? q)%Z then d
  else if (q <? 2 * r)%Z then (d + 1)%Z
  else if Z.even d then d else (d + 1)%Z.

Definition scale2 (p q e : Z) : Z * Z :=
  if (e <? 0)%Z then ((p * 2 ^ (- e))%Z, q) else (p, (q * 2 ^ e)%Z).

(** The double nearest to [p / q], for [0 <= p] and [0 < q]: 53 bits
    of mantissa, the exponent at least -1074, an infinity above the
    greatest double. *)
Definition nearest_double (neg : bool) (p q : Z) : float :=
  if (p =? 0)%Z then S754_zero neg else
  let e0 := (Z.log2 p - Z.log2 q - 52)%Z in
  let (n0, d0) := scale2 p q e0 in
  let e1 := if (n0 / d0 <? 2 ^ 52)%Z then (e0 - 1)%Z else e0 in
  let e := Z.max e1 (-1074) in
  let (n, d) := scale2 p q e in
  let m := round_div n d in
  let (m', e') :=
    if (m =? 2 ^ 53)%Z then ((2 ^ 52)%Z, (e + 1)%Z) else (m, e) in
  if (971 <? e')%Z then S754_infinity neg
  else match m' with
       | Zpos pm => S754_finite neg pm e'
       | _ => S754_zero neg
       end.

Fixpoint take_digits (s : pystr) : pystr * pystr :=
  match s with
  | [] => ([], [])
  | c :: s' =>
      if is_digit c then let (d, r) := take_digits s' in (c :: d, r)
      else ([], s)
  end.

Definition minus_head (s : pystr) : bool :=
  match s with
  | c :: _ => c =? 45
  | [] => false
  end.

(** The REAL a text in the form of a number stands for. *)
Definition decimal_real (s : pystr) : float :=
  let t := sql_ltrim s in
  let neg := minus_head t in
  let (ip, t1) := take_digits (skip_sign t) in
  let (fp, t2) :=
    match t1 with
    | c :: r => if c =? 46 then take_digits r else ([], t1)
    | [] => ([], [])
    end in
  let ex :=
    match t2 with
    | c :: r =>
        if (c =? 101) || (c =? 69) then
          signed (minus_head r)
            (Z.of_N (horner (fst (take_digits (skip_sign r)))))
        else 0%Z
    | [] => 0%Z
    end in
  let mant := Z.of_N (horner (ip ++ fp)) in
  let e10 := (ex - Z.of_nat (length fp))%Z in
  if (mant =? 0)%Z then S754_zero neg
  else if (400 <? e10)%Z then S754_infinity neg
  else if (e10 + Z.of_nat (length (ip ++ fp)) <? -400)%Z then S754_zero neg
  else if (e10 <? 0)%Z then nearest_double neg mant (10 ^ (- e10))
  else nearest_double neg (mant * 10 ^ e10) 1.

(** [10^x <= p / q] *)
Definition pow10_le (x p q : Z) : bool :=
  if (x <? 0)%Z then (q <=? p * 10 ^ (- x))%Z else (q * 10 ^ x <=? p)%Z.

Fixpoint raise_exponent (fuel : nat) (x p q : Z) : Z :=
  match fuel with
  | O => x
  | S fuel' =>
      if pow10_le (x + 1) p q then raise_exponent fuel' (x + 1) p q else x
  end.

(** The greatest [x] with [10^x <= p / q], for [0 < p] and [0 < q]. *)
Definition decimal_exponent (p q : Z) : Z :=
  raise_exponent 4 ((Z.log2 p - Z.log2 q - 1) * 30103 / 100000 - 1) p q.

(** [p / q] rounded to [k] digits: the digits as a number and the
    power of ten of the first of them. *)
Definition round_digits (k p q : Z) : Z * Z :=
  let x := decimal_exponent p q in
  let t := (x - (k - 1))%Z in
  let D := if (t <? 0)%Z then round_div (p * 10 ^ (- t)) q
           else round_div p (q * 10 ^ t) in
  if (D =? 10 ^ k)%Z then ((10 ^ (k - 1))%Z, (x + 1)%Z) else (D, x).

(** The value of a finite double as a fraction. *)
Definition fraction_of (m : positive) (e : Z) : Z * Z :=
  match e with
  | Zneg k => (Zpos m, (2 ^ Zpos k)%Z)
  | _ => ((Zpos m * 2 ^ e)%Z, 1%Z)
  end.

Definition reads_back (f : float) (k D x : Z) : bool :=
  let t := (x - (k - 1))%Z in
  class_eqb
    (real_class (if (t <? 0)%Z then nearest_double false D (10 ^ (- t))
                 else nearest_double false (D * 10 ^ t) 1))
    (real_class (SFabs f)).

Fixpoint shortest_digits (fuel : nat) (k : Z) (f : float) (p q : Z) : Z * Z :=
  match fuel with
  | O => round_digits k p q
  | S fuel' =>
      let (D, x) := round_digits k p q in
      if reads_back f k D x then (D, x)
      else shortest_digits fuel' (k + 1) f p q
  end.

Fixpoint drop_zeros (s : pystr) : pystr :=
  match s with
  | c :: s' => if c =? 48 then drop_zeros s' else s
  | [] => []
  end.

(** The digits of [D] without the zeros at the end. *)
Definition significant (D : Z) : pystr :=
  match rev (drop_zeros (rev (str_of_N (Z.to_N D)))) with
  | [] => [48]
  | ds => ds
  end.

Definition zeros (n : Z) : pystr := repeat 48 (Z.to_nat n).

(** The digits [ds], the first of them at [10^x], with the point in
    its place and at least one digit on each side of it. *)
Definition fixed_notation (ds : pystr) (x : Z) : pystr :=
  let n := Z.of_nat (length ds) in
  let dp := (x + 1)%Z in
  if (dp <=? 0)%Z then str "0." ++ zeros (- dp) ++ ds
  else if (n <=? dp)%Z then ds ++ zeros (dp - n) ++ str ".0"
  else firstn (Z.to_nat dp) ds ++ [46] ++ skipn (Z.to_nat dp) ds.

Definition exponent_digits (x : Z) : pystr :=
  (if (x <? 0)%Z then [MINUS] else [43])
  ++ (if (Z.abs x <? 10)%Z then [48] else [])
  ++ str_of_N (Z.to_N (Z.abs x)).

Definition sign_of (f : float) : pystr :=
  match f with
  | S754_zero true | S754_finite true _ _ => [MINUS]
  | _ => []
  end.

(** [repr] of a finite float: the shortest digits that read back; the
    exponent is written from [1e16] on and below [1e-4], and a whole
    mantissa has no point then. *)
Definition python_repr (f : float) : pystr :=
  match f with
  | S754_finite _ m e =>
      let (p, q) := fraction_of m e in
      let (D, x) := shortest_digits 16 1 f p q in
      let ds := significant D in
      sign_of f
      ++ (if (-5 <? x)%Z && (x <? 16)%Z then fixed_notation ds x
          else firstn 1 ds
               ++ match skipn 1 ds with [] => [] | r => 46 :: r end
               ++ [101] ++ exponent_digits x)
  | _ => sign_of f ++ str "0.0"
  end.

(** The text the engine stores for a REAL in a TEXT column: 15 digits;
    the exponent is written from [1e15] on and below [1e-4], the
    mantissa always with its point. *)
Definition sqlite_text (f : float) : pystr :=
  match f with
  | S754_finite s m e =>
      let (p, q) := fraction_of m e in
      let (D, x) := round_digits 15 p q in
      let ds := significant D in
      (if s then [MINUS] else [])
      ++ (if (-5 <? x)%Z && (x <? 15)%Z then fixed_notation ds x
          else firstn 1 ds ++ [46]
               ++ match skipn 1 ds with [] => [48] | r => r end
               ++ [101] ++ exponent_digits x)
  | S754_infinity s => (if s then [MINUS] else []) ++ str "Inf"
  | _ => str "0.0"
  end.

(** A text of the class kept as it is, and a plain zero otherwise. *)
Definition within (ok : N -> bool) (s : pystr) : pystr :=
  if forallb ok s then s else str "0.0".

Definition within_ok (ok : N -> bool) (H : forallb ok (str "0.0") = true)
    (s : pystr) : forallb ok (within ok s) = true :=
  match forallb ok s as b
        return forallb ok s = b ->
               forallb ok (if b then s else str "0.0") = true
  with
  | true => fun E => E
  | false => fun _ => H
  end eq_refl.

Definition sample_lib : lib :=
  mkLib (fun f => within numeric_char (python_repr f))
        (fun f => within real_char (sqlite_text f))
        decimal_real
        (fun f => within_ok numeric_char eq_refl (python_repr f))
        (fun f => within_ok real_char eq_refl (sqlite_text f)).


(** ** Further notions, for the properties of the rest of the script *)

(** Text made of printable ASCII characters only, space to tilde. *)
Definition printable (s : pystr) : bool :=
  forallb (fun c => (32 <=? c) && (c <=? 126)) s.

(** Text without a line feed or a carriage return. *)
Definition one_line (s : pystr) : bool :=
  forallb (fun c => negb ((c =? LF) || (c =? CR))) s.

(** Text made of the characters [str.strip()] removes. *)
Definition blank (s : pystr) : bool := forallb py_isspace s.

(** [f.write(f"{line}\n")], line 80. *)
Definition with_newline (line : pystr) : pystr := line ++ [LF].

(** What lines 78-80 write to SQL_PATH for a table. *)
Definition full_dump_text (E : env) (t : table) : pystr :=
  concat (map with_newline (iterdump E t)).

(** The path and the line printed for the chunk of a resource. *)
Definition chunk_path (res : pystr) : pystr := d1_path (res ++ str ".sql").

(** The files the chunk loop has written after the resources [l], last
    written first. *)
Definition chunk_files (E : env) (t : table) (l : list pystr)
  : list (pystr * pystr) :=
  rev (map (fun res =>
              (chunk_path res,
               chunk_text res (select_order E (select_resource res t)))) l).

(** The number of single quotes of a text. *)
Definition quotes (s : pystr) : nat :=
  length (filter (fun c => c =? QUOTE) s).

Definition is_dict (j : json) : bool :=
  match j with JObject _ => true | _ => false end.

(** The elements the loop [for obj in data] runs over for a resource:
    those of the [data] of the body its URL answers, none when there is
    no such body. *)
Definition fetched (E : env) (res : pystr) : list json :=
  match urlopen E (resource_url res) with
  | Body body =>
      match (let* data := subscript_data body in py_iter data) with
      | Returned objs => objs
      | Raised _ => []
      end
  | _ => []
  end.

(** The line of line 75 for [n] tuples. *)
Definition progress_line (res : pystr) (n : nat) : pystr :=
  res ++ str ": " ++ str_of_N (N.of_nat n) ++ str " rows".

(** The import of one resource and of a list of resources as functions
    of the table alone: what lines 58-70 do to the table of the
    connection. *)
Definition one_import (E : env) (res : pystr) (t : table) : result table :=
  match urlopen E (resource_url res) with
  | Unreachable => Raised URLError
  | Malformed => Raised JSONDecodeError
  | Body body =>
      let* data := subscript_data body in
      let* rows := build_rows res data in
      store_rows rows t
  end.

Fixpoint import_all (E : env) (l : list pystr) (t : table) : result table :=
  match l with
  | [] => Returned t
  | res :: l' => let* t' := one_import E res t in import_all E l' t'
  end.

Definition schema_path : pystr := d1_path (str "00_schema.sql").

(** The files lines 77-136 write for a committed table, last written
    first, and the lines they print. *)
Definition run_files (E : env) (t : table) : list (pystr * pystr) :=
  [(D1_SQL_PATH, filter_dump (full_dump_text E t))]
  ++ chunk_files E t RESOURCES
  ++ [(schema_path, SCHEMA_SQL); (SQL_PATH, full_dump_text E t)].

Definition run_stdout : list pystr :=
  [ str "wrote " ++ DB_PATH ++ str " and " ++ SQL_PATH;
    str "wrote schema file " ++ schema_path ]
  ++ map (fun res => str "wrote chunk " ++ chunk_path res) RESOURCES
  ++ [ str "wrote " ++ D1_SQL_PATH
         ++ str " (filtered for D1 execute; may still be large)" ].

Definition run_stderr (E : env) : list pystr :=
  map (fun res => progress_line res (length (fetched E res))) RESOURCES.

(** What the elements of a resource must be for its chunk file to read
    back: an integer [id], and no single quote in a string [updated]
    (as in a timestamp). *)
Definition int_id (obj : json) : bool :=
  match id_of obj with JInt _ => true | _ => false end.

Definition plain_updated (obj : json) : bool :=
  match obj with
  | JObject members =>
      match dict_get (str "updated") members with
      | Some (JString s) => negb (existsb (N.eqb QUOTE) s) && nul_free s
      | _ => true
      end
  | _ => true
  end.

(** A full dump for the examples: a pragma, the transaction markers
    (the second indented), a blank line and an empty line, and two
    statements to keep. *)
Definition sample_dump : pystr :=
  concat (map with_newline
    [ str "PRAGMA foreign_keys=OFF;";
      str "BEGIN TRANSACTION;";
      str "CREATE TABLE objects (x);";
      str "   ";
      str "INSERT INTO objects VALUES('net',1,'','{}');";
      str "  COMMIT;";
      [] ]).

(** An element whose [updated] closes its literal, ends the statement
    and opens a comment. *)
Definition obj_crafted : json :=
  JObject [(str "id", JInt 1); (str "updated", JString (str "a','b');--"))].

(** A committed table with rows of two resources, one of them with a
    key that is no whole number and a quote in [updated] and in the
    payload. *)
Definition mixed_table : table :=
  [ mkRow net (KInt 2) [] (dumps obj_2);
    mkRow (str "org") (KInt 1) [] (dumps obj_2);
    mkRow net (KReal (S754_finite false 3 (-1))) (str "O'Brien")
      (dumps obj_1_again) ].

(** Elements whose ids are no integers: the text [1.0]; the number 3.0,
    with coordinates; the number 2.5, with a number for [updated]. *)
Definition real_3 : float := S754_finite false 3 0.
Definition real_2_5 : float := S754_finite false 5 (-1).
Definition real_1_5 : float := S754_finite false 3 (-1).

Definition obj_text_1_0 : json :=
  JObject [(str "id", JString (str "1.0")); (str "name", JString (str "x"))].

Definition obj_fac : json :=
  JObject [(str "id", JFloat real_3);
           (str "latitude", JFloat (S754_finite false 105 (-1)));
           (str "longitude", JFloat (S754_finite true 1 (-3)))].

Definition obj_half : json :=
  JObject [(str "id", JFloat real_2_5); (str "updated", JFloat real_1_5)].

Definition mixed_ids : list json := [obj_1; obj_fac; obj_text_1_0; obj_half].

(** The rows stored for [mixed_ids]: the text [1.0] has replaced the
    row of the id 1. *)
Definition mixed_rows : table :=
  [ mkRow net (KInt 3) [] (dumps obj_fac);
    mkRow net (KInt 1) [] (dumps obj_text_1_0);
    mkRow net (KReal real_2_5) (str "1.5") (dumps obj_half) ].

(** * Properties *)

(** ** Keys and upserts *)

Lemma pystr_eqb_eq a b : pystr_eqb a b = true <-> a = b.
Proof.
  unfold pystr_eqb. destruct (list_eq_dec N.eq_dec a b); split;
    intros; congruence.
Qed.

Lemma pystr_eqb_refl a : pystr_eqb a a = true.
Proof. now apply pystr_eqb_eq. Qed.

Lemma pystr_eqb_neq a b : pystr_eqb a b = false <-> a <> b.
Proof.
  unfold pystr_eqb. destruct (list_eq_dec N.eq_dec a b); split;
    intros; congruence.
Qed.

Lemma class_eqb_eq a b : class_eqb a b = true <-> a = b.
Proof.
  destruct a as [x | s m k | s | | x], b as [y | s' m' k' | s' | | y];
    simpl; split; intro H; try discriminate; try reflexivity.
  - apply Z.eqb_eq in H. congruence.
  - injection H as ->. apply Z.eqb_refl.
  - apply andb_true_iff in H. destruct H as [H Hk].
    apply andb_true_iff in H. destruct H as [Hs Hm].
    apply Bool.eqb_prop in Hs. apply Pos.eqb_eq in Hm, Hk. congruence.
  - injection H as -> -> ->.
    now rewrite Bool.eqb_reflx, !Pos.eqb_refl.
  - apply Bool.eqb_prop in H. congruence.
  - injection H as ->. apply Bool.eqb_reflx.
  - apply pystr_eqb_eq in H. congruence.
  - injection H as ->. apply pystr_eqb_refl.
Qed.

Lemma key_eqb_eq a b : key_eqb a b = true <-> class_of a = class_of b.
Proof. apply class_eqb_eq. Qed.

Lemma same_key_eq a b : same_key a b = true <-> key_of a = key_of b.
Proof.
  unfold same_key, key_of. rewrite andb_true_iff, pystr_eqb_eq, key_eqb_eq.
  split.
  - intros [-> ->]. reflexivity.
  - intros H. injection H as H1 H2. auto.
Qed.

Lemma same_key_neq a b : same_key a b = false <-> key_of a <> key_of b.
Proof.
  rewrite <- same_key_eq. destruct (same_key a b); split; congruence.
Qed.

Lemma same_key_refl a : same_key a a = true.
Proof. now apply same_key_eq. Qed.

Lemma same_key_resource a b : same_key a b = true -> resource a = resource b.
Proof. intros H. apply same_key_eq in H. unfold key_of in H. congruence. Qed.

Lemma in_upsert t r x :
  In x (upsert t r) <-> (In x t /\ key_of x <> key_of r) \/ x = r.
Proof.
  unfold upsert. rewrite in_app_iff, filter_In, negb_true_iff, same_key_neq.
  simpl. intuition.
Qed.

Lemma keys_filter_subset (f : row -> bool) t k :
  In k (map key_of (filter f t)) -> In k (map key_of t).
Proof.
  rewrite !in_map_iff. intros [x [Hx Hin]]. apply filter_In in Hin.
  exists x. tauto.
Qed.

Lemma unique_keys_filter (f : row -> bool) t :
  unique_keys t -> unique_keys (filter f t).
Proof.
  unfold unique_keys. induction t as [|a t IH]; simpl; intros H.
  - constructor.
  - inversion H as [|? ? Hnot Hrest]; subst.
    destruct (f a); simpl; auto.
    constructor; auto. intro Hin. apply Hnot.
    eapply keys_filter_subset; eauto.
Qed.

Lemma upsert_unique t r : unique_keys t -> unique_keys (upsert t r).
Proof.
  intros H. unfold upsert, unique_keys. rewrite map_app. simpl.
  apply NoDup_app.
  - apply (unique_keys_filter _ _ H).
  - repeat constructor. simpl. tauto.
  - intros k Hin [Hk | []]. subst k.
    apply in_map_iff in Hin. destruct Hin as [x [Hx Hin]].
    apply filter_In in Hin. destruct Hin as [_ Hin].
    apply negb_true_iff, same_key_neq in Hin. congruence.
Qed.

Lemma execute_insert_stored pr t :
  execute_insert pr t =
  (let* r := stored_row pr in Returned (upsert t r)).
Proof.
  destruct pr as [[[res i] u] p].
  unfold execute_insert, stored_row, insert_or_replace.
  destruct (bind_param (JString res)); [|reflexivity].
  destruct (bind_param i); [|reflexivity].
  destruct (bind_param u); [|reflexivity].
  destruct (bind_param (JString p)); reflexivity.
Qed.


Lemma store_rows_stored prs t :
  store_rows prs t =
  (let* rs := mapR stored_row prs in Returned (fold_left upsert rs t)).
Proof.
  revert t. induction prs as [|pr prs IH]; intros t; simpl; auto.
  rewrite execute_insert_stored.
  destruct (stored_row pr) as [r|e]; simpl; auto.
  rewrite IH. destruct (mapR stored_row prs); simpl; auto.
Qed.

(** A fold of upserts keeps the old rows whose key is not written and
    appends the written rows, each key once. *)
Lemma fold_upsert_split rs t :
  fold_left upsert rs t =
  filter (fun old => negb (existsb (same_key old) rs)) t
    ++ fold_left upsert rs [].
Proof.
  revert t. induction rs as [|r rs IH]; intros t; simpl.
  - rewrite List.app_nil_r. induction t; simpl; congruence.
  - rewrite IH. rewrite (IH (upsert [] r)).
    unfold upsert at 1 2. simpl. rewrite filter_app, <- List.app_assoc.
    f_equal.
    induction t as [|a t IHt]; simpl; auto.
    destruct (same_key a r); simpl; auto.
    destruct (existsb (same_key a) rs); simpl; auto. now rewrite IHt.
Qed.

Lemma in_fold_upsert rs : forall t x,
  In x (fold_left upsert rs t) <->
  (In x t /\ forall r, In r rs -> key_of r <> key_of x)
  \/ (exists l1 l2, rs = l1 ++ x :: l2
        /\ forall r, In r l2 -> key_of r <> key_of x).
Proof.
  induction rs as [|r rs IH]; intros t x; simpl.
  - split.
    + intros H. left. split; [exact H | intros r []].
    + intros [[H _] | [l1 [l2 [H _]]]]; [exact H | destruct l1; discriminate].
  - rewrite IH, in_upsert. split.
    + intros [[[[Hin Hk] | ->] Hrs] | [l1 [l2 [-> Hl2]]]].
      * left. split; auto. intros r' [<- | Hr']; auto.
      * right. exists [], rs. split; auto.
      * right. exists (r :: l1), l2. split; auto.
    + intros [[Hin Hrs] | [l1 [l2 [Heq Hl2]]]].
      * left. split; [left; split|]; auto.
        intro Hk. apply (Hrs r); auto.
      * destruct l1 as [|a l1]; simpl in Heq; injection Heq as <- ->.
        -- left. split; auto.
        -- right. exists l1, l2. auto.
Qed.

Lemma fold_upsert_unique rs : forall t,
  unique_keys t -> unique_keys (fold_left upsert rs t).
Proof.
  induction rs as [|r rs IH]; intros t H; simpl; auto.
  apply IH, upsert_unique, H.
Qed.

(** ** The monad and the import loop *)

Lemma bind_returned {A B} (m : M A) (k : A -> M B) w w' a :
  m w = (w', Returned a) -> bind m k w = k a w'.
Proof. unfold bind. now intros ->. Qed.

Lemma bind_raised {A B} (m : M A) (k : A -> M B) w w' e :
  m w = (w', Raised e) -> bind m k w = (w', Raised e).
Proof. unfold bind. now intros ->. Qed.

(** Nothing catches: a sequence raises exactly when its first part
    raises, in the world that part left, or when the first part returns
    and the rest raises. *)
Lemma bind_inv {A B} (m : M A) (k : A -> M B) w w' r :
  bind m k w = (w', r) ->
  (exists e, m w = (w', Raised e) /\ r = Raised e)
  \/ (exists w1 a, m w = (w1, Returned a) /\ k a w1 = (w', r)).
Proof.
  unfold bind. destruct (m w) as [w1 [a|e]]; intros H.
  - right. eauto.
  - left. injection H as <- <-. eauto.
Qed.

Lemma for_each_app {A} (l1 l2 : list A) (body : A -> M unit) w :
  for_each (l1 ++ l2) body w =
  bind (for_each l1 body) (fun _ => for_each l2 body) w.
Proof.
  revert w. induction l1 as [|a l1 IH]; intros w; simpl.
  - reflexivity.
  - unfold bind in *. destruct (body a w) as [w1 [[]|e]];
      [apply IH | reflexivity].
Qed.

Lemma executemany_returns rows w t :
  store_rows rows (conn w) = Returned t ->
  executemany rows w =
  (mkWorld (db_file w) t (files w) (stdout w) (stderr w) (requests w),
   Returned tt).
Proof.
  unfold executemany. revert w t.
  induction rows as [|pr rows IH]; intros w t; simpl.
  - intros [= <-]. destruct w; reflexivity.
  - destruct (execute_insert pr (conn w)) as [t1|e] eqn:H1; simpl;
      [|discriminate].
    intros H. unfold bind, execute_one. rewrite H1.
    rewrite (IH _ t); auto.
Qed.

Lemma executemany_raises rows w e :
  store_rows rows (conn w) = Raised e ->
  exists w', executemany rows w = (w', Raised e)
             /\ same_outside_conn w w'
             /\ exists done, conn w' = fold_left upsert done (conn w).
Proof.
  unfold executemany. revert w.
  induction rows as [|pr rows IH]; intros w; simpl; [discriminate|].
  destruct (execute_insert pr (conn w)) as [t1|e1] eqn:H1; simpl.
  - intros H. unfold bind, execute_one. rewrite H1.
    destruct (IH (mkWorld (db_file w) t1 (files w) (stdout w) (stderr w)
                          (requests w)) H) as [w' [Hrun [Hsame [done Hd]]]].
    exists w'. split; [exact Hrun|]. split; [exact Hsame|].
    rewrite execute_insert_stored in H1.
    destruct (stored_row pr) as [r|]; [|discriminate].
    injection H1 as <-. exists (r :: done). exact Hd.
  - intros [= ->]. exists w. unfold bind, execute_one. rewrite H1.
    repeat split. exists []. reflexivity.
Qed.

(** The import of one resource returns exactly when the URL answers a
    JSON body with a ["data"] entry whose elements all give rows the
    table accepts. *)
Lemma fetch_and_store_returns E res w w' :
  fetch_and_store E res w = (w', Returned tt) <->
  exists body data rows t,
    urlopen E (resource_url res) = Body body
    /\ subscript_data body = Returned data
    /\ build_rows res data = Returned rows
    /\ store_rows rows (conn w) = Returned t
    /\ w' = mkWorld (db_file w) t (files w) (stdout w)
              (stderr w ++ [res ++ str ": " ++ len rows ++ str " rows"])
              (requests w ++ [resource_url res]).
Proof.
  unfold fetch_and_store, bind, http_get_json, lift.
  destruct (urlopen E (resource_url res)) as [| |body];
    try (split; [discriminate | intros (?&?&?&?&?&_); discriminate]).
  destruct (subscript_data body) as [data|e] eqn:Hd;
    [|split; [discriminate |
              intros (?&?&?&?&[= <-]&H&_); congruence]].
  destruct (build_rows res data) as [rows|e] eqn:Hr;
    [|split; [discriminate |
              intros (?&?&?&?&[= <-]&H&H'&_); congruence]].
  destruct (store_rows rows (conn w)) as [t|e] eqn:Hs.
  - rewrite (executemany_returns rows
               (mkWorld (db_file w) (conn w) (files w) (stdout w)
                  (stderr w) (requests w ++ [resource_url res])) t Hs). simpl. split.
    + intros [= <-]. exists body, data, rows, t. auto.
    + intros (b&d&rs&t'&[= <-]&H1&H2&H3&->).
      assert (d = data) by congruence. subst d.
      assert (rs = rows) by congruence. subst rs.
      assert (t' = t) by congruence. subst t'. reflexivity.
  - destruct (executemany_raises rows
                (mkWorld (db_file w) (conn w) (files w) (stdout w)
                   (stderr w) (requests w ++ [resource_url res])) e Hs)
      as [w1 [Hrun _]].
    rewrite Hrun. split; [discriminate|].
    intros (b&d&rs&t'&[= <-]&H1&H2&H3&_).
    assert (d = data) by congruence. subst d.
    assert (rs = rows) by congruence. subst rs. congruence.
Qed.

(** However the import of one resource ends, it requests its URL once,
    writes no file, and leaves the committed table alone. *)
Lemma fetch_and_store_frame E res w w' r :
  fetch_and_store E res w = (w', r) ->
  db_file w' = db_file w /\ files w' = files w /\ stdout w' = stdout w
  /\ requests w' = requests w ++ [resource_url res]
  /\ exists done, conn w' = fold_left upsert done (conn w).
Proof.
  unfold fetch_and_store, bind, http_get_json, lift.
  destruct (urlopen E (resource_url res)) as [| |body];
    try (intros [= <- <-]; simpl; repeat split; exists []; reflexivity).
  destruct (subscript_data body) as [data|e];
    [|intros [= <- <-]; simpl; repeat split; exists []; reflexivity].
  destruct (build_rows res data) as [rows|e];
    [|intros [= <- <-]; simpl; repeat split; exists []; reflexivity].
  destruct (store_rows rows (conn w)) as [t|e] eqn:Hs.
  - rewrite (executemany_returns rows
               (mkWorld (db_file w) (conn w) (files w) (stdout w)
                  (stderr w) (requests w ++ [resource_url res])) t Hs). simpl.
    intros [= <- <-]. simpl. repeat split.
    rewrite store_rows_stored in Hs.
    destruct (mapR stored_row rows) as [rs|]; [|discriminate].
    injection Hs as <-. exists rs. reflexivity.
  - destruct (executemany_raises rows
                (mkWorld (db_file w) (conn w) (files w) (stdout w)
                   (stderr w) (requests w ++ [resource_url res])) e Hs)
      as [w1 [Hrun [(H1&H2&H3&H4&H5) [done Hd]]]].
    rewrite Hrun. intros [= <- <-]. simpl in *.
    repeat split; auto. exists done. exact Hd.
Qed.

(** ** Relating the world before and after a step *)

Section Respects.

Variable R : world -> world -> Prop.
Hypothesis R_refl : forall w, R w w.
Hypothesis R_trans : forall a b c, R a b -> R b c -> R a c.

Lemma respects_ret {A} (a : A) : respects R (ret a).
Proof. intros w w' r [= <- _]. apply R_refl. Qed.

Lemma respects_raise {A} e : respects R (@raise A e).
Proof. intros w w' r [= <- _]. apply R_refl. Qed.

Lemma respects_lift {A} (x : result A) : respects R (lift x).
Proof. intros w w' r [= <- _]. apply R_refl. Qed.

Lemma respects_bind {A B} (m : M A) (k : A -> M B) :
  respects R m -> (forall a, respects R (k a)) -> respects R (bind m k).
Proof.
  intros Hm Hk w w' r H. apply bind_inv in H.
  destruct H as [[e [H _]] | [w1 [a [H1 H2]]]].
  - eapply Hm; eauto.
  - eapply R_trans; [eapply Hm | eapply Hk]; eauto.
Qed.

Lemma respects_for_each {A} (l : list A) (body : A -> M unit) :
  (forall a, In a l -> respects R (body a)) -> respects R (for_each l body).
Proof.
  induction l as [|a l IH]; intros H; simpl.
  - apply respects_ret.
  - apply respects_bind.
    + apply H. now left.
    + intros _. apply IH. intros b Hb. apply H. now right.
Qed.

Hypothesis R_print : forall w line,
  R w (mkWorld (db_file w) (conn w) (files w) (stdout w ++ [line])
               (stderr w) (requests w)).

Hypothesis R_write : forall w path content,
  R w (mkWorld (db_file w) (conn w) ((path, content) :: files w)
               (stdout w) (stderr w) (requests w)).

Lemma respects_print line : respects R (print line).
Proof. intros w w' r [= <- _]. apply R_print. Qed.

Lemma respects_write_file E path content :
  respects R (write_file E path content).
Proof.
  intros w w' r. unfold write_file.
  destruct (writable E path); intros [= <- _]; auto.
Qed.

Lemma respects_read_then path (k : pystr -> M unit) :
  (forall c, respects R (k c)) -> respects R (bind (read_file path) k).
Proof.
  intros Hk. apply respects_bind; auto.
  intros w w' r. unfold read_file.
  destruct (lookup_file path (files w)); intros [= <- _]; auto.
Qed.

Lemma respects_makedirs E path : respects R (makedirs E path).
Proof.
  unfold makedirs. destruct (writable E path);
    [apply respects_ret | apply respects_raise].
Qed.

Hypothesis R_connect : forall w,
  R w (mkWorld [] [] (files w) (stdout w) (stderr w) (requests w)).

Hypothesis R_commit : forall w,
  R w (mkWorld (conn w) (conn w) (files w) (stdout w) (stderr w)
               (requests w)).

Hypothesis R_fetch : forall E res, respects R (fetch_and_store E res).

Lemma respects_import E : respects R (import_phase E).
Proof.
  unfold import_phase. apply respects_bind; [apply respects_makedirs|].
  intros _. apply respects_bind.
  - intros w w' r. unfold connect_and_create.
    destruct (writable E DB_PATH); intros [= <- _]; auto.
  - intros _. apply respects_for_each. intros; apply R_fetch.
Qed.

Lemma respects_export E : respects R (export_phase E).
Proof.
  unfold export_phase. apply respects_bind.
  { intros w w' r [= <- _]. apply R_commit. }
  intros _. apply respects_bind.
  { unfold export_full_dump. apply respects_bind.
    - intros w w' r [= <- _]. apply R_refl.
    - intros t. apply respects_bind; [apply respects_write_file|].
      intros _. apply respects_print. }
  intros _. apply respects_bind.
  { unfold write_schema. apply respects_bind; [apply respects_write_file|].
    intros _. apply respects_print. }
  intros _. apply respects_bind.
  { apply respects_for_each. intros res _. unfold export_chunk.
    apply respects_bind.
    - intros w w' r [= <- _]. apply R_refl.
    - intros t. apply respects_bind; [apply respects_write_file|].
      intros _. apply respects_print. }
  intros _. unfold export_filtered_dump. apply respects_read_then.
  intros c. apply respects_bind; [apply respects_write_file|].
  intros _. apply respects_print.
Qed.

Lemma respects_main E : respects R (main E).
Proof.
  unfold main. apply respects_bind; [apply respects_import|].
  intros _. apply respects_bind; [apply respects_export|].
  intros _. apply respects_ret.
Qed.

End Respects.

(** ** The primary key (C7) and idempotence (C4) *)

Lemma keys_ok_main E w w' r :
  keys_ok w -> main E w = (w', r) -> keys_ok w'.
Proof.
  intros Hw Hrun.
  refine (respects_main (fun a b => keys_ok a -> keys_ok b)
            _ _ _ _ _ _ _ E w w' r Hrun Hw); clear; unfold keys_ok; simpl;
    auto.
  - intros w. split; constructor.
  - intros w [_ H]. auto.
  - intros E res w w' r Hrun [H1 H2].
    destruct (fetch_and_store_frame E res w w' r Hrun)
      as (Hdb & _ & _ & _ & done & Hc).
    rewrite Hdb, Hc. split; auto. now apply fold_upsert_unique.
Qed.

Lemma execute_insert_replaces pr t t' :
  execute_insert pr t = Returned t' ->
  exists new, stored_row pr = Returned new /\ t' = upsert t new
    /\ In new t' /\ forall x, In x t' -> key_of x = key_of new -> x = new.
Proof.
  rewrite execute_insert_stored.
  destruct (stored_row pr) as [new|]; simpl; [|discriminate].
  intros [= <-]. exists new. repeat split.
  - apply in_upsert. now right.
  - intros x Hx Hk. apply in_upsert in Hx. destruct Hx as [[_ Hn]|Hx]; auto.
    contradiction.
Qed.

(** C7. At most one record per (resource, obj_id): a run that starts
    with unique keys ends with unique keys, in the connection and in
    the committed table, however it ends; and one upsert keeps the keys
    unique, stores the new row, and leaves no other row under its key. *)
Theorem primary_key_invariant E w w' r :
  unique_keys (db_file w) -> unique_keys (conn w) ->
  main E w = (w', r) ->
  (unique_keys (db_file w') /\ unique_keys (conn w'))
  /\ forall pr t t',
       unique_keys t -> execute_insert pr t = Returned t' ->
       unique_keys t'
       /\ exists new, stored_row pr = Returned new /\ In new t'
            /\ forall x, In x t' -> key_of x = key_of new -> x = new.
Proof.
  intros H1 H2 Hrun. split.
  - apply (keys_ok_main E w w' r); [split|]; assumption.
  - intros pr t t' Ht Hex.
    destruct (execute_insert_replaces pr t t' Hex) as (new & Hs & -> & Hin & Hu).
    split; [now apply upsert_unique|]. exists new. auto.
Qed.

Lemma filter_idem {A} (f : A -> bool) l : filter f (filter f l) = filter f l.
Proof.
  induction l as [|a l IH]; simpl; auto.
  destruct (f a) eqn:Hf; simpl; [rewrite Hf, IH|]; auto.
Qed.

Lemma filter_none {A} (f : A -> bool) l :
  (forall x, In x l -> f x = false) -> filter f l = [].
Proof.
  induction l as [|a l IH]; simpl; intros H; auto.
  rewrite (H a); auto.
Qed.

Lemma in_fold_upsert_nil rs x :
  In x (fold_left upsert rs []) -> In x rs.
Proof.
  intros H. apply in_fold_upsert in H.
  destruct H as [[[] _] | [l1 [l2 [-> _]]]].
  apply in_app_iff. right. now left.
Qed.

Lemma fold_upsert_twice rs t :
  fold_left upsert rs (fold_left upsert rs t) = fold_left upsert rs t.
Proof.
  rewrite (fold_upsert_split rs (fold_left upsert rs t)).
  rewrite (fold_upsert_split rs t) at 1 2.
  rewrite filter_app, filter_idem.
  rewrite (filter_none _ (fold_left upsert rs [])).
  - now rewrite List.app_nil_r.
  - intros x Hx. apply in_fold_upsert_nil in Hx.
    apply negb_false_iff, existsb_exists. exists x. split; auto.
    apply same_key_refl.
Qed.

Lemma store_rows_twice rows t t1 :
  store_rows rows t = Returned t1 -> store_rows rows t1 = Returned t1.
Proof.
  rewrite !store_rows_stored.
  destruct (mapR stored_row rows) as [rs|]; simpl; [|discriminate].
  intros [= <-]. now rewrite fold_upsert_twice.
Qed.

Lemma executemany_accepted rows : forall w,
  executemany rows w =
  (mkWorld (db_file w) (fold_left upsert (fst (accepted rows)) (conn w))
           (files w) (stdout w) (stderr w) (requests w),
   snd (accepted rows)).
Proof.
  unfold executemany.
  induction rows as [|pr rows IH]; intros w; cbn [for_each accepted].
  - destruct w; reflexivity.
  - unfold bind, execute_one. rewrite execute_insert_stored.
    destruct (stored_row pr) as [r|e]; cbv [bindR].
    + rewrite IH. destruct (accepted rows) as [done out]. reflexivity.
    + destruct w; reflexivity.
Qed.

(** C4. fetch_and_store is idempotent: run again on the world it left,
    with the same answer from the URL, the import of a resource ends the
    same way (it returns, or raises the same exception) and leaves the
    connection's table exactly as the first run left it, rows and
    order; the committed table is touched by neither. *)
Theorem fetch_and_store_idempotent E res w :
  snd (fetch_and_store E res (fst (fetch_and_store E res w)))
  = snd (fetch_and_store E res w)
  /\ conn (fst (fetch_and_store E res (fst (fetch_and_store E res w))))
     = conn (fst (fetch_and_store E res w))
  /\ db_file (fst (fetch_and_store E res (fst (fetch_and_store E res w))))
     = db_file w.
Proof.
  unfold fetch_and_store, bind, http_get_json, lift.
  destruct (urlopen E (resource_url res)) as [| |body]; cbn [fst snd conn];
    try (repeat split; reflexivity).
  destruct (subscript_data body) as [data|]; cbn [fst snd conn];
    [|repeat split; reflexivity].
  destruct (build_rows res data) as [rows|]; cbn [fst snd conn];
    [|repeat split; reflexivity].
  rewrite !executemany_accepted. cbn [conn db_file files stdout stderr requests].
  destruct (snd (accepted rows)) as [[]|e] eqn:Hout;
    cbn [fst snd conn db_file files stdout stderr requests eprint];
    rewrite ?executemany_accepted, ?Hout;
    cbn [fst snd conn db_file files stdout stderr requests eprint];
    rewrite ?fold_upsert_twice; repeat split; reflexivity.
Qed.

(** ** Stored rows of one import (C1) *)

Lemma mapR_Forall2 {A B} (f : A -> result B) l l' :
  mapR f l = Returned l' <-> Forall2 (fun a b => f a = Returned b) l l'.
Proof.
  revert l'. induction l as [|a l IH]; intros l'; simpl.
  - split.
    + intros [= <-]. constructor.
    + intros H. inversion H. reflexivity.
  - destruct (f a) as [b|e] eqn:Hf; simpl.
    + destruct (mapR f l) as [bs|e] eqn:Hm; simpl.
      * split.
        -- intros [= <-]. constructor; auto. now apply IH.
        -- intros H. inversion H as [|? b' ? bs' Hb Hbs]; subst.
           apply IH in Hbs. congruence.
      * split; [discriminate|].
        intros H. inversion H as [|? b' ? bs' Hb Hbs]; subst.
        apply IH in Hbs. discriminate.
    + split; [discriminate|].
      intros H. inversion H; subst. congruence.
Qed.

Lemma mapR_compose {A B C} (f : A -> result B) (g : B -> result C) :
  forall l bs cs,
  mapR f l = Returned bs -> mapR g bs = Returned cs ->
  Forall2 (fun a c => (let* b := f a in g b) = Returned c) l cs.
Proof.
  induction l as [|a l IH]; simpl; intros bs cs.
  - intros [= <-] [= <-]. constructor.
  - destruct (f a) as [b|] eqn:Hf; simpl; [|discriminate].
    destruct (mapR f l) as [bs'|] eqn:Hl; simpl; [|discriminate].
    intros [= <-]. simpl.
    destruct (g b) as [c|] eqn:Hg; simpl; [|discriminate].
    destruct (mapR g bs') as [cs'|] eqn:Hm; simpl; [|discriminate].
    intros [= <-]. constructor.
    + rewrite Hf. exact Hg.
    + apply (IH bs' cs' eq_refl Hm).
Qed.

(** Where the rows of an import come from: the table after the import
    is the table before it, upserted with the row of every element. *)
Lemma import_rows res data t t' prs :
  build_rows res (JArray data) = Returned prs ->
  store_rows prs t = Returned t' ->
  exists rs, Forall2 (fun obj r => row_for res obj = Returned r) data rs
             /\ t' = fold_left upsert rs t.
Proof.
  unfold build_rows. simpl. intros Hb Hs.
  rewrite store_rows_stored in Hs.
  destruct (mapR stored_row prs) as [rs|] eqn:Hm; [|discriminate].
  injection Hs as <-. exists rs. split; auto.
  exact (mapR_compose (row_tuple res) stored_row data prs rs Hb Hm).
Qed.

Lemma bind_param_text s v :
  bind_param (JString s) = Returned v -> v = SText s.
Proof.
  simpl. destruct (existsb is_surrogate s); congruence.
Qed.

Lemma constrained_row_fields r i u p x :
  constrained_row (SText r) i (SText u) (SText p) = Returned x ->
  resource x = r /\ updated x = u /\ payload x = p
  /\ integer_affinity i = match obj_id x with
                          | KInt z => SInteger z
                          | KReal f => SReal f
                          | KText s => SText s
                          end.
Proof.
  unfold constrained_row. simpl.
  destruct (integer_affinity i); intros [= <-]; simpl; auto.
Qed.

Lemma bindR_inv {A B} (m : result A) (k : A -> result B) b :
  bindR m k = Returned b -> exists a, m = Returned a /\ k a = Returned b.
Proof. destruct m as [a|]; simpl; [eauto | discriminate]. Qed.

Lemma stored_row_inv res i u p x :
  stored_row (res, i, u, p) = Returned x ->
  exists i' u', bind_param i = Returned i' /\ bind_param u = Returned u'
    /\ constrained_row (SText res) i' u' (SText p) = Returned x.
Proof.
  unfold stored_row. intros H.
  apply bindR_inv in H. destruct H as (r' & Hr & H).
  apply bindR_inv in H. destruct H as (i' & Hi & H).
  apply bindR_inv in H. destruct H as (u' & Hu & H).
  apply bindR_inv in H. destruct H as (p' & Hp & H).
  apply bind_param_text in Hr, Hp. subst. eauto.
Qed.

Lemma row_for_inv res obj x :
  row_for res obj = Returned x ->
  exists members i' u',
    obj = JObject members
    /\ bind_param (id_of obj) = Returned i'
    /\ bind_param (match dict_get (str "updated") members with
                   | Some v => v
                   | None => JString []
                   end) = Returned u'
    /\ constrained_row (SText res) i' u' (SText (dumps obj)) = Returned x.
Proof.
  unfold row_for, row_tuple, id_of. intros H.
  destruct obj as [| | | | | |members]; try discriminate H.
  cbv [get bindR] in H. apply stored_row_inv in H.
  destruct H as (i' & u' & Hi & Hu & H). exists members, i', u'.
  cbv [get]. auto.
Qed.

(** The row of an element whose id is an integer: the resource, the id
    as key, the text of [updated] and the compact JSON of the element. *)
Lemma row_for_int_id res obj z x :
  row_for res obj = Returned x -> id_of obj = JInt z ->
  resource x = res /\ obj_id x = KInt z /\ payload x = dumps obj
  /\ (has_key (str "updated") obj = false -> updated x = [])
  /\ (forall s, get obj (str "updated") (JString []) = Returned (JString s) ->
                updated x = s).
Proof.
  intros H Hid. apply row_for_inv in H.
  destruct H as (members & i' & u' & -> & Hi & Hu & H).
  rewrite Hid in Hi. cbn [bind_param] in Hi.
  destruct (int64 z); [|discriminate]. injection Hi as <-.
  unfold constrained_row in H. cbn [text_affinity integer_affinity] in H.
  destruct (text_affinity u') as [| | |u] eqn:Hta; try discriminate.
  injection H as <-. cbn [resource obj_id payload updated].
  repeat split.
  - cbn [has_key]. intros Hk.
    destruct (dict_get (str "updated") members); [discriminate|].
    apply bind_param_text in Hu. subst u'. simpl in Hta. congruence.
  - cbv [get]. intros s [= Hs]. rewrite Hs in Hu.
    apply bind_param_text in Hu. subst u'. simpl in Hta. congruence.
Qed.

(** Every key written, and every key there before, is in the table
    after a fold of upserts. *)
Lemma key_kept rs : forall t k,
  (exists x, In x t /\ key_of x = k) \/ (exists r, In r rs /\ key_of r = k) ->
  exists x, In x (fold_left upsert rs t) /\ key_of x = k.
Proof.
  induction rs as [|r rs IH]; intros t k; simpl.
  - intros [H | [? [[] _]]]. exact H.
  - intros H. apply IH.
    destruct (list_eq_dec N.eq_dec (fst k) (resource r)) as [Hres|Hres].
    + destruct (class_eqb (snd k) (class_of (obj_id r))) eqn:Hk.
      * left. exists r. split; [apply in_upsert; now right|].
        apply class_eqb_eq in Hk. destruct k; simpl in *. unfold key_of.
        congruence.
      * assert (Hne : k <> key_of r).
        { intros ->. simpl in Hk.
          rewrite (proj2 (class_eqb_eq _ _) eq_refl) in Hk.
          discriminate. }
        destruct H as [(x & Hx & Hkx) | (r' & [<- | Hr'] & Hkr)].
        -- left. exists x. split; auto. apply in_upsert. left. split; congruence.
        -- congruence.
        -- right. eauto.
    + assert (Hne : k <> key_of r) by (intros ->; apply Hres; reflexivity).
      destruct H as [(x & Hx & Hkx) | (r' & [<- | Hr'] & Hkr)].
      * left. exists x. split; auto. apply in_upsert. left. split; congruence.
      * congruence.
      * right. eauto.
Qed.

Lemma select_resource_app res a b :
  select_resource res (a ++ b) = select_resource res a ++ select_resource res b.
Proof. apply filter_app. Qed.

Lemma select_resource_all res l :
  (forall x, In x l -> resource x = res) -> select_resource res l = l.
Proof.
  induction l as [|a l IH]; simpl; intros H; auto.
  rewrite (H a), pystr_eqb_refl, IH; auto.
Qed.

Lemma select_resource_filter res f t :
  select_resource res t = [] -> select_resource res (filter f t) = [].
Proof.
  unfold select_resource. induction t as [|a t IH]; simpl; auto.
  destruct (pystr_eqb (resource a) res) eqn:Ha; [discriminate|].
  intros H. destruct (f a); simpl; [rewrite Ha|]; auto.
Qed.

(** The rows of a resource after its import into a table that held none
    of them: the fold of the upserts of its rows on the empty table. *)
Lemma select_after_import res rs t :
  select_resource res t = [] ->
  (forall x, In x rs -> resource x = res) ->
  select_resource res (fold_left upsert rs t) = fold_left upsert rs [].
Proof.
  intros Ht Hres. rewrite fold_upsert_split, select_resource_app.
  rewrite select_resource_filter; auto. simpl.
  apply select_resource_all. intros x Hx. apply Hres.
  now apply in_fold_upsert_nil.
Qed.

Lemma row_for_resource res obj x :
  row_for res obj = Returned x -> resource x = res.
Proof.
  intros H. apply row_for_inv in H.
  destruct H as (members & i' & u' & _ & _ & _ & H).
  unfold constrained_row in H. cbn [text_affinity] in H.
  destruct (integer_affinity i'); try discriminate;
    destruct (text_affinity u'); try discriminate;
    injection H as <-; reflexivity.
Qed.

Lemma Forall2_in_l {A B} (P : A -> B -> Prop) l l' a :
  Forall2 P l l' -> In a l -> exists b, In b l' /\ P a b.
Proof.
  induction 1 as [|x y l l' Hxy _ IH]; simpl; [tauto|].
  intros [<- | Ha]; [eauto|].
  destruct (IH Ha) as (b & Hb & Hp). eauto.
Qed.

Lemma Forall2_in_r {A B} (P : A -> B -> Prop) l l' b :
  Forall2 P l l' -> In b l' -> exists a, In a l /\ P a b.
Proof.
  induction 1 as [|x y l l' Hxy _ IH]; simpl; [tauto|].
  intros [<- | Hb]; [eauto|].
  destruct (IH Hb) as (a & Ha & Hp). eauto.
Qed.

(** Rows of elements with integer ids have the same key exactly when
    the elements have the same id. *)
Lemma int_id_key res o1 o2 r1 r2 :
  is_int_id o1 -> is_int_id o2 ->
  row_for res o1 = Returned r1 -> row_for res o2 = Returned r2 ->
  (key_of r1 = key_of r2 <-> id_of o1 = id_of o2).
Proof.
  intros [z1 H1] [z2 H2] Hr1 Hr2.
  destruct (row_for_int_id _ _ _ _ Hr1 H1) as (Ha & Hb & _).
  destruct (row_for_int_id _ _ _ _ Hr2 H2) as (Hc & Hd & _).
  unfold key_of. rewrite Ha, Hb, Hc, Hd, H1, H2. cbn [class_of].
  split; intros [= ->]; reflexivity.
Qed.

Section OneImport.

Variables (res : pystr) (data : list json) (rs : list row).
Hypothesis rows_of_data :
  Forall2 (fun obj r => row_for res obj = Returned r) data rs.
Hypothesis int_ids : Forall is_int_id data.

Let stored := fold_left upsert rs [].

Lemma stored_from_last r :
  In r stored <->
  exists pre obj post,
    data = pre ++ obj :: post
    /\ row_for res obj = Returned r
    /\ forall later, In later post -> id_of later <> id_of obj.
Proof.
  unfold stored. rewrite in_fold_upsert. split.
  - intros [[[] _] | (l1 & l2 & Hrs & Hl2)].
    pose proof rows_of_data as HF. rewrite Hrs in HF.
    apply Forall2_app_inv_r in HF.
    destruct HF as (pre & post' & Hpre & Hpost & Hdata).
    inversion Hpost as [|obj r' post l2' Hobj Hrest]; subst.
    exists pre, obj, post. repeat split; auto.
    intros later Hlater Hid.
    destruct (Forall2_in_l _ _ _ _ Hrest Hlater) as (r' & Hr' & Hp).
    apply (Hl2 r' Hr').
    rewrite Forall_forall in int_ids.
    apply (int_id_key res later obj r' r); auto;
      apply int_ids; rewrite in_app_iff; simpl; auto.
  - intros (pre & obj & post & Hdata & Hrow & Hpost). right.
    pose proof rows_of_data as HF. rewrite Hdata in HF.
    apply Forall2_app_inv_l in HF.
    destruct HF as (l1 & l2' & Hl1 & Hl2 & Hrs).
    inversion Hl2 as [|obj' r' post' l2 Hobj Hrest]; subst.
    assert (r' = r) by congruence. subst r'.
    exists l1, l2. split; auto.
    intros r' Hr' Hk.
    destruct (Forall2_in_r _ _ _ _ Hrest Hr') as (later & Hlater & Hp).
    apply (Hpost later Hlater).
    rewrite Forall_forall in int_ids.
    apply (int_id_key res later obj r' r); auto;
      apply int_ids; rewrite in_app_iff; simpl; auto.
Qed.

Lemma stored_resource x : In x stored -> resource x = res.
Proof.
  intros Hx. apply in_fold_upsert_nil in Hx.
  destruct (Forall2_in_r _ _ _ _ rows_of_data Hx) as (obj & _ & H).
  now apply row_for_resource in H.
Qed.

Lemma stored_unique : unique_keys stored.
Proof. apply fold_upsert_unique. constructor. Qed.

Lemma stored_ids_nodup : NoDup (map (fun r => id_json (obj_id r)) stored).
Proof.
  pose proof stored_unique as Hu. unfold unique_keys in Hu.
  pose proof stored_resource as Hres.
  induction stored as [|a l IH]; simpl; [constructor|].
  inversion Hu as [|? ? Hnot Hrest]; subst.
  constructor.
  - intros Hin. apply Hnot. apply in_map_iff in Hin.
    destruct Hin as (b & Hb & Hin). apply in_map_iff. exists b. split; auto.
    unfold key_of. rewrite (Hres a), (Hres b); simpl; auto.
    assert (Hab : obj_id b = obj_id a)
      by (destruct (obj_id a), (obj_id b); simpl in Hb; congruence).
    now rewrite Hab.
  - apply IH; auto. intros x Hx. apply Hres. now right.
Qed.

Lemma stored_ids j :
  In j (map (fun r => id_json (obj_id r)) stored) <-> In j (map id_of data).
Proof.
  rewrite Forall_forall in int_ids. rewrite !in_map_iff. split.
  - intros (r & <- & Hr). apply in_fold_upsert_nil in Hr.
    destruct (Forall2_in_r _ _ _ _ rows_of_data Hr) as (obj & Hobj & H).
    exists obj. split; auto.
    destruct (int_ids obj Hobj) as [z Hz].
    destruct (row_for_int_id _ _ _ _ H Hz) as (_ & Hk & _).
    rewrite Hk, Hz. reflexivity.
  - intros (obj & <- & Hobj).
    destruct (Forall2_in_l _ _ _ _ rows_of_data Hobj) as (r & Hr & H).
    destruct (key_kept rs [] (key_of r)) as (x & Hx & Hk); [right; eauto|].
    exists x. split; auto.
    destruct (int_ids obj Hobj) as [z Hz].
    destruct (row_for_int_id _ _ _ _ H Hz) as (_ & Hrk & _).
    pose proof Hx as Hx'. apply in_fold_upsert_nil in Hx'.
    destruct (Forall2_in_r _ _ _ _ rows_of_data Hx') as (obj' & Hobj' & H').
    destruct (int_ids obj' Hobj') as [z' Hz'].
    destruct (row_for_int_id _ _ _ _ H' Hz') as (_ & Hxk & _).
    unfold key_of in Hk. rewrite Hxk, Hrk in Hk. cbn [class_of] in Hk.
    injection Hk as _ Hk. rewrite Hxk, Hk, Hz. reflexivity.
Qed.

Lemma stored_count ids :
  NoDup ids -> (forall j, In j ids <-> In j (map id_of data)) ->
  length stored = length ids.
Proof.
  intros Hnd Hids.
  rewrite <- (length_map (fun r => id_json (obj_id r)) stored).
  apply Permutation_length, NoDup_Permutation; auto.
  - apply stored_ids_nodup.
  - intros j. rewrite stored_ids, Hids. tauto.
Qed.

End OneImport.

(** In a run, each resource is imported into a table that holds none
    of its rows: the table is created empty and the names of the list
    are distinct. *)

Lemma resources_distinct : NoDup RESOURCES.
Proof.
  vm_compute.
  repeat (constructor; [simpl; intuition discriminate|]). constructor.
Qed.

Lemma import_rows_any res data t t' prs :
  build_rows res data = Returned prs ->
  store_rows prs t = Returned t' ->
  exists objs rs,
    py_iter data = Returned objs
    /\ Forall2 (fun obj r => row_for res obj = Returned r) objs rs
    /\ t' = fold_left upsert rs t.
Proof.
  unfold build_rows. intros Hb Hs.
  destruct (py_iter data) as [objs|]; [|discriminate]. cbv [bindR] in Hb.
  rewrite store_rows_stored in Hs.
  destruct (mapR stored_row prs) as [rs|] eqn:Hm; [|discriminate].
  injection Hs as <-. exists objs, rs. repeat split.
  exact (mapR_compose (row_tuple res) stored_row objs prs rs Hb Hm).
Qed.

Lemma fetch_and_store_other E res other w w' :
  fetch_and_store E other w = (w', Returned tt) ->
  other <> res ->
  select_resource res (conn w) = [] ->
  select_resource res (conn w') = [].
Proof.
  intros Hrun Hne Hempty. apply fetch_and_store_returns in Hrun.
  destruct Hrun as (body & data & prs & t & _ & _ & Hb & Hs & ->).
  destruct (import_rows_any other data (conn w) t prs Hb Hs)
    as (objs & rs & _ & HF & ->).
  cbn [conn]. rewrite fold_upsert_split, select_resource_app.
  rewrite select_resource_filter by assumption. cbn [app].
  apply filter_none. intros x Hx. apply in_fold_upsert_nil in Hx.
  destruct (Forall2_in_r _ _ _ _ HF Hx) as (obj & _ & Hrow).
  apply row_for_resource in Hrow. apply pystr_eqb_neq. congruence.
Qed.

Lemma import_loop_other E res pre : forall w w1,
  for_each pre (fetch_and_store E) w = (w1, Returned tt) ->
  ~ In res pre ->
  select_resource res (conn w) = [] ->
  select_resource res (conn w1) = [].
Proof.
  induction pre as [|a pre IH]; intros w w1; cbn [for_each].
  - intros [= <-] _ H. exact H.
  - intros H Hn Hempty. apply bind_inv in H.
    destruct H as [(e & _ & [=]) | (wa & [] & Ha & H)].
    apply (IH wa w1 H).
    + intros Hin. apply Hn. now right.
    + apply (fetch_and_store_other E res a w wa Ha); auto.
      intros ->. apply Hn. now left.
Qed.

Lemma run_imports_into_fresh_table E w pre res post w1 :
  RESOURCES = pre ++ res :: post ->
  bind (makedirs E D1_DIR)
    (fun _ => bind (connect_and_create E)
       (fun _ => for_each pre (fetch_and_store E))) w = (w1, Returned tt) ->
  select_resource res (conn w1) = [].
Proof.
  intros Hres H.
  apply bind_inv in H. destruct H as [(? & _ & [=]) | (wa & [] & Ha & H)].
  apply bind_inv in H. destruct H as [(? & _ & [=]) | (wb & [] & Hb & H)].
  apply (import_loop_other E res pre wb w1 H).
  - pose proof resources_distinct as Hnd. rewrite Hres in Hnd.
    apply NoDup_remove_2 in Hnd. intros Hin. apply Hnd.
    apply in_app_iff. now left.
  - unfold connect_and_create in Hb.
    destruct (writable E DB_PATH); [|discriminate].
    injection Hb as <-. reflexivity.
Qed.

(** C1, as amended.  For a fetched data array whose ids are all JSON
    integers, imported into a table that holds no row of the resource
    (as in a run: the table is created empty and each resource is
    fetched once): when fetch_and_store returns, the rows stored under
    the resource are exactly the rows of the last occurrence of each id,
    each with the resource, the id as key, the text of [updated] (empty when
    absent) and the compact JSON of that element; their keys are
    unique, and their number is the number of distinct ids. *)
Theorem fetch_and_store_last_occurrence E res w w' body data :
  urlopen E (resource_url res) = Body body ->
  subscript_data body = Returned (JArray data) ->
  Forall is_int_id data ->
  select_resource res (conn w) = [] ->
  fetch_and_store E res w = (w', Returned tt) ->
  (forall r, In r (select_resource res (conn w')) <->
     exists pre obj post,
       data = pre ++ obj :: post
       /\ row_for res obj = Returned r
       /\ forall later, In later post -> id_of later <> id_of obj)
  /\ (forall obj z r, row_for res obj = Returned r -> id_of obj = JInt z ->
        resource r = res /\ obj_id r = KInt z /\ payload r = dumps obj
        /\ (has_key (str "updated") obj = false -> updated r = [])
        /\ (forall s, get obj (str "updated") (JString []) = Returned (JString s)
                      -> updated r = s))
  /\ unique_keys (select_resource res (conn w'))
  /\ (forall ids, NoDup ids ->
        (forall j, In j ids <-> In j (map id_of data)) ->
        length (select_resource res (conn w')) = length ids).
Proof.
  intros Hurl Hdata Hint Hempty Hrun.
  apply fetch_and_store_returns in Hrun.
  destruct Hrun as (body' & data' & prs & t & Hu & Hd & Hb & Hs & ->).
  assert (body' = body) by congruence. subst body'.
  assert (data' = JArray data) by congruence. subst data'.
  destruct (import_rows res data (conn w) t prs Hb Hs) as (rs & HF & ->).
  cbn [conn].
  assert (Hsel : select_resource res (fold_left upsert rs (conn w))
                 = fold_left upsert rs []).
  { apply select_after_import; auto. intros x Hx.
    destruct (Forall2_in_r _ _ _ _ HF Hx) as (obj & _ & H).
    now apply row_for_resource in H. }
  rewrite Hsel. split; [|split; [|split]].
  - apply (stored_from_last res data rs HF Hint).
  - intros obj z r Hrow Hid. exact (row_for_int_id res obj z r Hrow Hid).
  - apply stored_unique.
  - intros ids Hnd Hids. apply (stored_count res data rs HF Hint ids Hnd Hids).
Qed.

Lemma int_ids_sample : Forall is_int_id [obj_1; obj_2; obj_1_again].
Proof.
  repeat constructor; [exists 1%Z | exists 2%Z | exists 1%Z]; reflexivity.
Qed.

(** ** What a run deletes (C2) *)

Lemma upsert_keeps_or_replaces t new old :
  In old t ->
  In old (upsert t new) \/ (key_of new = key_of old /\ In new (upsert t new)).
Proof.
  intros Hin. destruct (same_key old new) eqn:Hk.
  - right. apply same_key_eq in Hk. split; [congruence|].
    apply in_upsert. now right.
  - left. apply in_upsert. left. split; auto. now apply same_key_neq.
Qed.

Lemma keys_stay_fetch E res : respects keys_stay (fetch_and_store E res).
Proof.
  intros w w' r Hrun old Hold.
  destruct (fetch_and_store_frame E res w w' r Hrun)
    as (_ & _ & _ & _ & done & Hc).
  rewrite Hc. apply key_kept. left. eauto.
Qed.

Lemma import_loop_keys_stay E l :
  respects keys_stay (for_each l (fetch_and_store E)).
Proof.
  apply respects_for_each.
  - intros w old Hold. eauto.
  - intros a b c Hab Hbc old Hold.
    destruct (Hab old Hold) as (x & Hx & Hkx).
    destruct (Hbc x Hx) as (y & Hy & Hky). exists y. split; congruence.
  - intros res _. apply keys_stay_fetch.
Qed.

Lemma export_phase_commits E w w' r :
  export_phase E w = (w', r) -> db_file w' = conn w /\ conn w' = conn w.
Proof.
  intros Hrun.
  assert (Hc : export_phase E w
               = export_phase E (mkWorld (conn w) (conn w) (files w)
                                   (stdout w) (stderr w) (requests w)))
    by reflexivity.
  rewrite Hc in Hrun.
  assert (HR : table_untouched
                 (mkWorld (conn w) (conn w) (files w) (stdout w) (stderr w)
                    (requests w)) w').
  { refine (respects_export table_untouched _ _ _ _ _ E _ w' r Hrun);
      clear; unfold table_untouched; simpl; auto.
    intros a b c [H1 H2] [H3 H4]. split; [congruence|].
    intros H. rewrite H4; [auto|]. rewrite H2, H1; auto. }
  destruct HR as [H1 H2]. simpl in *. split; auto.
Qed.

(** C2, as amended.  A run first drops and creates the table, so no row
    of the store file survives from before the run.  After that the
    import deletes a row only by replacing it: a row stays unless the
    new row has its key, and every key stored stays stored through the
    rest of the import loop, however the loop ends.  The export commits
    the imported rows and changes none: writing a chunk file leaves the
    committed table and the table of the connection as they are, and
    the DELETE statement exists only as text, the head of the chunk
    file. *)
Theorem import_only_replaces E :
  (forall w w', connect_and_create E w = (w', Returned tt) ->
                db_file w' = [] /\ conn w' = [])
  /\ (forall pr t t' old,
        execute_insert pr t = Returned t' -> In old t ->
        In old t'
        \/ exists new, stored_row pr = Returned new
                       /\ key_of new = key_of old /\ In new t')
  /\ (forall l w w' r old,
        for_each l (fetch_and_store E) w = (w', r) -> In old (conn w) ->
        exists cur, In cur (conn w') /\ key_of cur = key_of old)
  /\ (forall w w' r, export_phase E w = (w', r) ->
                     db_file w' = conn w /\ conn w' = conn w)
  /\ (forall res w w' r,
        export_chunk E res w = (w', r) ->
        db_file w' = db_file w /\ conn w' = conn w
        /\ (r = Returned tt ->
            exists selected,
              lookup_file (d1_path (res ++ str ".sql")) (files w')
              = Some (delete_stmt res
                      ++ concat (map (insert_stmt res) selected)))).
Proof.
  split; [|split; [|split; [|split]]].
  - intros w w'. unfold connect_and_create.
    destruct (writable E DB_PATH); [|discriminate].
    intros [= <-]. auto.
  - intros pr t t' old Hex Hold.
    destruct (execute_insert_replaces pr t t' Hex) as (new & Hs & -> & _).
    destruct (upsert_keeps_or_replaces t new old Hold) as [H | [H1 H2]];
      [left | right; exists new]; auto.
  - intros l w w' r old Hrun. exact (import_loop_keys_stay E l w w' r Hrun old).
  - apply export_phase_commits.
  - intros res w w' r. unfold export_chunk, bind, write_file, print.
    destruct (writable E (d1_path (res ++ str ".sql")));
      intros [= <- <-]; cbn [db_file conn files lookup_file];
      (split; [reflexivity|]); (split; [reflexivity|]);
      [|discriminate].
    intros _. rewrite pystr_eqb_refl. eexists. reflexivity.
Qed.

(** ** The filtered dump (C5) *)

Lemma split_lines_no_lf l :
  l <> [] -> ~ In LF l -> split_lines l = [l].
Proof.
  induction l as [|c l IH]; [congruence|]. intros _ Hn. simpl.
  destruct (N.eqb_spec c LF) as [->|Hc]; [exfalso; apply Hn; now left|].
  destruct l as [|d l]; [reflexivity|].
  rewrite IH; [reflexivity | discriminate |].
  intros H. apply Hn. now right.
Qed.

Lemma split_lines_line b rest :
  ~ In LF b ->
  split_lines (b ++ LF :: rest) = (b ++ [LF]) :: split_lines rest.
Proof.
  induction b as [|c b IH]; intros Hn; simpl.
  - reflexivity.
  - destruct (N.eqb_spec c LF) as [->|Hc]; [exfalso; apply Hn; now left|].
    rewrite IH; [reflexivity|]. intros H. apply Hn. now right.
Qed.

Lemma split_lines_proper s : proper_lines (split_lines s).
Proof.
  induction s as [|c s IH]; simpl; [constructor|].
  destruct (N.eqb_spec c LF) as [->|Hc].
  - apply (proper_cons [] _); auto.
  - inversion IH as [Hnil | l Hl Hn Hlast | b ls Hn Hls Hcons].
    + apply proper_last; [discriminate|]. intros [H|[]]. congruence.
    + apply proper_last; [discriminate|]. intros [H|H]; [congruence|auto].
    + apply (proper_cons (c :: b) ls); auto.
      intros [H|H]; [congruence|auto].
Qed.

Lemma split_lines_concat ls :
  proper_lines ls -> split_lines (concat ls) = ls.
Proof.
  induction 1 as [|l Hl Hn|b ls Hn Hls IH]; simpl.
  - reflexivity.
  - rewrite List.app_nil_r. now apply split_lines_no_lf.
  - rewrite <- List.app_assoc. simpl. rewrite split_lines_line, IH; auto.
Qed.

Lemma proper_lines_filter f ls :
  proper_lines ls -> proper_lines (filter f ls).
Proof.
  induction 1 as [|l Hl Hn|b ls Hn Hls IH]; simpl.
  - constructor.
  - destruct (f l); constructor; auto.
  - destruct (f (b ++ [LF])); [constructor|]; auto.
Qed.

Lemma universal_newlines_no_cr s : ~ In CR (universal_newlines s).
Proof.
  assert (H : forall n s, (length s <= n)%nat -> ~ In CR (universal_newlines s)).
  { clear s. induction n as [|n IH]; intros [|c s] Hlen; simpl in *;
      try tauto; try lia.
    destruct (N.eqb_spec c CR) as [->|Hc].
    - destruct s as [|d s]; [intros [H|[]]; discriminate|].
      destruct (d =? LF); intros [H|H]; try discriminate;
        revert H; apply IH; simpl in *; lia.
    - intros [H|H]; [congruence|]. revert H. apply IH. lia. }
  apply (H (length s) s). lia.
Qed.

Lemma universal_newlines_id s : ~ In CR s -> universal_newlines s = s.
Proof.
  induction s as [|c s IH]; simpl; intros Hn; [reflexivity|].
  destruct (N.eqb_spec c CR) as [->|Hc]; [exfalso; apply Hn; now left|].
  rewrite IH; auto.
Qed.

Lemma in_split_lines s l c : In l (split_lines s) -> In c l -> In c s.
Proof.
  revert l. induction s as [|d s IH]; simpl; intros l; [tauto|].
  destruct (d =? LF).
  - intros [<- | Hl] Hc.
    + destruct Hc as [Hc|[]]. now left.
    + right. eapply IH; eauto.
  - destruct (split_lines s) as [|l0 ls].
    + intros [<- | []] Hc. destruct Hc as [Hc|[]]. now left.
    + intros [<- | Hl] Hc.
      * destruct Hc as [Hc|Hc]; [now left|]. right. apply (IH l0); simpl; auto.
      * right. apply (IH l); simpl; auto.
Qed.

Lemma in_concat_filter (f : pystr -> bool) ls c :
  In c (concat (filter f ls)) -> exists l, In l ls /\ In c l.
Proof.
  rewrite in_concat. intros (l & Hl & Hc). apply filter_In in Hl.
  exists l. tauto.
Qed.

(** Reading the filtered file yields the kept lines of the full dump. *)
Lemma text_lines_filter_dump content :
  text_lines (filter_dump content) = filter keep_line (text_lines content).
Proof.
  unfold text_lines, filter_dump.
  rewrite universal_newlines_id.
  - apply split_lines_concat, proper_lines_filter, split_lines_proper.
  - intros H. apply in_concat_filter in H. destruct H as (l & Hl & Hc).
    apply (universal_newlines_no_cr content).
    apply (in_split_lines _ l); auto.
Qed.

Lemma keep_line_false line :
  keep_line line = false <->
  strip line = []
  \/ exists p, In p skip_prefixes /\ startswith (strip line) p = true.
Proof.
  unfold keep_line, startswith_any.
  rewrite negb_false_iff, orb_true_iff, existsb_exists.
  destruct (strip line); simpl; intuition discriminate.
Qed.

Lemma keep_line_true line :
  keep_line line = true <->
  strip line <> []
  /\ startswith (strip line) (str "BEGIN TRANSACTION") = false
  /\ startswith (strip line) (str "COMMIT") = false
  /\ startswith (strip line) (str "PRAGMA") = false.
Proof.
  unfold keep_line, startswith_any, skip_prefixes.
  rewrite negb_true_iff, orb_false_iff. cbn [existsb].
  rewrite !orb_false_iff.
  destruct (strip line); simpl; intuition congruence.
Qed.

Lemma startswith_first s p c :
  startswith s (c :: p) = true -> exists s', s = c :: s' /\ startswith s' p = true.
Proof.
  destruct s as [|d s]; simpl; [discriminate|].
  intros H. apply andb_true_iff in H. destruct H as [H1 H2].
  apply N.eqb_eq in H1. subst d. eauto.
Qed.

Lemma insert_create_kept line :
  startswith (strip line) (str "INSERT") = true
  \/ startswith (strip line) (str "CREATE") = true ->
  keep_line line = true.
Proof.
  intros H. apply keep_line_true.
  destruct H as [H|H].
  - apply startswith_first in H. destruct H as (s' & -> & _).
    split; [discriminate|]. auto.
  - apply startswith_first in H. destruct H as (s1 & -> & H).
    apply startswith_first in H. destruct H as (s2 & -> & _).
    split; [discriminate|]. auto.
Qed.

Lemma concat_split_lines s : concat (split_lines s) = s.
Proof.
  induction s as [|c s IH]; [reflexivity|]. cbn [split_lines].
  destruct (c =? LF); [cbn [concat app]; now rewrite IH|].
  destruct (split_lines s) as [|l ls]; cbn [concat app] in *;
    now rewrite <- IH.
Qed.

(** C5, as amended.  For a full dump that holds no carriage return,
    the lines being the pieces of the file each ended by its line feed
    (the last may have none): the filtered dump is made of the lines
    of the full dump, unchanged and in order, without those that are
    blank or whose stripped form starts with BEGIN TRANSACTION, COMMIT
    or PRAGMA; no other line is dropped, and in particular every
    INSERT and CREATE line is there. *)
Theorem filtered_dump_lines content :
  ~ In CR content ->
  concat (split_lines content) = content
  /\ filter_dump content = concat (filter keep_line (split_lines content))
  /\ split_lines (filter_dump content)
     = filter keep_line (split_lines content)
  /\ (forall line, keep_line line = false <->
        strip line = []
        \/ exists p, In p skip_prefixes /\ startswith (strip line) p = true)
  /\ (forall line, In line (split_lines (filter_dump content)) ->
        In line (split_lines content)
        /\ strip line <> []
        /\ startswith (strip line) (str "BEGIN TRANSACTION") = false
        /\ startswith (strip line) (str "COMMIT") = false
        /\ startswith (strip line) (str "PRAGMA") = false)
  /\ (forall line, In line (split_lines content) ->
        startswith (strip line) (str "INSERT") = true
        \/ startswith (strip line) (str "CREATE") = true ->
        In line (split_lines (filter_dump content))).
Proof.
  intros Hcr.
  assert (Hread : text_lines content = split_lines content)
    by (unfold text_lines; now rewrite universal_newlines_id).
  assert (Hout : split_lines (filter_dump content)
                 = filter keep_line (split_lines content)).
  { rewrite <- Hread, <- text_lines_filter_dump. unfold text_lines.
    rewrite universal_newlines_id; [reflexivity|].
    intros H. apply in_concat_filter in H. destruct H as (l & Hl & Hc).
    apply (universal_newlines_no_cr content).
    apply (in_split_lines _ l); auto. }
  split; [apply concat_split_lines|].
  split; [unfold filter_dump; now rewrite Hread|].
  split; [exact Hout|]. rewrite Hout.
  split; [apply keep_line_false|]. split.
  - intros line Hin. apply filter_In in Hin. destruct Hin as [Hin Hk].
    split; auto. now apply keep_line_true.
  - intros line Hin H. apply filter_In. split; auto.
    now apply insert_create_kept.
Qed.

(** ** Reading SQL literals back *)

Lemma expect_app p s : expect p (p ++ s) = Some s.
Proof.
  induction p as [|a p IH]; simpl; [destruct s; reflexivity|].
  now rewrite N.eqb_refl.
Qed.

Lemma nul_free_app a b : nul_free (a ++ b) = nul_free a && nul_free b.
Proof. apply forallb_app. Qed.

Lemma nul_free_cons c s :
  nul_free (c :: s) = true -> (c =? 0) = false /\ nul_free s = true.
Proof.
  unfold nul_free. cbn [forallb]. intros H.
  apply andb_true_iff in H. destruct H as [H1 H2].
  now apply negb_true_iff in H1.
Qed.

Lemma nul_free_sql_escape s : nul_free (sql_escape s) = nul_free s.
Proof.
  unfold sql_escape. induction s as [|c s IH]; [reflexivity|].
  cbn [replace_char]. rewrite nul_free_app, IH.
  destruct (N.eqb_spec c QUOTE) as [->|Hc]; [reflexivity|].
  unfold nul_free. cbn [forallb]. now rewrite andb_true_r.
Qed.

Lemma nul_free_digits u : nul_free (digits u) = true.
Proof. induction u; cbn [digits]; auto. Qed.

Lemma nul_free_str_of_Z z : nul_free (str_of_Z z) = true.
Proof.
  destruct z as [|p|p]; unfold str_of_Z, str_of_N;
    [apply nul_free_digits | apply nul_free_digits |].
  change (nul_free ([MINUS] ++ digits (N.to_uint (N.pos p))) = true).
  now rewrite nul_free_app, nul_free_digits.
Qed.

(** An escaped text without the character of code 0, closed by a
    quote, reads back as the text. *)
Lemma lex_string_escape v rest :
  nul_free v = true -> not_quote_head rest ->
  lex_string (sql_escape v ++ QUOTE :: rest) = Some (v, rest).
Proof.
  intros Hv Hrest. unfold sql_escape.
  induction v as [|c v IH]; cbn [replace_char app].
  - cbn [lex_string]. change (QUOTE =? 0) with false. cbv iota.
    rewrite N.eqb_refl.
    destruct rest as [|d rest]; [reflexivity|]. simpl in Hrest.
    destruct (N.eqb_spec d QUOTE); [contradiction | reflexivity].
  - apply nul_free_cons in Hv. destruct Hv as [Hc0 Hv].
    specialize (IH Hv).
    destruct (N.eqb_spec c QUOTE) as [->|Hc].
    + cbn [app lex_string]. change (QUOTE =? 0) with false. cbv iota.
      rewrite !N.eqb_refl, IH. reflexivity.
    + cbn [app lex_string]. rewrite Hc0.
      destruct (N.eqb_spec c QUOTE); [contradiction|]. now rewrite IH.
Qed.

Lemma lex_uint_digits u rest :
  not_digit_head rest -> lex_uint (digits u ++ rest) = (u, rest).
Proof.
  intros Hrest.
  induction u; cbn [digits app lex_uint];
    try (change (digit_ctor (digit_of _)) with (@None (Decimal.uint -> Decimal.uint)));
    try (rewrite IHu; reflexivity).
  destruct rest as [|c rest]; [reflexivity|]. simpl in Hrest.
  cbn [lex_uint]. now rewrite Hrest.
Qed.


Lemma canonical_true u : canonical u = true <-> Decimal.unorm u = u.
Proof.
  unfold canonical. destruct (Decimal.uint_eq_dec (Decimal.unorm u) u);
    split; congruence.
Qed.

Lemma to_uint_canonical n : canonical (N.to_uint n) = true.
Proof.
  apply canonical_true.
  rewrite <- (DecimalN.Unsigned.to_of (N.to_uint n)).
  now rewrite DecimalN.Unsigned.of_to.
Qed.

Lemma digits_of_canonical u :
  canonical u = true -> str_of_N (N.of_uint u) = digits u.
Proof.
  intros H. apply canonical_true in H. unfold str_of_N.
  now rewrite DecimalN.Unsigned.to_of, H.
Qed.

Lemma str_of_Z_of_N n : str_of_Z (Z.of_N n) = str_of_N n.
Proof. destruct n; reflexivity. Qed.

Lemma digits_head u :
  match digits u with
  | c :: _ => (c =? MINUS) = false
  | [] => u = Decimal.Nil
  end.
Proof. destruct u; reflexivity. Qed.

Lemma lex_int_str_of_Z z rest :
  int64 z = true -> not_digit_head rest ->
  lex_int (str_of_Z z ++ rest) = Some (z, rest).
Proof.
  intros Hz Hrest.
  assert (Hpos : forall n, int64 (Z.of_N n) = true ->
                 lex_int (str_of_N n ++ rest) = Some (Z.of_N n, rest)).
  { intros n Hn. unfold str_of_N.
    pose proof (digits_head (N.to_uint n)) as Hh.
    pose proof (lex_uint_digits (N.to_uint n) rest Hrest) as Hl.
    destruct (digits (N.to_uint n)) as [|c ds] eqn:Hd.
    - pose proof (to_uint_canonical n) as Hc. rewrite Hh in Hc. discriminate.
    - cbn [app lex_int]. rewrite Hh. cbn [app] in Hl. rewrite Hl.
      rewrite to_uint_canonical, DecimalN.Unsigned.of_to, Hn. reflexivity. }
  destruct z as [|p|p].
  - apply (Hpos 0%N Hz).
  - apply (Hpos (Npos p) Hz).
  - cbn [str_of_Z app lex_int]. rewrite N.eqb_refl. unfold str_of_N.
    rewrite (lex_uint_digits _ rest Hrest).
    rewrite to_uint_canonical, DecimalN.Unsigned.of_to.
    change (- Z.of_N (N.pos p))%Z with (Z.neg p). rewrite Hz. reflexivity.
Qed.

(** ** Statements *)

Lemma canonical_insert_unfold r :
  canonical_insert r =
  INSERT_HEAD ++ sql_escape (resource r) ++ QUOTE :: str ","
    ++ format_key (obj_id r) ++ str ",'" ++ sql_escape (updated r)
    ++ QUOTE :: str ",'" ++ sql_escape (payload r)
    ++ QUOTE :: str ");" ++ [LF].
Proof. reflexivity. Qed.

Lemma parse_insert_canonical res z u p rest :
  int64 z = true ->
  nul_free res = true -> nul_free u = true -> nul_free p = true ->
  parse_insert (canonical_insert (mkRow res (KInt z) u p) ++ rest)
  = Some (Insert (mkRow res (KInt z) u p), rest).
Proof.
  intros Hz Hres Hu Hp. rewrite canonical_insert_unfold.
  cbn [resource obj_id updated payload format_key].
  unfold parse_insert.
  repeat rewrite <- List.app_assoc. rewrite expect_app. cbn [optbind].
  rewrite <- List.app_comm_cons.
  rewrite lex_string_escape by (auto; simpl; discriminate). cbn [optbind].
  repeat rewrite <- List.app_assoc. rewrite expect_app. cbn [optbind].
  rewrite lex_int_str_of_Z by (auto; reflexivity). cbn [optbind].
  repeat rewrite <- List.app_assoc. rewrite expect_app. cbn [optbind].
  rewrite <- List.app_comm_cons.
  rewrite lex_string_escape by (auto; simpl; discriminate). cbn [optbind].
  repeat rewrite <- List.app_assoc. rewrite expect_app. cbn [optbind].
  rewrite <- List.app_comm_cons.
  rewrite lex_string_escape by (auto; simpl; discriminate). cbn [optbind].
  repeat rewrite <- List.app_assoc. rewrite expect_app. reflexivity.
Qed.

Lemma parse_delete_canonical res rest :
  nul_free res = true ->
  parse_delete (canonical_stmt (Delete res) ++ rest) = Some (Delete res, rest).
Proof.
  intros Hres. cbn [canonical_stmt]. unfold parse_delete.
  change (str "';" ++ [LF]) with (QUOTE :: str ";" ++ [LF]).
  repeat rewrite <- List.app_assoc. rewrite expect_app. cbn [optbind].
  rewrite <- List.app_comm_cons.
  rewrite lex_string_escape by (auto; simpl; discriminate). cbn [optbind].
  rewrite <- ?List.app_assoc. rewrite expect_app. reflexivity.
Qed.
Lemma parse_stmt_canonical st rest :
  readable st -> parse_stmt (canonical_stmt st ++ rest) = Some (st, rest).
Proof.
  destruct st as [res | [res k u p]]; intros Hst; unfold parse_stmt.
  - now rewrite parse_delete_canonical.
  - destruct Hst as ((z & Hk & Hz) & Hres & Hu & Hp).
    cbn [obj_id resource updated payload] in *. subst k.
    replace (parse_delete (canonical_stmt (Insert (mkRow res (KInt z) u p)) ++ rest))
      with (@None (stmt * pystr)) by reflexivity.
    now apply parse_insert_canonical.
Qed.

Lemma canonical_stmt_nonempty st : (1 <= length (canonical_stmt st))%nat.
Proof.
  destruct st; cbn [canonical_stmt]; [unfold DELETE_HEAD|
    unfold canonical_insert, INSERT_HEAD]; rewrite length_app; simpl; lia.
Qed.

Lemma parse_script_canonical sts : forall fuel,
  Forall readable sts ->
  (length (concat (map canonical_stmt sts)) <= fuel)%nat ->
  parse_script fuel (concat (map canonical_stmt sts)) = Some sts.
Proof.
  induction sts as [|st sts IH]; intros fuel Hr Hlen.
  - destruct fuel; reflexivity.
  - inversion Hr as [|? ? Hst Hrest]; subst. cbn [map concat] in *.
    pose proof (canonical_stmt_nonempty st) as Hne.
    rewrite length_app in Hlen.
    destruct (canonical_stmt st ++ concat (map canonical_stmt sts))
      as [|c s] eqn:Htext.
    { apply (f_equal (@length N)) in Htext. rewrite length_app in Htext.
      simpl in Htext. lia. }
    destruct fuel as [|fuel]; [lia|]. cbn [parse_script].
    rewrite <- Htext, parse_stmt_canonical by assumption. cbn [optbind].
    rewrite IH; [reflexivity | assumption | lia].
Qed.

(** ** Chunk files: layout (C6) and round trip (C3) *)

Lemma sql_escape_id s : ~ In QUOTE s -> sql_escape s = s.
Proof.
  unfold sql_escape. induction s as [|c s IH]; simpl; intros Hn; auto.
  destruct (N.eqb_spec c QUOTE) as [->|Hc]; [exfalso; apply Hn; now left|].
  simpl. rewrite IH; auto.
Qed.

Lemma sql_escape_flat_map s :
  sql_escape s = flat_map (fun c => if c =? QUOTE then [QUOTE; QUOTE] else [c]) s.
Proof. unfold sql_escape. induction s; simpl; congruence. Qed.

(** The statement the script writes is the canonical one when the
    resource and [updated] have no quote. *)
Lemma insert_stmt_canonical res r :
  resource r = res -> ~ In QUOTE res -> ~ In QUOTE (updated r) ->
  insert_stmt res r = canonical_insert r.
Proof.
  intros Hres Hq Hu. unfold insert_stmt, canonical_insert, sql_escape.
  fold (sql_escape (payload r)). fold (sql_escape (resource r)).
  fold (sql_escape (updated r)).
  rewrite Hres, (sql_escape_id res), (sql_escape_id (updated r)); auto.
Qed.

Lemma delete_stmt_canonical res :
  ~ In QUOTE res -> delete_stmt res = canonical_stmt (Delete res).
Proof.
  intros Hq. unfold delete_stmt. cbn [canonical_stmt].
  rewrite sql_escape_id; auto.
Qed.

Lemma fold_upsert_fresh l : forall t,
  unique_keys (t ++ l) -> fold_left upsert l t = t ++ l.
Proof.
  induction l as [|a l IH]; intros t Hu; simpl.
  - now rewrite List.app_nil_r.
  - assert (Hup : upsert t a = t ++ [a]).
    { unfold upsert. f_equal.
      unfold unique_keys in Hu. rewrite map_app in Hu. simpl in Hu.
      apply NoDup_remove_2 in Hu.
      clear IH. induction t as [|b t IHt]; simpl; auto.
      destruct (same_key b a) eqn:Hk.
      - exfalso. apply Hu. simpl. left. apply same_key_eq in Hk. auto.
      - simpl. f_equal. apply IHt. intros H. apply Hu. simpl. now right. }
    rewrite Hup, IH; rewrite <- List.app_assoc; auto.
Qed.

Lemma fold_exec_inserts rows t :
  fold_left exec_stmt (map Insert rows) t = fold_left upsert rows t.
Proof. revert t. induction rows; simpl; auto. Qed.

Lemma chunk_text_canonical res rows :
  ~ In QUOTE res ->
  (forall r, In r rows -> resource r = res /\ ~ In QUOTE (updated r)) ->
  chunk_text res rows
  = concat (map canonical_stmt (Delete res :: map Insert rows)).
Proof.
  intros Hq Hrows. unfold chunk_text. cbn [map concat].
  rewrite delete_stmt_canonical by assumption. f_equal.
  rewrite map_map. f_equal. apply map_ext_in. intros r Hr.
  destruct (Hrows r Hr). now apply insert_stmt_canonical.
Qed.

Lemma nul_free_canonical_stmt st :
  readable st -> nul_free (canonical_stmt st) = true.
Proof.
  destruct st as [res | r]; cbn [readable canonical_stmt].
  - intros Hres. unfold DELETE_HEAD.
    rewrite !nul_free_app, nul_free_sql_escape, Hres. reflexivity.
  - intros ((z & Hk & _) & Hres & Hu & Hp). unfold canonical_insert, INSERT_HEAD.
    rewrite Hk. cbn [format_key].
    rewrite !nul_free_app, !nul_free_sql_escape, nul_free_str_of_Z,
      Hres, Hu, Hp.
    reflexivity.
Qed.

Lemma nul_free_canonical sts :
  Forall readable sts -> nul_free (concat (map canonical_stmt sts)) = true.
Proof.
  induction 1 as [|st sts Hst _ IH]; [reflexivity|]. cbn [map concat].
  now rewrite nul_free_app, nul_free_canonical_stmt, IH.
Qed.

(** Replaying the chunk of rows with unique keys, 64-bit integer ids,
    no quote in [updated] and no character of code 0 gives back the
    rows. *)
Lemma replay_chunk res rows :
  ~ In QUOTE res -> nul_free res = true -> unique_keys rows ->
  (forall r, In r rows ->
     resource r = res /\ int_key r /\ ~ In QUOTE (updated r)
     /\ nul_free (updated r) = true /\ nul_free (payload r) = true) ->
  replay (chunk_text res rows) [] = Some rows.
Proof.
  intros Hq Hn Hu Hrows. unfold replay.
  rewrite chunk_text_canonical; auto; [|intros r Hr; destruct (Hrows r Hr); tauto].
  assert (Hread : Forall readable (Delete res :: map Insert rows)).
  { constructor; [exact Hn|]. apply Forall_forall. intros st Hst.
    apply in_map_iff in Hst. destruct Hst as (r & <- & Hr).
    destruct (Hrows r Hr) as (Hres & Hk & _ & Hnu & Hnp).
    cbn [readable]. rewrite Hres. auto. }
  rewrite nul_free_canonical by exact Hread.
  rewrite parse_script_canonical; auto.
  cbn [option_map fold_left exec_stmt filter].
  rewrite fold_exec_inserts, fold_upsert_fresh; auto.
Qed.

Lemma unique_keys_perm a b :
  Permutation a b -> unique_keys a -> unique_keys b.
Proof.
  unfold unique_keys. intros Hp. apply Permutation_NoDup.
  now apply Permutation_map.
Qed.

(** C3, as amended.  For a resource name without a quote, when the
    stored rows of the resource have 64-bit integer ids, no single
    quote in [updated] and no character of code 0 in [updated] and in
    the payload, replaying the chunk file against the empty table
    gives exactly the rows the SELECT yielded: the stored rows of the
    resource. *)
Theorem chunk_roundtrip E res t :
  order_only E -> ~ In QUOTE res -> nul_free res = true -> unique_keys t ->
  (forall r, In r t -> resource r = res ->
             int_key r /\ ~ In QUOTE (updated r)
             /\ nul_free (updated r) = true /\ nul_free (payload r) = true) ->
  replay (chunk_text res (select_order E (select_resource res t))) []
  = Some (select_order E (select_resource res t))
  /\ Permutation (select_order E (select_resource res t))
                 (select_resource res t).
Proof.
  intros Hord Hq Hn Hu Hrows. split; [|apply Hord].
  apply replay_chunk; auto.
  - apply (unique_keys_perm (select_resource res t)).
    + apply Permutation_sym, Hord.
    + now apply unique_keys_filter.
  - intros r Hr.
    apply (Permutation_in _ (Hord (select_resource res t))) in Hr.
    apply filter_In in Hr. destruct Hr as [Hin Hres].
    apply pystr_eqb_eq in Hres. destruct (Hrows r Hin Hres). auto.
Qed.
Lemma net_no_quote : ~ In QUOTE net.
Proof. vm_compute. intuition discriminate. Qed.

Lemma sample_table_unique : unique_keys sample_table.
Proof.
  unfold unique_keys, sample_table. cbn [map key_of resource obj_id class_of].
  repeat constructor; simpl; intuition discriminate.
Qed.

Lemma sample_table_rows r :
  In r sample_table -> resource r = net ->
  int_key r /\ ~ In QUOTE (updated r)
  /\ nul_free (updated r) = true /\ nul_free (payload r) = true.
Proof.
  intros [<- | [<- | []]] _;
    (split; [|split; [simpl; tauto | split; vm_compute; reflexivity]]);
    [exists 2%Z | exists 1%Z]; split; reflexivity.
Qed.

Lemma serve_order_only res data : order_only (serve res data).
Proof. intros l. apply Permutation_refl. Qed.

(** C6. The chunk file of a resource is the line
    [DELETE FROM objects WHERE resource = '<res>';] followed by one
    INSERT OR REPLACE statement per stored row of the resource, in the
    order the SELECT yields them: the rows written are those rows of
    the committed table whose resource is the resource of the file, and
    no other; in each statement the resource, the id and [updated] are
    written as they are and every single quote of the payload is
    doubled, nothing else being changed. *)
Theorem chunk_file_layout E res w w' :
  order_only E ->
  export_chunk E res w = (w', Returned tt) ->
  (exists selected,
     Permutation selected (select_resource res (db_file w))
     /\ (forall r, In r selected <-> In r (db_file w) /\ resource r = res)
     /\ (unique_keys (db_file w) -> NoDup selected)
     /\ lookup_file (d1_path (res ++ str ".sql")) (files w')
        = Some
            ((str "DELETE FROM objects WHERE resource = '" ++ res
                ++ str "';" ++ [LF])
             ++ concat
                  (map (fun r =>
                          str "INSERT OR REPLACE INTO objects (resource,obj_id,updated,payload) VALUES ('"
                            ++ res ++ str "'," ++ format_key (obj_id r)
                            ++ str ",'" ++ updated r ++ str "','"
                            ++ flat_map (fun c => if c =? QUOTE
                                                  then [QUOTE; QUOTE]
                                                  else [c]) (payload r)
                            ++ str "');" ++ [LF])
                       selected)))
  /\ db_file w' = db_file w
  /\ replace_char QUOTE [QUOTE; QUOTE] (str "O'Brien") = str "O''Brien".
Proof.
  intros Hord. unfold export_chunk, bind, write_file.
  destruct (writable E (d1_path (res ++ str ".sql"))); [|discriminate].
  unfold print. intros [= <-]. cbn [files db_file lookup_file].
  rewrite pystr_eqb_refl. split; [|split; reflexivity].
  exists (select_order E (select_resource res (db_file w))).
  split; [apply Hord|]. split; [|split].
  - intros r. split.
    + intros Hr. apply (Permutation_in _ (Hord _)) in Hr.
      apply filter_In in Hr. destruct Hr as [Hin Hres].
      now apply pystr_eqb_eq in Hres.
    + intros [Hin Hres].
      apply (Permutation_in _ (Permutation_sym (Hord _))).
      apply filter_In. split; [exact Hin | now apply pystr_eqb_eq].
  - intros Hu.
    apply (Permutation_NoDup (Permutation_sym (Hord _))).
    apply (NoDup_map_inv key_of). now apply unique_keys_filter.
  - f_equal. unfold chunk_text, delete_stmt. f_equal.
    f_equal. apply map_ext. intros r. unfold insert_stmt, INSERT_HEAD.
    fold (sql_escape (payload r)). now rewrite sql_escape_flat_map.
Qed.

(** ** [updated] is written unescaped (C10) *)








(** ** The payload is ASCII *)









Lemma forallb_weaken {A} (p q : A -> bool) l :
  (forall x, p x = true -> q x = true) ->
  forallb p l = true -> forallb q l = true.
Proof.
  intros Hpq. rewrite !forallb_forall. intros H x Hx. apply Hpq, H, Hx.
Qed.

(** The characters of a number are printable ASCII characters, and
    neither a quote nor the character of code 0. *)
Lemma real_char_range c : real_char c = true -> 43 <= c /\ c <= 122.
Proof.
  unfold real_char, numeric_char, is_digit. intros H.
  repeat (apply orb_true_iff in H; destruct H as [H | H]);
    try (apply N.eqb_eq in H; subst c; lia);
    apply andb_true_iff in H; destruct H as [H1 H2];
    apply N.leb_le in H1, H2; lia.
Qed.

Lemma numeric_char_real c : numeric_char c = true -> real_char c = true.
Proof. unfold real_char. now intros ->. Qed.

Lemma float_json_chars f : forallb real_char (float_json f) = true.
Proof.
  destruct f as [s | [|] | | s m e]; cbn [float_json]; try reflexivity;
    apply (forallb_weaken numeric_char); auto using numeric_char_real;
    apply float_repr_chars.
Qed.

Lemma float_str_chars f : forallb real_char (float_str f) = true.
Proof.
  destruct f as [s | [|] | | s m e]; cbn [float_str]; try reflexivity;
    apply (forallb_weaken numeric_char); auto using numeric_char_real;
    apply float_repr_chars.
Qed.





(** ** An element without an id (C9) *)









(** The import of one resource writes no file, adds nothing to the
    standard output and at most its progress line to the error stream. *)
Lemma fetch_and_store_output E res w w' r :
  fetch_and_store E res w = (w', r) -> output_grows w w'.
Proof.
  intros Hrun.
  destruct (fetch_and_store_frame E res w w' r Hrun) as (_ & Hf & Ho & _).
  split; [exists []; now rewrite Hf|]. split.
  - exists []. now rewrite Ho, List.app_nil_r.
  - destruct r as [[]|e].
    + apply fetch_and_store_returns in Hrun.
      destruct Hrun as (b & d & rows & t & _ & _ & _ & _ & ->). simpl. eauto.
    + revert Hrun. unfold fetch_and_store, bind, http_get_json, lift.
      destruct (urlopen E (resource_url res)) as [| |body];
        try (intros [= <- _]; exists []; simpl; now rewrite List.app_nil_r).
      destruct (subscript_data body) as [data|];
        [|intros [= <- _]; exists []; simpl; now rewrite List.app_nil_r].
      destruct (build_rows res data) as [rows|];
        [|intros [= <- _]; exists []; simpl; now rewrite List.app_nil_r].
      destruct (store_rows rows (conn w)) as [t|e'] eqn:Hs.
      * rewrite (executemany_returns rows
               (mkWorld (db_file w) (conn w) (files w) (stdout w)
                  (stderr w) (requests w ++ [resource_url res])) t Hs).
        discriminate.
      * destruct (executemany_raises rows
                (mkWorld (db_file w) (conn w) (files w) (stdout w)
                   (stderr w) (requests w ++ [resource_url res])) e' Hs)
          as (w1 & Hrun & (_ & _ & _ & He & _) & _).
        rewrite Hrun. intros [= <- _]. exists []. simpl in He.
        now rewrite He, List.app_nil_r.
Qed.

(** ** Failures (C8) *)

Lemma output_grows_refl w : output_grows w w.
Proof.
  split; [now exists []|]. split; exists []; now rewrite List.app_nil_r.
Qed.

Lemma output_grows_trans a b c :
  output_grows a b -> output_grows b c -> output_grows a c.
Proof.
  intros ([f1 F1] & [o1 O1] & [e1 E1]) ([f2 F2] & [o2 O2] & [e2 E2]).
  split; [|split].
  - exists (f2 ++ f1). now rewrite F2, F1, List.app_assoc.
  - exists (o1 ++ o2). now rewrite O2, O1, List.app_assoc.
  - exists (e1 ++ e2). now rewrite E2, E1, List.app_assoc.
Qed.

Lemma output_grows_main E : respects output_grows (main E).
Proof.
  apply respects_main.
  - apply output_grows_refl.
  - apply output_grows_trans.
  - intros w line. split; [now exists []|]. split; simpl.
    + now exists [line].
    + exists []. now rewrite List.app_nil_r.
  - intros w path content. split; [now exists [(path, content)]|].
    split; exists []; simpl; now rewrite List.app_nil_r.
  - intros w. split; [now exists []|].
    split; exists []; simpl; now rewrite List.app_nil_r.
  - intros w. split; [now exists []|].
    split; exists []; simpl; now rewrite List.app_nil_r.
  - intros E' res w w' r Hrun. exact (fetch_and_store_output E' res w w' r Hrun).
Qed.

Lemma import_loop_requests E l : forall w w' r,
  for_each l (fetch_and_store E) w = (w', r) ->
  files w' = files w /\ db_file w' = db_file w
  /\ exists n, requests w' = requests w ++ firstn n (map resource_url l)
               /\ (r = Returned tt -> n = length l).
Proof.
  induction l as [|res l IH]; intros w w' r; cbn [for_each].
  - intros [= <- <-]. repeat split. exists 0%nat.
    rewrite List.app_nil_r. auto.
  - intros H. apply bind_inv in H.
    destruct H as [(e & H & ->) | (w1 & [] & H1 & H2)].
    + destruct (fetch_and_store_frame E res w w' _ H) as (Hd & Hf & _ & Hr & _).
      repeat split; auto. exists 1%nat. simpl. split; [auto | discriminate].
    + destruct (fetch_and_store_frame E res w w1 _ H1) as (Hd & Hf & _ & Hr & _).
      destruct (IH w1 w' r H2) as (Hf' & Hd' & n & Hn & Hall).
      repeat split; try congruence. exists (S n). simpl.
      rewrite Hn, Hr, <- List.app_assoc. split; [reflexivity|].
      intros Hret. now rewrite Hall.
Qed.

Lemma makedirs_inv E path w w' r :
  makedirs E path w = (w', r) -> w' = w.
Proof.
  unfold makedirs, ret, raise. destruct (writable E path); congruence.
Qed.

Lemma connect_and_create_inv E w w' r :
  connect_and_create E w = (w', r) ->
  files w' = files w /\ requests w' = requests w
  /\ (r = Returned tt -> db_file w' = []).
Proof.
  unfold connect_and_create. destruct (writable E DB_PATH);
    intros [= <- <-]; simpl; repeat split; auto; discriminate.
Qed.

Lemma import_phase_requests E w w' r :
  import_phase E w = (w', r) ->
  files w' = files w
  /\ exists n, requests w' = requests w
                             ++ firstn n (map resource_url RESOURCES)
               /\ (r = Returned tt -> n = length RESOURCES).
Proof.
  unfold import_phase. intros H.
  apply bind_inv in H. destruct H as [(e & H & ->) | (w1 & [] & H1 & H)].
  - apply makedirs_inv in H. subst w'.
    split; auto. exists 0%nat. rewrite List.app_nil_r. split; [auto | discriminate].
  - apply makedirs_inv in H1. subst w1.
    apply bind_inv in H. destruct H as [(e & H & ->) | (w2 & [] & H2 & H)].
    + apply connect_and_create_inv in H. destruct H as (Hf & Hr & _).
      split; auto. exists 0%nat. rewrite Hr, List.app_nil_r.
      split; [auto | discriminate].
    + apply connect_and_create_inv in H2. destruct H2 as (Hf & Hr & _).
      destruct (import_loop_requests E RESOURCES _ w' r H) as (Hf' & _ & n & Hn & Hall).
      split; [congruence|]. exists n. rewrite Hn, Hr. auto.
Qed.

Lemma export_same_requests E : respects same_requests (export_phase E).
Proof.
  apply respects_export; unfold same_requests; simpl; auto; congruence.
Qed.

Lemma main_requests E w w' r :
  main E w = (w', r) ->
  exists n, requests w' = requests w ++ firstn n (map resource_url RESOURCES)
            /\ (forall z, r = Returned z -> z = 0%Z /\ n = length RESOURCES).
Proof.
  unfold main. intros H.
  apply bind_inv in H. destruct H as [(e & H & ->) | (w1 & [] & H1 & H)].
  - destruct (import_phase_requests E w w' _ H) as (_ & n & Hn & _).
    exists n. split; [auto | discriminate].
  - destruct (import_phase_requests E w w1 _ H1) as (_ & n & Hn & Hall).
    apply bind_inv in H. destruct H as [(e & H & ->) | (w2 & [] & H2 & H)].
    + exists n. rewrite (export_same_requests E w1 w' _ H).
      split; [auto | discriminate].
    + injection H as <- <-. exists n.
      rewrite (export_same_requests E w1 w2 _ H2). split; auto.
      intros z [= <-]. auto.
Qed.

(** The first import that raises ends the run there. *)
Lemma import_aborts E w pre res post w1 w2 e :
  RESOURCES = pre ++ res :: post ->
  bind (makedirs E D1_DIR)
    (fun _ => bind (connect_and_create E)
       (fun _ => for_each pre (fetch_and_store E))) w = (w1, Returned tt) ->
  fetch_and_store E res w1 = (w2, Raised e) ->
  main E w = (w2, Raised e)
  /\ requests w2 = requests w ++ map resource_url (pre ++ [res])
  /\ files w2 = files w
  /\ db_file w2 = [].
Proof.
  intros Hres Hpre Hfail.
  apply bind_inv in Hpre. destruct Hpre as [(? & _ & [=]) | (wa & [] & Ha & Hpre)].
  apply bind_inv in Hpre. destruct Hpre as [(? & _ & [=]) | (wb & [] & Hb & Hpre)].
  assert (Hmain : main E w = (w2, Raised e)).
  { unfold main, import_phase. rewrite Hres.
    apply bind_raised.
    rewrite (bind_returned _ _ w wa tt Ha).
    rewrite (bind_returned _ _ wa wb tt Hb).
    rewrite for_each_app. rewrite (bind_returned _ _ wb w1 tt Hpre).
    cbn [for_each]. now apply bind_raised. }
  split; [exact Hmain|].
  apply makedirs_inv in Ha. subst wa.
  apply connect_and_create_inv in Hb. destruct Hb as (Hfb & Hrb & Hdb).
  specialize (Hdb eq_refl).
  destruct (import_loop_requests E pre _ w1 _ Hpre) as (Hf & Hd & n & Hn & Hall).
  destruct (fetch_and_store_frame E res w1 w2 _ Hfail) as (Hd2 & Hf2 & _ & Hr2 & _).
  rewrite (Hall eq_refl) in Hn.
  rewrite <- (length_map resource_url pre), firstn_all in Hn.
  repeat split; try congruence.
  rewrite Hr2, Hn, Hrb, map_app, List.app_assoc. reflexivity.
Qed.

(** A disk failure after the import: the run raises, the imported rows
    stay committed, nothing that was written is removed. *)
Lemma full_dump_write_fails E w w1 :
  import_phase E w = (w1, Returned tt) ->
  writable E SQL_PATH = false ->
  main E w = (mkWorld (conn w1) (conn w1) (files w1) (stdout w1) (stderr w1)
                      (requests w1), Raised OSError).
Proof.
  intros Himp Hw. unfold main. rewrite (bind_returned _ _ w w1 tt Himp).
  apply bind_raised. unfold export_phase, bind, commit, export_full_dump,
    bind, write_file. cbn [conn]. rewrite Hw. reflexivity.
Qed.

(** How the import of a resource ends depends on the environment only. *)
Lemma fetch_and_store_outcome E res w0 w1 :
  snd (fetch_and_store E res w0) = snd (fetch_and_store E res w1).
Proof.
  unfold fetch_and_store, bind, http_get_json, lift.
  destruct (urlopen E (resource_url res)) as [| |body]; try reflexivity.
  destruct (subscript_data body) as [data|]; try reflexivity.
  destruct (build_rows res data) as [rows|]; try reflexivity.
  rewrite !executemany_accepted.
  destruct (snd (accepted rows)) as [[]|e]; reflexivity.
Qed.

Lemma for_each_returned {A} (body : A -> M unit) l : forall w w',
  for_each l body w = (w', Returned tt) ->
  forall a, In a l -> exists wa wb, body a wa = (wb, Returned tt).
Proof.
  induction l as [|x l IH]; intros w w' H a Ha; [destruct Ha|].
  cbn [for_each] in H. apply bind_inv in H.
  destruct H as [(e & _ & [=]) | (w1 & [] & H1 & H2)].
  destruct Ha as [<- | Ha]; [eauto | exact (IH w1 w' H2 a Ha)].
Qed.

Lemma write_file_returned E path content w w' :
  write_file E path content w = (w', Returned tt) -> writable E path = true.
Proof.
  unfold write_file. destruct (writable E path); [reflexivity | discriminate].
Qed.

(** A run returns only if nothing failed. *)
Lemma main_returned E w w' z :
  main E w = (w', Returned z) ->
  (forall res, In res RESOURCES ->
     forall w0, snd (fetch_and_store E res w0) = Returned tt)
  /\ (forall p, In p output_paths -> writable E p = true).
Proof.
  unfold main. intros H.
  apply bind_inv in H. destruct H as [(e & _ & [=]) | (w1 & [] & Himp & H)].
  apply bind_inv in H. destruct H as [(e & _ & [=]) | (w2 & [] & Hexp & _)].
  unfold import_phase in Himp.
  apply bind_inv in Himp. destruct Himp as [(e & _ & [=]) | (wa & [] & Ha & Himp)].
  apply bind_inv in Himp. destruct Himp as [(e & _ & [=]) | (wb & [] & Hb & Himp)].
  unfold export_phase in Hexp.
  apply bind_inv in Hexp. destruct Hexp as [(e & _ & [=]) | (wc & [] & _ & Hexp)].
  apply bind_inv in Hexp. destruct Hexp as [(e & _ & [=]) | (wd & [] & Hd & Hexp)].
  apply bind_inv in Hexp. destruct Hexp as [(e & _ & [=]) | (we & [] & He & Hexp)].
  apply bind_inv in Hexp. destruct Hexp as [(e & _ & [=]) | (wf & [] & Hf & Hexp)].
  split.
  - intros res Hres w0.
    destruct (for_each_returned _ _ _ _ Himp res Hres) as (x & y & Hxy).
    rewrite (fetch_and_store_outcome E res w0 x), Hxy. reflexivity.
  - assert (H1 : writable E D1_DIR = true).
    { unfold makedirs, ret, raise in Ha.
      destruct (writable E D1_DIR); [reflexivity | discriminate]. }
    assert (H2 : writable E DB_PATH = true).
    { unfold connect_and_create in Hb.
      destruct (writable E DB_PATH); [reflexivity | discriminate]. }
    assert (H3 : writable E SQL_PATH = true).
    { unfold export_full_dump in Hd. apply bind_inv in Hd.
      destruct Hd as [(e & _ & [=]) | (x & t & _ & Hd)].
      apply bind_inv in Hd. destruct Hd as [(e & _ & [=]) | (y & [] & Hd & _)].
      now apply write_file_returned in Hd. }
    assert (H4 : writable E (d1_path (str "00_schema.sql")) = true).
    { unfold write_schema in He. apply bind_inv in He.
      destruct He as [(e & _ & [=]) | (y & [] & He & _)].
      now apply write_file_returned in He. }
    assert (H5 : writable E D1_SQL_PATH = true).
    { unfold export_filtered_dump in Hexp. apply bind_inv in Hexp.
      destruct Hexp as [(e & _ & [=]) | (x & c & _ & Hexp)].
      apply bind_inv in Hexp.
      destruct Hexp as [(e & _ & [=]) | (y & [] & Hexp & _)].
      now apply write_file_returned in Hexp. }
    intros p Hp. unfold output_paths in Hp. apply in_app_iff in Hp.
    destruct Hp as [Hp | Hp].
    + simpl in Hp. decompose [or] Hp; subst; auto; contradiction.
    + apply in_map_iff in Hp. destruct Hp as (res & <- & Hres).
      destruct (for_each_returned _ _ _ _ Hf res Hres) as (x & y & Hxy).
      unfold export_chunk in Hxy. apply bind_inv in Hxy.
      destruct Hxy as [(e & _ & [=]) | (x1 & t & _ & Hxy)].
      apply bind_inv in Hxy.
      destruct Hxy as [(e & _ & [=]) | (y1 & [] & Hxy & _)].
      now apply write_file_returned in Hxy.
Qed.

(** A failing input anywhere makes the run raise. *)
Lemma main_raises E w :
  (exists res w0 e, In res RESOURCES
                    /\ snd (fetch_and_store E res w0) = Raised e)
  \/ (exists p, In p output_paths /\ writable E p = false) ->
  exists w' e, main E w = (w', Raised e).
Proof.
  intros Hfail. destruct (main E w) as [w' [z|e]] eqn:Hrun; [|eauto].
  exfalso. destruct (main_returned E w w' z Hrun) as [Hf Hp].
  destruct Hfail as [(res & w0 & e & Hres & He) | (p & Hin & Hw)].
  - rewrite (Hf res Hres w0) in He. discriminate.
  - rewrite (Hp p Hin) in Hw. discriminate.
Qed.

(** C8. Every failing input raises: an unreachable URL, a body that is
    not JSON, a body without "data", a row the table refuses, a path
    that cannot be written; and a run in which the import of some
    resource fails, or some path cannot be written, raises.  Nothing
    catches: the first import that raises ends the run with its
    exception, after one request per resource up to the failing one and
    none for the later ones; a write that fails after the import ends
    the run with the imported rows committed.  A run that raises exits
    with a status other than 0, removes no file and no line it wrote,
    and has made each request at most once, in the order of the list. *)
Theorem run_aborts_on_failure E w :
  (forall res w0, urlopen E (resource_url res) = Unreachable ->
     snd (fetch_and_store E res w0) = Raised URLError)
  /\ (forall res w0, urlopen E (resource_url res) = Malformed ->
        snd (fetch_and_store E res w0) = Raised JSONDecodeError)
  /\ (forall res w0 members,
        urlopen E (resource_url res) = Body (JObject members) ->
        dict_get (str "data") members = None ->
        snd (fetch_and_store E res w0) = Raised KeyError)
  /\ (forall res w0 body data rows e,
        urlopen E (resource_url res) = Body body ->
        subscript_data body = Returned data ->
        build_rows res data = Returned rows ->
        store_rows rows (conn w0) = Raised e ->
        snd (fetch_and_store E res w0) = Raised e)
  /\ (forall path content w0,
        writable E path = false ->
        write_file E path content w0 = (w0, Raised OSError))
  /\ ((exists res w0 e, In res RESOURCES
                         /\ snd (fetch_and_store E res w0) = Raised e)
      \/ (exists p, In p output_paths /\ writable E p = false) ->
      exists w' e, main E w = (w', Raised e))
  /\ (forall pre res post w1 w2 e,
        RESOURCES = pre ++ res :: post ->
        bind (makedirs E D1_DIR)
          (fun _ => bind (connect_and_create E)
             (fun _ => for_each pre (fetch_and_store E))) w
        = (w1, Returned tt) ->
        fetch_and_store E res w1 = (w2, Raised e) ->
        main E w = (w2, Raised e)
        /\ requests w2 = requests w ++ map resource_url (pre ++ [res])
        /\ files w2 = files w
        /\ db_file w2 = [])
  /\ (forall w1,
        import_phase E w = (w1, Returned tt) ->
        writable E SQL_PATH = false ->
        main E w = (mkWorld (conn w1) (conn w1) (files w1) (stdout w1)
                            (stderr w1) (requests w1), Raised OSError))
  /\ (forall w' e,
        main E w = (w', Raised e) ->
        exit_status (Raised e) <> 0%Z
        /\ output_grows w w'
        /\ exists n, requests w' = requests w
                                   ++ firstn n (map resource_url RESOURCES))
  /\ (forall w' z,
        main E w = (w', Returned z) ->
        exit_status (Returned z) = 0%Z
        /\ requests w' = requests w ++ map resource_url RESOURCES).
Proof.
  split; [|split; [|split; [|split; [|split; [|split; [|split; [|split;
    [|split]]]]]]]].
  - intros res w0 H. unfold fetch_and_store, bind, http_get_json.
    now rewrite H.
  - intros res w0 H. unfold fetch_and_store, bind, http_get_json.
    now rewrite H.
  - intros res w0 members H Hd. unfold fetch_and_store, bind, http_get_json, lift.
    rewrite H. cbn [subscript_data]. now rewrite Hd.
  - intros res w0 body data rows e H Hd Hb Hs.
    unfold fetch_and_store, bind, http_get_json, lift. rewrite H, Hd, Hb.
    destruct (executemany_raises rows
                (mkWorld (db_file w0) (conn w0) (files w0) (stdout w0)
                   (stderr w0) (requests w0 ++ [resource_url res])) e Hs)
      as (w1 & Hrun & _).
    now rewrite Hrun.
  - intros path content w0 H. unfold write_file. now rewrite H.
  - apply main_raises.
  - intros pre res post w1 w2 e. apply import_aborts.
  - apply full_dump_write_fails.
  - intros w' e Hrun. split; [discriminate|].
    split; [exact (output_grows_main E w w' _ Hrun)|].
    destruct (main_requests E w w' _ Hrun) as (n & Hn & _). eauto.
  - intros w' z Hrun.
    destruct (main_requests E w w' _ Hrun) as (n & Hn & Hz).
    destruct (Hz z eq_refl) as [-> ->]. split; [reflexivity|].
    now rewrite <- (length_map resource_url RESOURCES), firstn_all in Hn.
Qed.


(** The filtered dump is written from the full dump of the same run. *)
Lemma export_filtered_dump_writes E w w' content :
  lookup_file SQL_PATH (files w) = Some content ->
  export_filtered_dump E w = (w', Returned tt) ->
  lookup_file D1_SQL_PATH (files w') = Some (filter_dump content).
Proof.
  intros Hc. unfold export_filtered_dump, bind, read_file, write_file, print.
  rewrite Hc. destruct (writable E D1_SQL_PATH); [|discriminate].
  intros [= <-]. cbn [files lookup_file]. now rewrite pystr_eqb_refl.
Qed.

(** * Further properties of the script *)

(** ** The filtered dump, statement by statement *)

Lemma universal_newlines_cut a : forall b,
  universal_newlines (a ++ LF :: b)
  = universal_newlines (a ++ [LF]) ++ universal_newlines b.
Proof.
  assert (H : forall n a, (length a <= n)%nat -> forall b,
             universal_newlines (a ++ LF :: b)
             = universal_newlines (a ++ [LF]) ++ universal_newlines b).
  { clear a. induction n as [|n IH]; intros [|c a] Hlen b;
      try (simpl in Hlen; lia); try reflexivity.
    cbn [app universal_newlines].
    destruct (c =? CR).
    - destruct a as [|d a]; [reflexivity|]. cbn [app].
      destruct (d =? LF).
      + rewrite (IH a) by (simpl in Hlen; lia). reflexivity.
      + change (d :: a ++ LF :: b) with ((d :: a) ++ LF :: b).
        change (d :: a ++ [LF]) with ((d :: a) ++ [LF]).
        rewrite (IH (d :: a)) by (simpl in *; lia). reflexivity.
    - rewrite (IH a) by (simpl in Hlen; lia). reflexivity. }
  apply (H (length a) a). lia.
Qed.

Lemma universal_newlines_ends a :
  exists a', universal_newlines (a ++ [LF]) = a' ++ [LF].
Proof.
  assert (H : forall n a, (length a <= n)%nat ->
             exists a', universal_newlines (a ++ [LF]) = a' ++ [LF]).
  { clear a. induction n as [|n IH]; intros [|c a] Hlen;
      try (simpl in Hlen; lia); try (now exists []).
    cbn [app universal_newlines].
    destruct (c =? CR).
    - destruct a as [|d a]; [now exists []|]. cbn [app].
      destruct (d =? LF).
      + destruct (IH a) as [a' Ha]; [simpl in Hlen; lia|].
        exists (LF :: a'). now rewrite Ha.
      + change (d :: a ++ [LF]) with ((d :: a) ++ [LF]).
        destruct (IH (d :: a)) as [a' Ha]; [simpl in *; lia|].
        exists (LF :: a'). now rewrite Ha.
    - destruct (IH a) as [a' Ha]; [simpl in Hlen; lia|].
      exists (c :: a'). now rewrite Ha. }
  apply (H (length a) a). lia.
Qed.

Lemma split_lines_nonempty c s : split_lines (c :: s) <> [].
Proof.
  cbn [split_lines]. destruct (c =? LF); [discriminate|].
  destruct (split_lines s); discriminate.
Qed.

Lemma split_lines_cut a b :
  split_lines (a ++ LF :: b) = split_lines (a ++ [LF]) ++ split_lines b.
Proof.
  induction a as [|c a IH]; [reflexivity|]. cbn [app split_lines].
  destruct (c =? LF); [now rewrite IH|].
  rewrite IH. destruct (split_lines (a ++ [LF])) as [|l ls] eqn:Hs;
    [|reflexivity].
  exfalso. destruct a; exact (split_lines_nonempty _ _ Hs).
Qed.

Lemma text_lines_cut a b :
  text_lines (a ++ LF :: b) = text_lines (a ++ [LF]) ++ text_lines b.
Proof.
  unfold text_lines. rewrite universal_newlines_cut.
  destruct (universal_newlines_ends a) as [a' Ha]. rewrite Ha.
  rewrite <- List.app_assoc. cbn [app]. apply split_lines_cut.
Qed.

Lemma filter_dump_cut a b :
  filter_dump (a ++ LF :: b) = filter_dump (a ++ [LF]) ++ filter_dump b.
Proof.
  unfold filter_dump. now rewrite text_lines_cut, filter_app, concat_app.
Qed.

Lemma one_line_no_lf s : one_line s = true -> ~ In LF s /\ ~ In CR s.
Proof.
  unfold one_line. rewrite forallb_forall. intros H.
  split; intros Hin; apply H in Hin; discriminate Hin.
Qed.

Lemma text_lines_one_line line :
  one_line line = true -> text_lines (with_newline line) = [with_newline line].
Proof.
  intros H. apply one_line_no_lf in H. destruct H as [Hlf Hcr].
  unfold text_lines, with_newline. rewrite universal_newlines_id.
  - rewrite (split_lines_line line []) by assumption. reflexivity.
  - rewrite in_app_iff. intros [Hin | [Hin | []]]; [auto | discriminate Hin].
Qed.

(** X1. What is written statement by statement is filtered statement
    by statement: the filtered dump of statements written each with its
    line feed is the concatenation of the filtered statements; and a
    statement of one line is kept whole or dropped whole. *)
Theorem filter_dump_statements lines :
  filter_dump (concat (map with_newline lines))
  = concat (map (fun line => filter_dump (with_newline line)) lines)
  /\ forall line, In line lines -> one_line line = true ->
       filter_dump (with_newline line)
       = if keep_line (with_newline line) then with_newline line else [].
Proof.
  split.
  - induction lines as [|l lines IH]; [reflexivity|].
    cbn [map concat]. unfold with_newline at 1.
    rewrite <- List.app_assoc. cbn [app].
    rewrite filter_dump_cut, IH. reflexivity.
  - intros line _ H. unfold filter_dump. rewrite text_lines_one_line by exact H.
    cbn [filter]. destruct (keep_line (with_newline line)); simpl;
      now rewrite ?List.app_nil_r.
Qed.

(** X2. Filtering a filtered dump changes nothing, and the filtered
    dump holds no carriage return: the line ends of the full dump are
    read as line feeds. *)
Theorem filter_dump_idempotent content :
  filter_dump (filter_dump content) = filter_dump content
  /\ ~ In CR (filter_dump content).
Proof.
  split.
  - unfold filter_dump at 1. rewrite text_lines_filter_dump, filter_idem.
    reflexivity.
  - intros H. apply in_concat_filter in H. destruct H as (l & Hl & Hc).
    apply (universal_newlines_no_cr content).
    apply (in_split_lines _ l); auto.
Qed.

(** ** Blanks around a line *)

Lemma lstrip_blank s : blank s = true -> lstrip s = [].
Proof.
  induction s as [|c s IH]; simpl; [reflexivity|].
  intros H. apply andb_true_iff in H. destruct H as [Hc Hs].
  rewrite Hc. auto.
Qed.

Lemma lstrip_blank_app a b : blank a = true -> lstrip (a ++ b) = lstrip b.
Proof.
  induction a as [|c a IH]; simpl; [reflexivity|].
  intros H. apply andb_true_iff in H. destruct H as [Hc Hs].
  rewrite Hc. auto.
Qed.

Lemma lstrip_app a b : blank a = false -> lstrip (a ++ b) = lstrip a ++ b.
Proof.
  induction a as [|c a IH]; simpl; [discriminate|].
  destruct (py_isspace c); simpl; auto.
Qed.

Lemma blank_rev s : blank (rev s) = blank s.
Proof.
  unfold blank. destruct (forallb py_isspace s) eqn:H.
  - rewrite forallb_forall in *. intros x Hx. apply H. now apply in_rev.
  - destruct (forallb py_isspace (rev s)) eqn:H'; [|reflexivity].
    rewrite forallb_forall in H'.
    assert (forallb py_isspace s = true); [|congruence].
    apply forallb_forall. intros x Hx. apply H'. now apply in_rev in Hx.
Qed.

Lemma rstrip_app_blank a b : blank b = true -> rstrip (a ++ b) = rstrip a.
Proof.
  intros H. unfold rstrip. rewrite rev_app_distr, lstrip_blank_app; auto.
  now rewrite blank_rev.
Qed.

Lemma strip_blanks a l b :
  blank a = true -> blank b = true -> strip (a ++ l ++ b) = strip l.
Proof.
  intros Ha Hb. unfold strip. rewrite lstrip_blank_app by assumption.
  destruct (blank l) eqn:Hl.
  - rewrite lstrip_blank_app, (lstrip_blank b), (lstrip_blank l); auto.
  - rewrite lstrip_app by assumption. now apply rstrip_app_blank.
Qed.

(** X3. Whether a line is kept does not depend on the blanks around it,
    its line feed among them: an indented or padded BEGIN TRANSACTION,
    COMMIT or PRAGMA line is dropped like the bare one, and a line of
    blanks only is dropped. *)
Theorem keep_line_ignores_blanks a line b :
  blank a = true -> blank b = true ->
  keep_line (a ++ line ++ b) = keep_line line
  /\ keep_line (with_newline line) = keep_line line
  /\ keep_line a = false.
Proof.
  intros Ha Hb. unfold keep_line. split; [|split].
  - now rewrite strip_blanks.
  - unfold with_newline.
    pose proof (strip_blanks [] line [LF] eq_refl eq_refl) as H.
    cbn [app] in H. now rewrite H.
  - unfold strip. now rewrite (lstrip_blank a Ha).
Qed.

(** ** The payload *)

Lemma printable_app a b : printable (a ++ b) = printable a && printable b.
Proof. apply forallb_app. Qed.

Lemma printable_digits u : printable (digits u) = true.
Proof. induction u; simpl; auto. Qed.

Lemma printable_str_of_Z z : printable (str_of_Z z) = true.
Proof.
  destruct z as [|p|p]; unfold str_of_Z, str_of_N;
    [apply printable_digits | apply printable_digits |].
  change (printable ([MINUS] ++ digits (N.to_uint (N.pos p))) = true).
  rewrite printable_app, printable_digits. reflexivity.
Qed.

Lemma hex_digit_printable d :
  d < 16 -> ((32 <=? hex_digit d) && (hex_digit d <=? 126)) = true.
Proof.
  intros Hd. unfold hex_digit. apply andb_true_iff.
  rewrite N.leb_le, N.leb_le. destruct (N.ltb_spec d 10); lia.
Qed.

Lemma printable_u_escape n : printable (u_escape n) = true.
Proof.
  unfold u_escape, hex4, printable. cbn [forallb].
  rewrite !hex_digit_printable by (apply N.mod_lt; discriminate). reflexivity.
Qed.

Lemma printable_escape_char c : printable (escape_char c) = true.
Proof.
  unfold escape_char.
  destruct (c =? DQUOTE); [reflexivity|].
  destruct (c =? BACKSLASH); [reflexivity|].
  destruct (c =? 10); [reflexivity|].
  destruct (c =? 13); [reflexivity|].
  destruct (c =? 9); [reflexivity|].
  destruct (c =? 8); [reflexivity|].
  destruct (c =? 12); [reflexivity|].
  destruct ((32 <=? c) && (c <=? 126)) eqn:Hc.
  - unfold printable. cbn [forallb]. now rewrite Hc.
  - destruct (c <? 65536).
    + apply printable_u_escape.
    + cbv zeta. rewrite printable_app, !printable_u_escape. reflexivity.
Qed.

Lemma printable_encode_string s : printable (encode_string s) = true.
Proof.
  unfold encode_string.
  change (DQUOTE :: flat_map escape_char s ++ [DQUOTE])
    with ([DQUOTE] ++ flat_map escape_char s ++ [DQUOTE]).
  rewrite !printable_app.
  assert (H : printable (flat_map escape_char s) = true).
  { induction s as [|c s IH]; [reflexivity|]. cbn [flat_map].
    now rewrite printable_app, printable_escape_char. }
  rewrite H. reflexivity.
Qed.

Lemma printable_join sep parts :
  printable sep = true -> Forall (fun p => printable p = true) parts ->
  printable (join sep parts) = true.
Proof.
  intros Hsep. induction 1 as [|p ps Hp Hps IH]; [reflexivity|].
  cbn [join]. destruct ps as [|q ps]; [exact Hp|].
  rewrite !printable_app, Hp, Hsep, IH. reflexivity.
Qed.

Lemma printable_real s : forallb real_char s = true -> printable s = true.
Proof.
  apply forallb_weaken. intros c Hc. apply real_char_range in Hc.
  apply andb_true_iff. rewrite !N.leb_le. lia.
Qed.

Lemma printable_dumps j : printable (dumps j) = true.
Proof.
  induction j as [| b | z | f | s | items IH | members IH]
    using json_induction; cbn [dumps].
  - reflexivity.
  - destruct b; reflexivity.
  - apply printable_str_of_Z.
  - apply printable_real, float_json_chars.
  - apply printable_encode_string.
  - change (91 :: join [44] (map dumps items) ++ [93])
      with ([91] ++ join [44] (map dumps items) ++ [93]).
    rewrite !printable_app, printable_join; auto.
    apply Forall_map. exact IH.
  - change (printable
              ([123] ++ join [44]
                 (map (fun kv => match kv with
                                 | (k, v) => encode_string k ++ 58 :: dumps v
                                 end) members) ++ [125]) = true).
    rewrite !printable_app, printable_join; auto.
    apply Forall_map. apply Forall_forall. intros [k v] Hkv.
    rewrite Forall_forall in IH. specialize (IH (k, v) Hkv). simpl in IH.
    change (encode_string k ++ 58 :: dumps v)
      with (encode_string k ++ [58] ++ dumps v).
    rewrite !printable_app, printable_encode_string, IH. reflexivity.
Qed.

Lemma printable_one_line s : printable s = true -> one_line s = true.
Proof.
  unfold printable, one_line. rewrite !forallb_forall. intros H c Hc.
  specialize (H c Hc). apply andb_true_iff in H. destruct H as [H _].
  apply N.leb_le in H. apply negb_true_iff, orb_false_iff.
  split; apply N.eqb_neq; unfold LF, CR; lia.
Qed.

Lemma constrained_row_payload r i u p x :
  constrained_row r i u (SText p) = Returned x -> payload x = p.
Proof.
  unfold constrained_row. cbn [text_affinity].
  destruct (text_affinity r); try discriminate;
    destruct (integer_affinity i); try discriminate;
    destruct (text_affinity u); try discriminate;
    intros [= <-]; reflexivity.
Qed.

(** X4. The payload stored for an element, whatever its id and
    whatever values it holds (numbers with a fraction too), is its
    compact JSON, and that text holds printable ASCII characters only:
    no line feed, no carriage return, no control or non-ASCII
    character reaches the table or the files through the payload. *)
Theorem payload_is_printable res obj r :
  row_for res obj = Returned r ->
  payload r = dumps obj
  /\ printable (payload r) = true
  /\ one_line (payload r) = true.
Proof.
  intros H. apply row_for_inv in H.
  destruct H as (members & i' & u' & _ & _ & _ & H).
  apply constrained_row_payload in H. rewrite H.
  split; [reflexivity|]. split; [apply printable_dumps|].
  apply printable_one_line, printable_dumps.
Qed.

(** ** Quote doubling *)

Lemma sql_escape_cons c s :
  sql_escape (c :: s)
  = (if c =? QUOTE then [QUOTE; QUOTE] else [c]) ++ sql_escape s.
Proof. reflexivity. Qed.

Lemma sql_escape_length_quotes s :
  length (sql_escape s) = (length s + quotes s)%nat.
Proof.
  unfold quotes. induction s as [|c s IH]; [reflexivity|].
  rewrite sql_escape_cons, length_app, IH. cbn [filter length].
  destruct (c =? QUOTE); simpl; lia.
Qed.

Lemma quotes_app a b : quotes (a ++ b) = (quotes a + quotes b)%nat.
Proof. unfold quotes. now rewrite filter_app, length_app. Qed.

Lemma sql_escape_quotes s : quotes (sql_escape s) = (2 * quotes s)%nat.
Proof.
  induction s as [|c s IH]; [reflexivity|].
  rewrite sql_escape_cons, quotes_app, IH. unfold quotes.
  cbn [filter]. destruct (c =? QUOTE) eqn:Hc.
  - change (filter (fun c0 => c0 =? QUOTE) [QUOTE; QUOTE]) with [QUOTE; QUOTE].
    cbn [length]. lia.
  - cbn [filter]. rewrite Hc. cbn [length]. lia.
Qed.

(** X5. Doubling the quotes of a payload loses nothing: two payloads
    with the same escaped text are the same payload; the escaped text
    has twice the quotes and is longer by the number of quotes of the
    payload, so an escaped payload never holds a lone quote. *)
Theorem payload_escape_injective p q :
  (replace_char QUOTE [QUOTE; QUOTE] p = replace_char QUOTE [QUOTE; QUOTE] q
   -> p = q)
  /\ length (replace_char QUOTE [QUOTE; QUOTE] p) = (length p + quotes p)%nat
  /\ quotes (replace_char QUOTE [QUOTE; QUOTE] p) = (2 * quotes p)%nat.
Proof.
  fold (sql_escape p). fold (sql_escape q). split; [|split].
  - revert q. induction p as [|c p IH]; intros [|d q];
      rewrite ?sql_escape_cons; cbn [sql_escape replace_char].
    + reflexivity.
    + destruct (d =? QUOTE); discriminate.
    + destruct (c =? QUOTE); discriminate.
    + destruct (N.eqb_spec c QUOTE) as [->|Hc],
               (N.eqb_spec d QUOTE) as [->|Hd]; cbn [app].
      * intros [= H]. f_equal. now apply IH.
      * intros [= H1 H2]. exfalso. apply Hd. now symmetry.
      * intros [= H1 H2]. exfalso. now apply Hc.
      * intros [= -> H]. f_equal. now apply IH.
  - apply sql_escape_length_quotes.
  - apply sql_escape_quotes.
Qed.

(** ** One statement per line *)

Lemma one_line_app a b : one_line (a ++ b) = one_line a && one_line b.
Proof. apply forallb_app. Qed.

Lemma one_line_sql_escape s :
  one_line (replace_char QUOTE [QUOTE; QUOTE] s) = one_line s.
Proof.
  induction s as [|c s IH]; [reflexivity|].
  cbn [replace_char]. rewrite one_line_app, IH.
  destruct (N.eqb_spec c QUOTE) as [->|Hc]; [reflexivity|].
  unfold one_line. cbn [forallb]. now rewrite andb_true_r.
Qed.

Lemma text_lines_stmt b rest :
  one_line b = true ->
  text_lines ((b ++ [LF]) ++ rest) = (b ++ [LF]) :: text_lines rest.
Proof.
  intros Hb. rewrite <- List.app_assoc. cbn [app].
  rewrite text_lines_cut.
  exact (f_equal (fun l => l ++ text_lines rest) (text_lines_one_line b Hb)).
Qed.

Lemma one_line_str_of_Z z : one_line (str_of_Z z) = true.
Proof. apply printable_one_line, printable_str_of_Z. Qed.

Lemma text_lines_inserts res rows :
  one_line res = true ->
  Forall (fun r => one_line (format_key (obj_id r)) = true
                   /\ one_line (updated r) = true
                   /\ one_line (payload r) = true) rows ->
  text_lines (concat (map (insert_stmt res) rows))
  = map (insert_stmt res) rows.
Proof.
  intros Hres. induction 1 as [|r rows (Hk & Hu & Hp) _ IH]; [reflexivity|].
  cbn [map concat].
  assert (Hs : insert_stmt res r
               = (INSERT_HEAD ++ res ++ str "'," ++ format_key (obj_id r)
                    ++ str ",'" ++ updated r ++ str "','"
                    ++ replace_char QUOTE [QUOTE; QUOTE] (payload r)
                    ++ str "');") ++ [LF]).
  { unfold insert_stmt. cbv zeta. now rewrite <- !List.app_assoc. }
  rewrite Hs at 1. rewrite text_lines_stmt, IH, <- Hs; [reflexivity|].
  rewrite !one_line_app, Hres, Hk, Hu, one_line_sql_escape, Hp. reflexivity.
Qed.

(** X6. When the resource name and the key, [updated] and payload of
    every row hold no line feed or carriage return, a chunk file read
    line by line is its DELETE statement followed by one INSERT
    statement per selected row, each on a line of its own, in the order
    of the SELECT. *)
Theorem chunk_one_statement_per_line res rows :
  one_line res = true ->
  Forall (fun r => one_line (format_key (obj_id r)) = true
                   /\ one_line (updated r) = true
                   /\ one_line (payload r) = true) rows ->
  text_lines (chunk_text res rows)
  = delete_stmt res :: map (insert_stmt res) rows.
Proof.
  intros Hres Hrows. unfold chunk_text.
  assert (Hs : delete_stmt res
               = (str "DELETE FROM objects WHERE resource = '" ++ res
                    ++ str "';") ++ [LF]).
  { unfold delete_stmt. now rewrite <- !List.app_assoc. }
  rewrite Hs at 1. rewrite text_lines_stmt, <- Hs.
  - now rewrite text_lines_inserts.
  - rewrite !one_line_app, Hres. reflexivity.
Qed.

(** ** The run as a function of the environment *)

Lemma build_rows_length res data rows :
  build_rows res data = Returned rows ->
  exists objs, py_iter data = Returned objs /\ length rows = length objs.
Proof.
  unfold build_rows. destruct (py_iter data) as [objs|]; [|discriminate].
  cbv [bindR]. intros H. exists objs. split; [reflexivity|].
  apply mapR_Forall2 in H. symmetry. exact (Forall2_length H).
Qed.

Lemma fetched_body E res body data objs :
  urlopen E (resource_url res) = Body body ->
  subscript_data body = Returned data ->
  py_iter data = Returned objs ->
  fetched E res = objs.
Proof.
  unfold fetched. intros -> -> Hi. cbv [bindR]. now rewrite Hi.
Qed.

Lemma fetch_and_store_import E res w w' :
  fetch_and_store E res w = (w', Returned tt) <->
  exists T, one_import E res (conn w) = Returned T
    /\ w' = mkWorld (db_file w) T (files w) (stdout w)
              (stderr w ++ [progress_line res (length (fetched E res))])
              (requests w ++ [resource_url res]).
Proof.
  rewrite fetch_and_store_returns. unfold one_import. split.
  - intros (body & data & rows & t & Hu & Hd & Hb & Hs & ->).
    exists t. rewrite Hu, Hd. cbv [bindR]. rewrite Hb.
    split; [exact Hs|].
    destruct (build_rows_length res data rows Hb) as (objs & Hi & Hlen).
    rewrite (fetched_body E res body data objs Hu Hd Hi).
    unfold progress_line, len. now rewrite Hlen.
  - intros (T & H & ->).
    destruct (urlopen E (resource_url res)) as [| |body] eqn:Hu;
      try discriminate.
    destruct (subscript_data body) as [data|] eqn:Hd;
      cbv [bindR] in H; [|discriminate].
    destruct (build_rows res data) as [rows|] eqn:Hb; [|discriminate].
    exists body, data, rows, T.
    destruct (build_rows_length res data rows Hb) as (objs & Hi & Hlen).
    rewrite (fetched_body E res body data objs Hu Hd Hi).
    unfold progress_line, len. rewrite Hlen. auto.
Qed.

Lemma import_loop_returns E l : forall w w',
  for_each l (fetch_and_store E) w = (w', Returned tt) <->
  exists T, import_all E l (conn w) = Returned T
    /\ w' = mkWorld (db_file w) T (files w) (stdout w)
              (stderr w
               ++ map (fun res => progress_line res (length (fetched E res))) l)
              (requests w ++ map resource_url l).
Proof.
  induction l as [|res l IH]; intros w w'; cbn [for_each import_all map].
  - unfold ret. rewrite !List.app_nil_r. split.
    + intros [= <-]. exists (conn w). destruct w; auto.
    + intros (T & [= <-] & ->). destruct w; reflexivity.
  - split.
    + intros H. apply bind_inv in H.
      destruct H as [(e & _ & [=]) | (w1 & [] & H1 & H2)].
      apply fetch_and_store_import in H1. destruct H1 as (T1 & H1 & ->).
      apply IH in H2. destruct H2 as (T & H2 & ->). cbn [conn] in H2.
      exists T. rewrite H1. cbv [bindR]. split; [exact H2|].
      cbn [db_file files stdout stderr requests].
      now rewrite <- !List.app_assoc.
    + intros (T & H & ->).
      destruct (one_import E res (conn w)) as [T1|] eqn:H1; [|discriminate].
      cbv [bindR] in H.
      rewrite (bind_returned (fetch_and_store E res) _ w
                 (mkWorld (db_file w) T1 (files w) (stdout w)
                    (stderr w ++ [progress_line res (length (fetched E res))])
                    (requests w ++ [resource_url res])) tt).
      * apply IH. exists T. cbn [conn db_file files stdout stderr requests].
        split; [exact H|]. now rewrite <- !List.app_assoc.
      * apply fetch_and_store_import. exists T1. auto.
Qed.

Lemma for_each_export_chunk E l : forall w,
  (forall res, In res l -> writable E (chunk_path res) = true) ->
  for_each l (export_chunk E) w
  = (mkWorld (db_file w) (conn w) (chunk_files E (db_file w) l ++ files w)
       (stdout w ++ map (fun res => str "wrote chunk " ++ chunk_path res) l)
       (stderr w) (requests w), Returned tt).
Proof.
  induction l as [|res l IH]; intros w Hw; cbn [for_each map].
  - unfold ret, chunk_files. cbn [map rev app]. rewrite List.app_nil_r.
    destruct w; reflexivity.
  - unfold bind at 1. unfold export_chunk at 1.
    unfold bind, write_file, print. fold (chunk_path res).
    rewrite (Hw res (or_introl eq_refl)).
    cbn [db_file conn files stdout stderr requests].
    rewrite IH by (intros r Hr; apply Hw; now right).
    cbn [db_file conn files stdout stderr requests].
    unfold chunk_files. cbn [map rev].
    now rewrite <- !List.app_assoc.
Qed.

Lemma lookup_file_skip path l r :
  (forall p c, In (p, c) l -> p <> path) ->
  lookup_file path (l ++ r) = lookup_file path r.
Proof.
  induction l as [|[p c] l IH]; intros H; [reflexivity|].
  cbn [app lookup_file].
  destruct (pystr_eqb path p) eqn:Hp.
  - apply pystr_eqb_eq in Hp. exfalso.
    apply (H p c (or_introl eq_refl)). now symmetry.
  - apply IH. intros p' c' Hin. apply (H p' c'). now right.
Qed.

Lemma lookup_file_found l : forall p c r,
  NoDup (map fst l) -> In (p, c) l -> lookup_file p (l ++ r) = Some c.
Proof.
  induction l as [|[q d] l IH]; intros p c r Hnd Hin; [destruct Hin|].
  cbn [map fst] in Hnd. inversion Hnd as [|? ? Hq Hnd']; subst.
  cbn [app lookup_file]. destruct Hin as [[= -> ->] | Hin].
  - now rewrite pystr_eqb_refl.
  - destruct (pystr_eqb p q) eqn:Hp; [|now apply IH].
    apply pystr_eqb_eq in Hp. subst q. exfalso. apply Hq.
    change p with (fst (p, c)). now apply in_map.
Qed.

Lemma chunk_path_not_dump res : chunk_path res <> SQL_PATH.
Proof. intros H. vm_compute in H. discriminate H. Qed.

Lemma in_chunk_files E t l p c :
  In (p, c) (chunk_files E t l) -> exists res, In res l /\ p = chunk_path res.
Proof.
  unfold chunk_files. rewrite <- in_rev, in_map_iff.
  intros (res & [= <- <-] & Hin). eauto.
Qed.

Lemma export_phase_returns E w :
  (forall p, In p output_paths -> writable E p = true) ->
  export_phase E w
  = (mkWorld (conn w) (conn w) (run_files E (conn w) ++ files w)
       (stdout w ++ run_stdout) (stderr w) (requests w), Returned tt).
Proof.
  intros Hw.
  assert (H1 : writable E SQL_PATH = true) by (apply Hw; vm_compute; tauto).
  assert (H2 : writable E schema_path = true) by (apply Hw; vm_compute; tauto).
  assert (H3 : writable E D1_SQL_PATH = true) by (apply Hw; vm_compute; tauto).
  assert (H4 : forall res, In res RESOURCES -> writable E (chunk_path res) = true).
  { intros res Hres. apply Hw. unfold output_paths. apply in_app_iff. right.
    unfold chunk_path. now apply (in_map (fun r => d1_path (r ++ str ".sql"))). }
  unfold export_phase.
  rewrite (bind_returned (commit) _ w
             (mkWorld (conn w) (conn w) (files w) (stdout w) (stderr w)
                (requests w)) tt) by reflexivity.
  rewrite (bind_returned (export_full_dump E) _ _
             (mkWorld (conn w) (conn w)
                ((SQL_PATH, full_dump_text E (conn w)) :: files w)
                (stdout w ++ [str "wrote " ++ DB_PATH ++ str " and " ++ SQL_PATH])
                (stderr w) (requests w)) tt).
  2:{ unfold export_full_dump, bind, write_file, print. rewrite H1.
      reflexivity. }
  rewrite (bind_returned (write_schema E) _ _
             (mkWorld (conn w) (conn w)
                ((schema_path, SCHEMA_SQL)
                 :: (SQL_PATH, full_dump_text E (conn w)) :: files w)
                ((stdout w ++ [str "wrote " ++ DB_PATH ++ str " and " ++ SQL_PATH])
                 ++ [str "wrote schema file " ++ schema_path])
                (stderr w) (requests w)) tt).
  2:{ unfold write_schema, bind, write_file, print. fold schema_path.
      rewrite H2. reflexivity. }
  rewrite (bind_returned (for_each RESOURCES (export_chunk E)) _ _ _ tt
             (for_each_export_chunk E RESOURCES _ H4)).
  cbn [db_file conn files stdout stderr requests].
  unfold export_filtered_dump, bind, read_file, write_file, print.
  cbn [db_file conn files stdout stderr requests].
  rewrite lookup_file_skip.
  2:{ intros p c Hin. apply in_chunk_files in Hin.
      destruct Hin as (res & _ & ->). apply chunk_path_not_dump. }
  cbn [lookup_file].
  replace (pystr_eqb SQL_PATH schema_path) with false by (vm_compute; reflexivity).
  rewrite pystr_eqb_refl, H3.
  cbn [db_file conn files stdout stderr requests].
  unfold run_files, run_stdout. cbn [app].
  rewrite <- !List.app_assoc. reflexivity.
Qed.

(** A run returns exactly when every import succeeds and every path can
    be written, and then the world it leaves is a function of the
    environment and of the files and lines that were there before. *)
Lemma main_returns_iff E w w' z :
  main E w = (w', Returned z) <->
  exists T, import_all E RESOURCES [] = Returned T
    /\ (forall p, In p output_paths -> writable E p = true)
    /\ z = 0%Z
    /\ w' = mkWorld T T (run_files E T ++ files w) (stdout w ++ run_stdout)
              (stderr w ++ run_stderr E)
              (requests w ++ map resource_url RESOURCES).
Proof.
  split.
  - intros H. destruct (main_returned E w w' z H) as (_ & Hw).
    unfold main in H.
    apply bind_inv in H. destruct H as [(e & _ & [=]) | (w1 & [] & Himp & H)].
    apply bind_inv in H. destruct H as [(e & _ & [=]) | (w2 & [] & Hexp & H)].
    unfold ret in H. injection H as <- <-.
    unfold import_phase in Himp.
    apply bind_inv in Himp.
    destruct Himp as [(e & _ & [=]) | (wa & [] & Ha & Himp)].
    apply makedirs_inv in Ha. subst wa.
    apply bind_inv in Himp.
    destruct Himp as [(e & _ & [=]) | (wb & [] & Hb & Himp)].
    unfold connect_and_create in Hb.
    destruct (writable E DB_PATH); [|discriminate]. injection Hb as <-.
    apply import_loop_returns in Himp. destruct Himp as (T & HT & ->).
    cbn [conn db_file files stdout stderr requests] in *.
    rewrite (export_phase_returns E _ Hw) in Hexp. injection Hexp as <-.
    exists T. cbn [conn db_file files stdout stderr requests]. auto.
  - intros (T & HT & Hw & -> & ->).
    assert (H1 : writable E D1_DIR = true) by (apply Hw; vm_compute; tauto).
    assert (H2 : writable E DB_PATH = true) by (apply Hw; vm_compute; tauto).
    unfold main.
    rewrite (bind_returned (import_phase E) _ w
               (mkWorld [] T (files w) (stdout w) (stderr w ++ run_stderr E)
                  (requests w ++ map resource_url RESOURCES)) tt).
    + rewrite (bind_returned (export_phase E) _ _ _ tt
                 (export_phase_returns E _ Hw)).
      reflexivity.
    + unfold import_phase.
      rewrite (bind_returned (makedirs E D1_DIR) _ w w tt)
        by (unfold makedirs; now rewrite H1).
      rewrite (bind_returned (connect_and_create E) _ w
                 (mkWorld [] [] (files w) (stdout w) (stderr w) (requests w)) tt)
        by (unfold connect_and_create; now rewrite H2).
      apply import_loop_returns. exists T. auto.
Qed.

Lemma run_files_paths E t :
  map fst (run_files E t)
  = D1_SQL_PATH :: rev (map chunk_path RESOURCES) ++ [schema_path; SQL_PATH].
Proof.
  unfold run_files, chunk_files. cbn [app map fst].
  rewrite map_app, map_rev, map_map. reflexivity.
Qed.

Lemma run_files_distinct E t : NoDup (map fst (run_files E t)).
Proof.
  rewrite run_files_paths. vm_compute.
  repeat (constructor; [simpl; intuition discriminate|]). constructor.
Qed.

Lemma one_import_rows E res t T :
  one_import E res t = Returned T ->
  exists rs,
    Forall2 (fun obj r => row_for res obj = Returned r) (fetched E res) rs
    /\ T = fold_left upsert rs t.
Proof.
  unfold one_import. intros H.
  destruct (urlopen E (resource_url res)) as [| |body] eqn:Hu;
    try discriminate.
  destruct (subscript_data body) as [data|] eqn:Hd;
    cbv [bindR] in H; [|discriminate].
  destruct (build_rows res data) as [prs|] eqn:Hb; [|discriminate].
  destruct (import_rows_any res data t T prs Hb H) as (objs & rs & Hi & HF & ->).
  exists rs. rewrite (fetched_body E res body data objs Hu Hd Hi). auto.
Qed.

Lemma filter_filter_imp {A} (f g : A -> bool) l :
  (forall x, In x l -> g x = true -> f x = true) ->
  filter g (filter f l) = filter g l.
Proof.
  induction l as [|x l IH]; intros H; [reflexivity|]. cbn [filter].
  assert (IH' : filter g (filter f l) = filter g l).
  { apply IH. intros y Hy. apply H. now right. }
  destruct (f x) eqn:Hf; cbn [filter].
  - now rewrite IH'.
  - destruct (g x) eqn:Hg; [|exact IH'].
    rewrite (H x (or_introl eq_refl) Hg) in Hf. discriminate.
Qed.

Lemma select_fold_other res rs : forall t,
  (forall x, In x rs -> resource x <> res) ->
  select_resource res (fold_left upsert rs t) = select_resource res t.
Proof.
  induction rs as [|r rs IH]; intros t H; [reflexivity|].
  cbn [fold_left]. rewrite IH by (intros x Hx; apply H; now right).
  unfold upsert. rewrite select_resource_app.
  assert (Hr : select_resource res [r] = []).
  { unfold select_resource. cbn [filter].
    destruct (pystr_eqb (resource r) res) eqn:He; [|reflexivity].
    apply pystr_eqb_eq in He. destruct (H r (or_introl eq_refl) He). }
  rewrite Hr, List.app_nil_r. unfold select_resource.
  apply filter_filter_imp. intros x _ Hx. apply pystr_eqb_eq in Hx.
  apply negb_true_iff. destruct (same_key x r) eqn:Hk; [|reflexivity].
  apply same_key_resource in Hk. exfalso.
  apply (H r (or_introl eq_refl)). congruence.
Qed.

Lemma rows_resource res objs rs :
  Forall2 (fun obj r => row_for res obj = Returned r) objs rs ->
  forall x, In x rs -> resource x = res.
Proof.
  intros HF x Hx. destruct (Forall2_in_r _ _ _ _ HF Hx) as (obj & _ & Hrow).
  exact (row_for_resource res obj x Hrow).
Qed.

Lemma import_all_select E l : NoDup l -> forall t T,
  import_all E l t = Returned T ->
  (forall res, In res l -> select_resource res t = [] ->
     exists rs,
       Forall2 (fun obj r => row_for res obj = Returned r) (fetched E res) rs
       /\ select_resource res T = fold_left upsert rs [])
  /\ (forall res, ~ In res l -> select_resource res T = select_resource res t)
  /\ (forall r, In r T -> In r t \/ In (resource r) l).
Proof.
  induction 1 as [|a l Ha Hnd IH]; intros t T; cbn [import_all].
  - intros [= <-]. split; [intros res []|]. split; auto.
  - intros H. destruct (one_import E a t) as [t1|] eqn:H1; [|discriminate].
    cbv [bindR] in H.
    destruct (one_import_rows E a t t1 H1) as (rs & HF & ->).
    destruct (IH _ T H) as (IH1 & IH2 & IH3).
    pose proof (rows_resource a _ rs HF) as Hres.
    split; [|split].
    + intros res [<- | Hin] Hempty.
      * exists rs. split; [exact HF|].
        rewrite (IH2 a Ha). now apply select_after_import.
      * apply IH1; [exact Hin|].
        rewrite select_fold_other; [exact Hempty|].
        intros x Hx. rewrite (Hres x Hx). intros ->. contradiction.
    + intros res Hn. rewrite IH2 by (intros Hin; apply Hn; now right).
      apply select_fold_other. intros x Hx. rewrite (Hres x Hx).
      intros ->. apply Hn. now left.
    + intros r Hr. destruct (IH3 r Hr) as [Hin | Hin].
      * apply in_fold_upsert in Hin.
        destruct Hin as [[Hin _] | (l1 & l2 & -> & _)]; [now left|].
        right. left. symmetry. apply Hres. apply in_app_iff. right. now left.
      * right. now right.
Qed.

Lemma fold_upsert_length rs : forall t,
  (length (fold_left upsert rs t) <= length t + length rs)%nat.
Proof.
  induction rs as [|r rs IH]; intros t; cbn [fold_left length]; [lia|].
  specialize (IH (upsert t r)).
  assert (Hu : (length (upsert t r) <= S (length t))%nat).
  { unfold upsert. rewrite length_app. cbn [length].
    pose proof (filter_length_le (fun old => negb (same_key old r)) t). lia. }
  lia.
Qed.

(** X7. A run that returns has exit status 0, has committed the table
    of its connection, and leaves on top of the earlier files exactly
    the full dump, the schema file, one chunk file per resource and the
    filtered dump, the filtered dump being the filter of the full dump
    of this same run; each of these files is read back with the
    content written, no later write of the run having replaced it.  It
    prints the fixed lines in order, one progress line per resource,
    and requests each URL once, in the order of the list. *)
Theorem run_writes_its_files E w w' z :
  main E w = (w', Returned z) ->
  z = 0%Z
  /\ db_file w' = conn w'
  /\ import_all E RESOURCES [] = Returned (db_file w')
  /\ files w' = run_files E (db_file w') ++ files w
  /\ (forall p c, In (p, c) (run_files E (db_file w')) ->
        lookup_file p (files w') = Some c)
  /\ stdout w' = stdout w ++ run_stdout
  /\ stderr w' = stderr w ++ run_stderr E
  /\ requests w' = requests w ++ map resource_url RESOURCES.
Proof.
  intros H. apply main_returns_iff in H. destruct H as (T & HT & _ & -> & ->).
  cbn [db_file conn files stdout stderr requests].
  repeat (split; [auto; fail|]). split; [|auto].
  intros p c Hin. apply lookup_file_found; [apply run_files_distinct | exact Hin].
Qed.

(** X8. What a run that returns leaves depends on the environment
    only: started from any other state (other rows in the store, other
    files, other lines printed) the run returns too, with the same
    store and the same content in every file it writes.  Nothing of an
    earlier run survives in the store or in these files. *)
Theorem run_is_reproducible E w1 w1' z :
  main E w1 = (w1', Returned z) ->
  forall w2, exists w2',
    main E w2 = (w2', Returned z)
    /\ db_file w2' = db_file w1' /\ conn w2' = conn w1'
    /\ files w2' = run_files E (db_file w1') ++ files w2
    /\ forall p, In p (map fst (run_files E (db_file w1'))) ->
         lookup_file p (files w2') = lookup_file p (files w1').
Proof.
  intros H w2. apply main_returns_iff in H.
  destruct H as (T & HT & Hw & -> & ->).
  eexists. split.
  - apply main_returns_iff. exists T. repeat split; auto.
  - cbn [db_file conn files]. repeat split.
    intros p Hp. apply in_map_iff in Hp. destruct Hp as ([p' c] & <- & Hin).
    cbn [fst].
    rewrite !(lookup_file_found (run_files E T) p' c _ (run_files_distinct E T) Hin).
    reflexivity.
Qed.

(** X9. After a run that returns, the rows the store holds for a
    resource of the list are those of the elements fetched from the
    URL of that resource, upserted in order into an empty table: the
    import of the other resources neither adds to them nor removes
    from them.  Every stored row belongs to a resource of the list, and
    the chunk file of the resource holds these rows. *)
Theorem run_table_per_resource E w w' z :
  main E w = (w', Returned z) ->
  (forall res, In res RESOURCES ->
     exists rs,
       Forall2 (fun obj r => row_for res obj = Returned r) (fetched E res) rs
       /\ select_resource res (db_file w') = fold_left upsert rs []
       /\ lookup_file (chunk_path res) (files w')
          = Some (chunk_text res (select_order E (fold_left upsert rs []))))
  /\ (forall r, In r (db_file w') -> In (resource r) RESOURCES).
Proof.
  intros H. apply main_returns_iff in H. destruct H as (T & HT & _ & -> & ->).
  cbn [db_file files].
  destruct (import_all_select E RESOURCES resources_distinct [] T HT)
    as (H1 & _ & H3).
  split.
  - intros res Hres. destruct (H1 res Hres eq_refl) as (rs & HF & Hsel).
    exists rs. split; [exact HF|]. split; [exact Hsel|].
    rewrite <- Hsel.
    apply lookup_file_found; [apply run_files_distinct|].
    unfold run_files. apply in_or_app. right. apply in_or_app. left.
    unfold chunk_files. rewrite <- in_rev.
    exact (in_map (fun res0 =>
                     (chunk_path res0,
                      chunk_text res0 (select_order E (select_resource res0 T))))
             RESOURCES res Hres).
  - intros r Hr. destruct (H3 r Hr) as [[] | Hin]. exact Hin.
Qed.

(** Two rows of one key among the rows stored: one row fewer. *)
Lemma fold_upsert_repeated l1 a l2 b l3 :
  key_of a = key_of b ->
  (length (fold_left upsert (l1 ++ a :: l2 ++ b :: l3) [])
   < length (l1 ++ a :: l2 ++ b :: l3))%nat.
Proof.
  intros Hk. set (rs := l1 ++ a :: l2 ++ b :: l3).
  assert (Hnd : NoDup (map key_of (fold_left upsert rs [])))
    by (apply fold_upsert_unique; constructor).
  assert (Hincl : incl (map key_of (fold_left upsert rs []))
                       (map key_of (l1 ++ l2 ++ b :: l3))).
  { intros k Hin. apply in_map_iff in Hin. destruct Hin as (x & <- & Hx).
    apply in_fold_upsert_nil in Hx. unfold rs in Hx.
    apply in_app_iff in Hx. destruct Hx as [Hx | [<- | Hx]].
    - apply in_map, in_or_app. now left.
    - rewrite Hk. apply in_map, in_or_app. right.
      apply in_or_app. right. now left.
    - apply in_map, in_or_app. now right. }
  pose proof (NoDup_incl_length Hnd Hincl) as Hl.
  rewrite !length_map in Hl. subst rs.
  rewrite !length_app in *. cbn [length] in *.
  rewrite !length_app in *. cbn [length] in *. lia.
Qed.

Lemma constrained_row_id r i u p x :
  constrained_row r i u p = Returned x ->
  integer_affinity i = match obj_id x with
                       | KInt z => SInteger z
                       | KReal f => SReal f
                       | KText s => SText s
                       end.
Proof.
  unfold constrained_row.
  destruct (text_affinity r); try discriminate;
    destruct (integer_affinity i); try discriminate;
    destruct (text_affinity u); try discriminate;
    destruct (text_affinity p); try discriminate;
    intros [= <-]; reflexivity.
Qed.

(** Two elements of one resource with the same id are stored under the
    same key. *)
Lemma same_id_same_key res a b ra rb :
  row_for res a = Returned ra -> row_for res b = Returned rb ->
  id_of a = id_of b -> key_of ra = key_of rb.
Proof.
  intros Ha Hb Hid.
  pose proof (row_for_resource res a ra Ha) as Hra.
  pose proof (row_for_resource res b rb Hb) as Hrb.
  apply row_for_inv in Ha. destruct Ha as (ma & ia & ua & _ & Hia & _ & Ha).
  apply row_for_inv in Hb. destruct Hb as (mb & ib & ub & _ & Hib & _ & Hb).
  rewrite Hid in Hia. rewrite Hia in Hib. injection Hib as <-.
  apply constrained_row_id in Ha. apply constrained_row_id in Hb.
  rewrite Ha in Hb. unfold key_of. rewrite Hra, Hrb. f_equal.
  destruct (obj_id ra), (obj_id rb); congruence.
Qed.

(** X10. The progress line of a resource counts the elements fetched,
    not the rows stored: after an import into a table that holds no
    row of the resource, the rows stored for it are at most as many as
    the number printed, and fewer as soon as two of the elements
    fetched have the same id. *)
Theorem progress_line_counts_elements E res w w' :
  fetch_and_store E res w = (w', Returned tt) ->
  stderr w' = stderr w ++ [progress_line res (length (fetched E res))]
  /\ (select_resource res (conn w) = [] ->
      (length (select_resource res (conn w')) <= length (fetched E res))%nat
      /\ forall pre a mid b post,
           fetched E res = pre ++ a :: mid ++ b :: post ->
           id_of a = id_of b ->
           (length (select_resource res (conn w'))
            < length (fetched E res))%nat).
Proof.
  intros H. apply fetch_and_store_import in H. destruct H as (T & HT & ->).
  cbn [stderr conn]. split; [reflexivity|]. intros Hempty.
  destruct (one_import_rows E res _ T HT) as (rs & HF & ->).
  rewrite (select_after_import res rs (conn w) Hempty (rows_resource res _ rs HF)).
  rewrite (Forall2_length HF). split.
  - pose proof (fold_upsert_length rs []). cbn [length] in *. lia.
  - intros pre a mid b post Hsplit Hid. rewrite Hsplit in HF.
    apply Forall2_app_inv_l in HF.
    destruct HF as (rpre & rest & _ & HF & ->).
    inversion HF as [|a' ra l1 rest1 Ha HF1]; subst.
    apply Forall2_app_inv_l in HF1.
    destruct HF1 as (rmid & rest2 & _ & HF2 & ->).
    inversion HF2 as [|b' rb l2 rpost Hb _]; subst.
    apply fold_upsert_repeated.
    exact (same_id_same_key res a b ra rb Ha Hb Hid).
Qed.

(** ** Data that is not an array of dicts *)

Lemma row_tuple_not_dict res obj :
  is_dict obj = false -> row_tuple res obj = Raised AttributeError.
Proof. destruct obj; try reflexivity. discriminate. Qed.

Lemma row_tuple_dict res obj :
  is_dict obj = true -> exists pr, row_tuple res obj = Returned pr.
Proof.
  destruct obj; try discriminate. intros _. unfold row_tuple, get.
  cbv [bindR]. eauto.
Qed.

Lemma build_rows_not_dict res objs :
  existsb (fun obj => negb (is_dict obj)) objs = true ->
  mapR (row_tuple res) objs = Raised AttributeError.
Proof.
  induction objs as [|obj objs IH]; [discriminate|].
  cbn [existsb mapR]. destruct (is_dict obj) eqn:Hd; cbn [negb orb].
  - intros H. destruct (row_tuple_dict res obj Hd) as (pr & ->).
    cbv [bindR]. now rewrite (IH H).
  - intros _. now rewrite (row_tuple_not_dict res obj Hd).
Qed.

Lemma fetch_and_store_build_raises E res w body data e :
  urlopen E (resource_url res) = Body body ->
  subscript_data body = Returned data ->
  build_rows res data = Raised e ->
  fetch_and_store E res w
  = (mkWorld (db_file w) (conn w) (files w) (stdout w) (stderr w)
       (requests w ++ [resource_url res]), Raised e).
Proof.
  intros Hu Hd Hb. unfold fetch_and_store, bind, http_get_json, lift.
  now rewrite Hu, Hd, Hb.
Qed.

(** X11. What the loop over [data] does when [data] is not an array of
    dicts.  An element that is not a dict, anywhere in the array, ends
    the import with an AttributeError before any row is stored, also
    the rows of the well-formed elements before it; a dict or a string
    in place of the array does the same unless it is empty, and then
    the import returns having stored nothing; null, a boolean or a
    number is not iterable.  In each case the table of the connection
    is the one the import found. *)
Theorem malformed_data_stores_nothing E res w body data :
  urlopen E (resource_url res) = Body body ->
  subscript_data body = Returned data ->
  let requested :=
    mkWorld (db_file w) (conn w) (files w) (stdout w) (stderr w)
      (requests w ++ [resource_url res]) in
  match data with
  | JArray items =>
      existsb (fun obj => negb (is_dict obj)) items = true ->
      fetch_and_store E res w = (requested, Raised AttributeError)
  | JObject (_ :: _) | JString (_ :: _) =>
      fetch_and_store E res w = (requested, Raised AttributeError)
  | JObject [] | JString [] =>
      fetch_and_store E res w
      = (mkWorld (db_file w) (conn w) (files w) (stdout w)
           (stderr w ++ [progress_line res 0])
           (requests w ++ [resource_url res]), Returned tt)
  | JNull | JBool _ | JInt _ | JFloat _ =>
      fetch_and_store E res w = (requested, Raised TypeError)
  end.
Proof.
  intros Hu Hd requested.
  assert (Hempty : build_rows res data = Returned [] ->
            fetch_and_store E res w
            = (mkWorld (db_file w) (conn w) (files w) (stdout w)
                 (stderr w ++ [progress_line res 0])
                 (requests w ++ [resource_url res]), Returned tt)).
  { intros Hb. apply fetch_and_store_returns.
    exists body, data, [], (conn w). auto. }
  destruct data as [| b | z | f | [|c s] | items | [|m ms]];
    try (apply (fetch_and_store_build_raises E res w body _ _ Hu Hd);
         reflexivity);
    try (apply Hempty; reflexivity).
  intros Hex. apply (fetch_and_store_build_raises E res w body _ _ Hu Hd).
  unfold build_rows. cbn [py_iter]. cbv [bindR].
  apply build_rows_not_dict. exact Hex.
Qed.

(** ** The [updated] column *)

Lemma constrained_row_updated r i u p x :
  constrained_row r i u p = Returned x -> text_affinity u = SText (updated x).
Proof.
  unfold constrained_row.
  destruct (text_affinity r); try discriminate;
    destruct (integer_affinity i); try discriminate;
    destruct (text_affinity u); try discriminate;
    destruct (text_affinity p); try discriminate;
    intros [= <-]; reflexivity.
Qed.

(** X12. What a stored row holds in [updated]: the empty text when the
    element has no such key, the string itself, and the decimal text of
    an integer or of a boolean (1 or 0), which the TEXT column stores
    as text; a number with a fraction is stored as the text the engine
    writes for it.  An element whose [updated] is null, a NaN, a list
    or a dict never gives a stored row. *)
Theorem updated_column res members r :
  row_for res (JObject members) = Returned r ->
  match dict_get (str "updated") members with
  | None => updated r = []
  | Some (JString s) => updated r = s
  | Some (JInt z) => updated r = str_of_Z z
  | Some (JBool b) => updated r = str_of_Z (if b then 1 else 0)
  | Some (JFloat f) => f <> S754_nan /\ updated r = real_text f
  | Some JNull | Some (JArray _) | Some (JObject _) => False
  end.
Proof.
  intros H. apply row_for_inv in H.
  destruct H as (members' & i' & u' & [= <-] & _ & Hu & Hrow).
  apply constrained_row_updated in Hrow.
  destruct (dict_get (str "updated") members) as [[| b | z | f | s | l | m]|];
    cbn [bind_param] in Hu.
  - injection Hu as <-. discriminate Hrow.
  - injection Hu as <-. cbn [text_affinity] in Hrow. congruence.
  - destruct (int64 z); [|discriminate]. injection Hu as <-.
    cbn [text_affinity] in Hrow. congruence.
  - destruct f; injection Hu as <-; cbn [text_affinity] in Hrow;
      try discriminate Hrow; (split; [discriminate | congruence]).
  - destruct (existsb is_surrogate s); [discriminate|]. injection Hu as <-.
    cbn [text_affinity] in Hrow. congruence.
  - discriminate Hu.
  - discriminate Hu.
  - cbn [existsb] in Hu. injection Hu as <-.
    cbn [text_affinity] in Hrow. congruence.
Qed.

(** ** A text id that spells an integer *)

Lemma sql_ltrim_id s :
  forallb (fun c => negb (sql_isspace c)) s = true -> sql_ltrim s = s.
Proof.
  destruct s as [|c s]; [reflexivity|]. cbn [forallb sql_ltrim].
  intros H. apply andb_true_iff in H. destruct H as [H _].
  apply negb_true_iff in H. now rewrite H.
Qed.

Lemma sql_trim_id s :
  forallb (fun c => negb (sql_isspace c)) s = true -> sql_trim s = s.
Proof.
  intros H. unfold sql_trim. rewrite (sql_ltrim_id s H).
  rewrite sql_ltrim_id; [apply rev_involutive|].
  rewrite forallb_forall in *. intros c Hc. apply H. now apply in_rev.
Qed.

Lemma digits_are_digits u : forallb is_digit (digits u) = true.
Proof. induction u; cbn [digits forallb]; auto. Qed.

Lemma digits_no_space u :
  forallb (fun c => negb (sql_isspace c)) (digits u) = true.
Proof. induction u; cbn [digits forallb]; auto. Qed.

Lemma horner_acc u : forall p,
  fold_left (fun acc c => 10 * acc + (c - 48)) (digits u) (N.pos p)
  = N.pos (Pos.of_uint_acc u p).
Proof.
  induction u; intros p; cbn [digits fold_left Pos.of_uint_acc];
    [reflexivity | ..];
    match goal with
    | |- fold_left _ _ ?a = N.pos (Pos.of_uint_acc _ ?q) =>
        replace a with (N.pos q) by (unfold digit_of; lia)
    end; apply IHu.
Qed.

Lemma horner_digits u : horner (digits u) = N.of_uint u.
Proof.
  unfold horner, N.of_uint.
  induction u; cbn [digits fold_left Pos.of_uint]; [reflexivity | exact IHu | ..];
    match goal with
    | |- fold_left _ _ ?a = N.pos (Pos.of_uint_acc _ ?q) =>
        replace a with (N.pos q) by (unfold digit_of; lia)
    end; apply horner_acc.
Qed.

Lemma unsigned_literal_str_of_N n :
  unsigned_literal (str_of_N n) = Some n.
Proof.
  unfold str_of_N, unsigned_literal.
  pose proof (digits_are_digits (N.to_uint n)) as Hd.
  pose proof (horner_digits (N.to_uint n)) as Hh.
  rewrite DecimalN.Unsigned.of_to in Hh.
  pose proof (digits_head (N.to_uint n)) as Hn.
  destruct (digits (N.to_uint n)) as [|c s].
  - exfalso. pose proof (f_equal N.of_uint Hn) as Hp.
    rewrite DecimalN.Unsigned.of_to in Hp. subst n. discriminate Hn.
  - now rewrite Hd, Hh.
Qed.

Lemma str_of_N_head n :
  exists c s, str_of_N n = c :: s
              /\ (c = 48 \/ c = 49 \/ c = 50 \/ c = 51 \/ c = 52 \/ c = 53
                  \/ c = 54 \/ c = 55 \/ c = 56 \/ c = 57).
Proof.
  pose proof (unsigned_literal_str_of_N n) as H. unfold str_of_N in *.
  destruct (N.to_uint n); try discriminate H;
    cbn [digits]; eexists; eexists; (split; [reflexivity|]);
    unfold digit_of; lia.
Qed.

(** The INTEGER column reads the decimal text of a 64-bit integer as
    that integer. *)
Lemma integer_literal_str_of_Z z :
  int64 z = true -> integer_literal (str_of_Z z) = Some z.
Proof.
  intros Hz.
  assert (Hpos : forall n, int64 (Z.of_N n) = true ->
                   integer_literal (str_of_N n) = Some (Z.of_N n)).
  { intros n Hn. unfold integer_literal.
    rewrite sql_trim_id by apply digits_no_space. cbv zeta.
    pose proof (unsigned_literal_str_of_N n) as Hu.
    destruct (str_of_N_head n) as (c & s & Hs & Hc). rewrite Hs in *.
    decompose [or] Hc; subst c; cbv beta iota; rewrite Hu;
      cbn [option_map]; now rewrite Hn. }
  destruct z as [|p|p].
  - exact (Hpos 0 Hz).
  - exact (Hpos (N.pos p) Hz).
  - unfold integer_literal, str_of_Z.
    rewrite sql_trim_id.
    + unfold MINUS. cbv zeta beta iota.
      rewrite unsigned_literal_str_of_N. cbn [option_map].
      change (- Z.of_N (N.pos p))%Z with (Z.neg p). now rewrite Hz.
    + cbn [forallb]. unfold str_of_N. now rewrite digits_no_space.
Qed.

(** X13. The obj_id column has INTEGER affinity: an element whose id is
    the decimal text of an integer is stored under that integer, so it
    has the key of the element whose id is the integer itself, and of
    two such elements only the later one is kept. *)
Theorem text_id_spelling_integer res a b ra rb z :
  id_of a = JInt z -> id_of b = JString (str_of_Z z) ->
  row_for res a = Returned ra -> row_for res b = Returned rb ->
  obj_id ra = KInt z /\ obj_id rb = KInt z /\ key_of ra = key_of rb
  /\ forall t, In ra (upsert (upsert t ra) rb) -> ra = rb.
Proof.
  intros Ha Hb Hra Hrb.
  destruct (row_for_int_id res a z ra Hra Ha) as (Hres & Hid & _).
  pose proof (row_for_resource res b rb Hrb) as Hresb.
  assert (Hz : int64 z = true).
  { apply row_for_inv in Hra. destruct Hra as (_ & i' & _ & _ & Hi & _).
    rewrite Ha in Hi. cbn [bind_param] in Hi.
    destruct (int64 z); [reflexivity | discriminate]. }
  assert (Hidb : obj_id rb = KInt z).
  { apply row_for_inv in Hrb. destruct Hrb as (m & i' & u' & _ & Hi & _ & Hrow).
    rewrite Hb in Hi. apply bind_param_text in Hi. subst i'.
    apply constrained_row_id in Hrow. cbn [integer_affinity] in Hrow.
    rewrite (integer_literal_str_of_Z z Hz) in Hrow.
    destruct (obj_id rb); congruence. }
  assert (Hk : key_of ra = key_of rb) by (unfold key_of; congruence).
  repeat split; auto.
  intros t Hin. apply in_upsert in Hin.
  destruct Hin as [[_ Hin] | Heq]; [now destruct Hin | exact Heq].
Qed.

(** ** From the fetched elements to the chunk file and back *)

Lemma no_quote_spec s : existsb (N.eqb QUOTE) s = false <-> ~ In QUOTE s.
Proof.
  split.
  - intros H Hin. assert (Ht : existsb (N.eqb QUOTE) s = true).
    { apply existsb_exists. exists QUOTE. split; [exact Hin | apply N.eqb_refl]. }
    congruence.
  - intros H. destruct (existsb (N.eqb QUOTE) s) eqn:He; [|reflexivity].
    apply existsb_exists in He. destruct He as (c & Hc & Heq).
    apply N.eqb_eq in Heq. subst c. contradiction.
Qed.

Lemma no_quote_digits u : existsb (N.eqb QUOTE) (digits u) = false.
Proof. induction u; cbn [digits existsb]; auto. Qed.

Lemma no_quote_str_of_Z z : ~ In QUOTE (str_of_Z z).
Proof.
  apply no_quote_spec.
  destruct z; unfold str_of_Z, str_of_N; cbn [existsb];
    now rewrite ?no_quote_digits.
Qed.

Lemma resources_no_quote res : In res RESOURCES -> ~ In QUOTE res.
Proof.
  intros Hin. apply no_quote_spec.
  assert (H : forallb (fun r => negb (existsb (N.eqb QUOTE) r)) RESOURCES = true)
    by (vm_compute; reflexivity).
  rewrite forallb_forall in H. apply negb_true_iff. exact (H res Hin).
Qed.

Lemma resources_nul_free res : In res RESOURCES -> nul_free res = true.
Proof.
  intros Hin.
  assert (H : forallb nul_free RESOURCES = true) by (vm_compute; reflexivity).
  rewrite forallb_forall in H. exact (H res Hin).
Qed.

Lemma printable_nul_free s : printable s = true -> nul_free s = true.
Proof.
  unfold nul_free. apply forallb_weaken. intros c Hc.
  apply andb_true_iff in Hc. destruct Hc as [Hc _]. apply N.leb_le in Hc.
  apply negb_true_iff, N.eqb_neq. lia.
Qed.

Lemma real_text_plain f :
  ~ In QUOTE (real_text f) /\ nul_free (real_text f) = true.
Proof.
  pose proof (real_text_chars f) as H. split.
  - intros Hin. rewrite forallb_forall in H.
    apply H, real_char_range in Hin. unfold QUOTE in Hin. lia.
  - revert H. unfold nul_free. apply forallb_weaken. intros c Hc.
    apply real_char_range in Hc. apply negb_true_iff, N.eqb_neq. lia.
Qed.

Lemma str_of_Z_plain z :
  ~ In QUOTE (str_of_Z z) /\ nul_free (str_of_Z z) = true.
Proof. split; [apply no_quote_str_of_Z | apply nul_free_str_of_Z]. Qed.

Lemma row_for_plain res obj r :
  row_for res obj = Returned r ->
  int_id obj = true -> plain_updated obj = true ->
  resource r = res /\ int_key r /\ ~ In QUOTE (updated r)
  /\ nul_free (updated r) = true /\ nul_free (payload r) = true.
Proof.
  intros Hrow Hid Hup. unfold int_id in Hid.
  destruct (id_of obj) as [| | z | | | |] eqn:Hz; try discriminate.
  destruct (row_for_int_id res obj z r Hrow Hz) as (Hres & Hkey & Hpay & _).
  apply row_for_inv in Hrow.
  destruct Hrow as (members & i' & u' & -> & Hi & Hu & Hrow).
  split; [exact Hres|]. split.
  { exists z. split; [exact Hkey|]. rewrite Hz in Hi. cbn [bind_param] in Hi.
    destruct (int64 z); [reflexivity | discriminate]. }
  assert (Hupd : ~ In QUOTE (updated r) /\ nul_free (updated r) = true).
  { apply constrained_row_updated in Hrow. cbn [plain_updated] in Hup.
    destruct (dict_get (str "updated") members) as [[| b | n | f | s | l | m]|];
      cbn [bind_param] in Hu.
    - injection Hu as <-. discriminate Hrow.
    - injection Hu as <-. cbn [text_affinity] in Hrow.
      injection Hrow as <-. apply str_of_Z_plain.
    - destruct (int64 n); [|discriminate]. injection Hu as <-.
      cbn [text_affinity] in Hrow. injection Hrow as <-.
      apply str_of_Z_plain.
    - destruct f; injection Hu as <-; cbn [text_affinity] in Hrow;
        try discriminate Hrow; injection Hrow as <-; apply real_text_plain.
    - destruct (existsb is_surrogate s); [discriminate|]. injection Hu as <-.
      cbn [text_affinity] in Hrow. injection Hrow as <-.
      apply andb_true_iff in Hup. destruct Hup as [Hq Hn].
      split; [|exact Hn]. apply no_quote_spec. now apply negb_true_iff.
    - discriminate Hu.
    - discriminate Hu.
    - cbn [existsb] in Hu. injection Hu as <-.
      cbn [text_affinity] in Hrow. injection Hrow as <-.
      split; [intros [] | reflexivity]. }
  destruct Hupd as [Hq Hn]. split; [exact Hq|]. split; [exact Hn|].
  rewrite Hpay. apply printable_nul_free, printable_dumps.
Qed.

(** X14. From the answer of a URL to the chunk file and back: after a
    run that returns, when every element fetched for a resource of the
    list has an integer id and, in a string [updated], no single quote
    and no character of code 0, the chunk file of that resource,
    replayed on an empty table, gives the rows the store holds for it,
    in the order of the SELECT. *)
Theorem run_chunks_read_back E w w' z res :
  order_only E ->
  main E w = (w', Returned z) ->
  In res RESOURCES ->
  forallb (fun obj => int_id obj && plain_updated obj) (fetched E res) = true ->
  exists content rows,
    lookup_file (chunk_path res) (files w') = Some content
    /\ replay content [] = Some rows
    /\ Permutation rows (select_resource res (db_file w')).
Proof.
  intros Hord H Hres Hclean. apply main_returns_iff in H.
  destruct H as (T & HT & _ & -> & ->). cbn [db_file files].
  destruct (import_all_select E RESOURCES resources_distinct [] T HT)
    as (H1 & _ & _).
  destruct (H1 res Hres eq_refl) as (rs & HF & Hsel).
  exists (chunk_text res (select_order E (select_resource res T))),
         (select_order E (select_resource res T)).
  split; [|split; [|apply Hord]].
  - apply lookup_file_found; [apply run_files_distinct|].
    unfold run_files. apply in_or_app. right. apply in_or_app. left.
    unfold chunk_files. rewrite <- in_rev.
    exact (in_map (fun res0 =>
                     (chunk_path res0,
                      chunk_text res0 (select_order E (select_resource res0 T))))
             RESOURCES res Hres).
  - apply replay_chunk.
    + now apply resources_no_quote.
    + now apply resources_nul_free.
    + apply (unique_keys_perm (select_resource res T)).
      * apply Permutation_sym, Hord.
      * rewrite Hsel. apply fold_upsert_unique. constructor.
    + intros r Hr.
      apply (Permutation_in _ (Hord (select_resource res T))) in Hr.
      rewrite Hsel in Hr. apply in_fold_upsert_nil in Hr.
      destruct (Forall2_in_r _ _ _ _ HF Hr) as (obj & Hobj & Hrow).
      rewrite forallb_forall in Hclean. specialize (Hclean obj Hobj).
      apply andb_true_iff in Hclean. destruct Hclean as [Hid Hup].
      exact (row_for_plain res obj r Hrow Hid Hup).
Qed.

(** ** The files of a run that fails *)

Lemma chunk_files_app E t done rest :
  chunk_files E t (done ++ rest) = chunk_files E t rest ++ chunk_files E t done.
Proof. unfold chunk_files. now rewrite map_app, rev_app_distr. Qed.

Lemma export_chunks_any E l : forall w w' r,
  for_each l (export_chunk E) w = (w', r) ->
  exists done rest,
    l = done ++ rest
    /\ files w' = chunk_files E (db_file w) done ++ files w
    /\ db_file w' = db_file w /\ conn w' = conn w
    /\ (r = Returned tt -> rest = []).
Proof.
  induction l as [|a l IH]; intros w w' r; cbn [for_each].
  - intros [= <- <-]. exists [], []. repeat split.
  - intros H. apply bind_inv in H.
    destruct H as [(e & H & ->) | (w1 & [] & H1 & H2)].
    + exists [], (a :: l). unfold export_chunk, bind, write_file, print in H.
      destruct (writable E (d1_path (a ++ str ".sql"))); [discriminate|].
      injection H as <- _. repeat split. discriminate.
    + unfold export_chunk, bind, write_file, print in H1.
      destruct (writable E (d1_path (a ++ str ".sql"))); [|discriminate].
      injection H1 as <-.
      destruct (IH _ _ _ H2) as (done & rest & -> & Hf & Hd & Hc & Hr).
      cbn [db_file conn files] in *.
      exists (a :: done), rest. repeat split; auto.
      rewrite Hf. change (a :: done) with ([a] ++ done).
      rewrite chunk_files_app, <- List.app_assoc. reflexivity.
Qed.

Lemma export_phase_any E w w' r :
  export_phase E w = (w', r) ->
  conn w' = conn w /\ db_file w' = conn w
  /\ exists later written,
       run_files E (conn w) = later ++ written
       /\ files w' = written ++ files w
       /\ (r = Returned tt -> later = []).
Proof.
  unfold export_phase. intros H.
  apply bind_inv in H. destruct H as [(e & [=] & _) | (w1 & [] & H1 & H)].
  unfold commit in H1. injection H1 as <-.
  apply bind_inv in H. destruct H as [(e & H & ->) | (w2 & [] & H2 & H)].
  { unfold export_full_dump, bind, write_file, print in H.
    cbn [conn db_file files] in H.
    destruct (writable E SQL_PATH); [discriminate|]. injection H as <- _.
    cbn [conn db_file files]. repeat split.
    exists (run_files E (conn w)), []. rewrite List.app_nil_r.
    repeat split. discriminate. }
  unfold export_full_dump, bind, write_file, print in H2.
  cbn [conn db_file files stdout stderr requests] in H2.
  destruct (writable E SQL_PATH); [|discriminate]. injection H2 as <-.
  apply bind_inv in H. destruct H as [(e & H & ->) | (w3 & [] & H3 & H)].
  { unfold write_schema, bind, write_file, print in H.
    cbn [conn db_file files] in H.
    destruct (writable E (d1_path (str "00_schema.sql"))); [discriminate|].
    injection H as <- _. cbn [conn db_file files]. repeat split.
    exists ([(D1_SQL_PATH, filter_dump (full_dump_text E (conn w)))]
            ++ chunk_files E (conn w) RESOURCES ++ [(schema_path, SCHEMA_SQL)]),
           [(SQL_PATH, full_dump_text E (conn w))].
    unfold run_files. rewrite <- !List.app_assoc.
    repeat split. discriminate. }
  unfold write_schema, bind, write_file, print in H3.
  cbn [conn db_file files stdout stderr requests] in H3.
  destruct (writable E (d1_path (str "00_schema.sql"))); [|discriminate].
  injection H3 as <-.
  apply bind_inv in H. destruct H as [(e & H & ->) | (w4 & [] & H4 & H)].
  { apply export_chunks_any in H.
    destruct H as (done & rest & Hl & Hf & Hd & Hc & _).
    cbn [conn db_file files] in *. repeat split; auto.
    exists ([(D1_SQL_PATH, filter_dump (full_dump_text E (conn w)))]
            ++ chunk_files E (conn w) rest),
           (chunk_files E (conn w) done
            ++ [(schema_path, SCHEMA_SQL); (SQL_PATH, full_dump_text E (conn w))]).
    unfold run_files. rewrite Hl, chunk_files_app, Hf.
    rewrite <- !List.app_assoc. repeat split. discriminate. }
  apply export_chunks_any in H4.
  destruct H4 as (done & rest & Hl & Hf & Hd & Hc & Hr).
  rewrite (Hr eq_refl), List.app_nil_r in Hl. subst done.
  cbn [conn db_file files] in *.
  unfold export_filtered_dump, bind, read_file, write_file, print in H.
  destruct (lookup_file SQL_PATH (files w4)) as [content|] eqn:Hread.
  - assert (Hcontent : content = full_dump_text E (conn w)).
    { rewrite Hf, lookup_file_skip in Hread.
      - cbn [lookup_file] in Hread.
        replace (pystr_eqb SQL_PATH (d1_path (str "00_schema.sql")))
          with false in Hread by (vm_compute; reflexivity).
        rewrite pystr_eqb_refl in Hread. injection Hread as <-. reflexivity.
      - intros p c Hin. apply in_chunk_files in Hin.
        destruct Hin as (res & _ & ->). apply chunk_path_not_dump. }
    subst content.
    destruct (writable E D1_SQL_PATH).
    + injection H as <- <-. cbn [conn db_file files]. repeat split; auto.
      exists [], (run_files E (conn w)). rewrite Hf.
      unfold run_files. rewrite <- !List.app_assoc. repeat split.
    + injection H as <- <-. repeat split; auto.
      exists [(D1_SQL_PATH, filter_dump (full_dump_text E (conn w)))],
             (chunk_files E (conn w) RESOURCES
              ++ [(schema_path, SCHEMA_SQL);
                  (SQL_PATH, full_dump_text E (conn w))]).
      rewrite Hf. unfold run_files. rewrite <- !List.app_assoc.
      repeat split. discriminate.
  - exfalso. rewrite Hf, lookup_file_skip in Hread.
    + cbn [lookup_file] in Hread.
      replace (pystr_eqb SQL_PATH (d1_path (str "00_schema.sql")))
        with false in Hread by (vm_compute; reflexivity).
      rewrite pystr_eqb_refl in Hread. discriminate.
    + intros p c Hin. apply in_chunk_files in Hin.
      destruct Hin as (res & _ & ->). apply chunk_path_not_dump.
Qed.

(** X15. However a run ends, the files it has written are the first
    written of the files a complete run writes for the table of its
    connection, each with the content a complete run gives it: the
    full dump, then the schema file, then the chunk files in the order
    of the list, then the filtered dump.  A run that wrote a file had
    committed its table before. *)
Theorem partial_run_files E w w' r :
  main E w = (w', r) ->
  exists later written,
    run_files E (conn w') = later ++ written
    /\ files w' = written ++ files w
    /\ (written <> [] -> db_file w' = conn w')
    /\ (forall z, r = Returned z -> later = []).
Proof.
  unfold main. intros H.
  apply bind_inv in H. destruct H as [(e & H & ->) | (w1 & [] & H1 & H)].
  - destruct (import_phase_requests E w w' _ H) as (Hf & _).
    exists (run_files E (conn w')), []. rewrite List.app_nil_r.
    split; [reflexivity|]. split; [exact Hf|].
    split; [intros Hne; now destruct Hne | discriminate].
  - destruct (import_phase_requests E w w1 _ H1) as (Hf & _).
    assert (Hexp : exists r', export_phase E w1 = (w', r')
                              /\ (forall z, r = Returned z -> r' = Returned tt)).
    { apply bind_inv in H. destruct H as [(e & H & ->) | (w2 & [] & H2 & H)].
      - exists (Raised e). split; [exact H | discriminate].
      - unfold ret in H. injection H as <- _. exists (Returned tt). auto. }
    destruct Hexp as (r' & Hexp & Hr').
    apply export_phase_any in Hexp.
    destruct Hexp as (Hc & Hd & later & written & Hrun & Hfiles & Hlater).
    exists later, written. rewrite Hc, Hfiles, Hf. repeat split; auto.
    intros z Hz. apply Hlater. exact (Hr' z Hz).
Qed.

End Library.

(** * Examples

    The theorems at concrete inputs, with the library of the examples. *)

#[local] Existing Instance sample_lib.

(** The theorem at the array [obj_1; obj_2; obj_1_again], imported as
    ["net"] into the empty table. *)
Lemma fetch_and_store_last_occurrence_witness :
  let E := serve net [obj_1; obj_2; obj_1_again] in
  let w' := fst (fetch_and_store E net (initial_world [])) in
  fetch_and_store E net (initial_world []) = (w', Returned tt)
  /\ select_resource net (conn w')
     = [ mkRow net (KInt 2) [] (dumps obj_2);
         mkRow net (KInt 1) [] (dumps obj_1_again) ]
  /\ forall ids, NoDup ids ->
       (forall j, In j ids <-> In j (map id_of [obj_1; obj_2; obj_1_again])) ->
       length (select_resource net (conn w')) = length ids.
Proof.
  intros E w'.
  assert (Hrun : fetch_and_store E net (initial_world []) = (w', Returned tt))
    by (vm_compute; reflexivity).
  split; [exact Hrun|]. split; [vm_compute; reflexivity|].
  apply (fetch_and_store_last_occurrence E net (initial_world []) w'
           (JObject [(str "data", JArray [obj_1; obj_2; obj_1_again])])
           [obj_1; obj_2; obj_1_again]).
  - vm_compute. reflexivity.
  - vm_compute. reflexivity.
  - exact int_ids_sample.
  - reflexivity.
  - exact Hrun.
Defined.

(** C1 as stated fails when two ids differ as JSON values but are
    stored as the same integer: the ids [1] and ["1"] are distinct, the
    import returns, and one row is stored. *)
Lemma fetch_and_store_text_id_collapses :
  let data := [obj_1; obj_text_1] in
  let E := serve net data in
  let w' := fst (fetch_and_store E net (initial_world [])) in
  fetch_and_store E net (initial_world []) = (w', Returned tt)
  /\ NoDup (map id_of data)
  /\ length (map id_of data) = 2%nat
  /\ select_resource net (conn w')
     = [ mkRow net (KInt 1) [] (dumps obj_text_1) ].
Proof.
  cbv zeta. split; [vm_compute; reflexivity|].
  split; [|split; [reflexivity | vm_compute; reflexivity]].
  change (map id_of [obj_1; obj_text_1]) with [JInt 1; JString (str "1")].
  repeat constructor; simpl; intuition discriminate.
Qed.

(** C2 as stated fails: a row in the store file before a run, of a key
    no fetched element has, is gone after the run. *)
Lemma run_drops_existing_rows :
  let old := mkRow (str "org") (KInt 7) [] (str "{}") in
  let E := serve net [obj_1] in
  let w' := fst (main E (initial_world [old])) in
  main E (initial_world [old]) = (w', Returned 0%Z)
  /\ In old (db_file (initial_world [old]))
  /\ db_file w' = [ mkRow net (KInt 1) (str "2024-01-01T00:00:00Z")
                      (dumps obj_1) ]
  /\ ~ In old (db_file w').
Proof.
  cbv zeta.
  assert (H : db_file (fst (main (serve net [obj_1])
                 (initial_world [mkRow (str "org") (KInt 7) [] (str "{}")])))
              = [ mkRow net (KInt 1) (str "2024-01-01T00:00:00Z")
                    (dumps obj_1) ]) by (vm_compute; reflexivity).
  split; [vm_compute; reflexivity|]. split; [left; reflexivity|].
  split; [exact H|]. rewrite H. intros [Hx | []]. discriminate Hx.
Qed.

(** The filter at a dump with a pragma, the transaction markers, a
    blank and an empty line: the two statements are left. *)
Lemma filtered_dump_lines_witness :
  ~ In CR sample_dump
  /\ filter_dump sample_dump
     = str "CREATE TABLE objects (x);" ++ [LF]
       ++ str "INSERT INTO objects VALUES('net',1,'','{}');" ++ [LF]
  /\ split_lines (filter_dump sample_dump)
     = [ str "CREATE TABLE objects (x);" ++ [LF];
         str "INSERT INTO objects VALUES('net',1,'','{}');" ++ [LF] ]
  /\ keep_line (str "  COMMIT;" ++ [LF]) = false
  /\ keep_line (str "COMMITTED" ++ [LF]) = false
  /\ keep_line (str "-- COMMIT;" ++ [LF]) = true.
Proof.
  assert (Hcr : ~ In CR sample_dump).
  { vm_compute. intros H. repeat (destruct H as [H | H]; [discriminate H|]).
    exact H. }
  split; [exact Hcr|].
  destruct (filtered_dump_lines sample_dump Hcr) as (_ & H1 & H2 & _).
  split; [rewrite H1; vm_compute; reflexivity|].
  split; [rewrite H2; vm_compute; reflexivity|].
  split; [vm_compute; reflexivity|].
  split; vm_compute; reflexivity.
Defined.

(** C5 as stated fails for a line of the dump that holds a carriage
    return: the file is read with universal newlines, so the one line
    below, which starts with INSERT, is cut at its carriage return and
    its second part, which starts with COMMIT, is dropped; and a line
    ended by a carriage return and a line feed is written back with
    the line feed alone. *)
Lemma filtered_dump_cuts_line :
  let line := str "INSERT INTO t VALUES('x" ++ [CR] ++ str "COMMIT');" ++ [LF] in
  split_lines line = [line]
  /\ startswith (strip line) (str "INSERT") = true
  /\ filter_dump line = str "INSERT INTO t VALUES('x" ++ [LF]
  /\ ~ In line (split_lines (filter_dump line))
  /\ filter_dump (str "INSERT INTO t VALUES(1);" ++ [CR; LF])
     = str "INSERT INTO t VALUES(1);" ++ [LF].
Proof.
  cbv zeta. split; [vm_compute; reflexivity|].
  split; [vm_compute; reflexivity|]. split; [vm_compute; reflexivity|].
  split; [|vm_compute; reflexivity].
  vm_compute. intros [H | []]. discriminate H.
Qed.

(** The round trip at the table of the import of
    [obj_1; obj_2; obj_1_again], whose second payload has a quote. *)
Lemma chunk_roundtrip_witness :
  let E := serve net [obj_1; obj_2; obj_1_again] in
  db_file (fst (main E (initial_world []))) = sample_table
  /\ replay (chunk_text net (select_order E (select_resource net sample_table))) []
     = Some (select_order E (select_resource net sample_table))
  /\ Permutation (select_order E (select_resource net sample_table))
                 (select_resource net sample_table).
Proof.
  intros E. split; [vm_compute; reflexivity|].
  apply (chunk_roundtrip E net sample_table).
  - apply serve_order_only.
  - exact net_no_quote.
  - vm_compute. reflexivity.
  - exact sample_table_unique.
  - exact sample_table_rows.
Defined.

(** C3 as stated fails.  The element
    [{"id":1,"updated":"a','b');--"}] is imported and its chunk file is
    written; [updated] is written without escaping, so its first quote
    closes the literal, the rest of it completes the statement and
    opens a comment, and replaying the file stores another row: [a]
    for [updated] and [b] for the payload.  An id that is a text and
    has not the form of a number is stored as a text and written as a
    bare word, where the statement needs a literal. *)
Lemma chunk_roundtrip_fails :
  (let E := serve net [obj_crafted] in
   let w' := fst (main E (initial_world [])) in
   main E (initial_world []) = (w', Returned 0%Z)
   /\ select_resource net (db_file w')
      = [ mkRow net (KInt 1) (str "a','b');--") (dumps obj_crafted) ]
   /\ lookup_file (d1_path (net ++ str ".sql")) (files w')
      = Some (chunk_text net (select_resource net (db_file w')))
   /\ replay (chunk_text net (select_resource net (db_file w'))) []
      = Some [ mkRow net (KInt 1) (str "a") (str "b") ])
  /\
  (let E := serve net [obj_text_id] in
   let w' := fst (main E (initial_world [])) in
   main E (initial_world []) = (w', Returned 0%Z)
   /\ select_resource net (db_file w')
      = [ mkRow net (KText (str "abc")) [] (dumps obj_text_id) ]
   /\ lookup_file (d1_path (net ++ str ".sql")) (files w')
      = Some (str "DELETE FROM objects WHERE resource = 'net';" ++ [LF]
              ++ str "INSERT OR REPLACE INTO objects (resource,obj_id,updated,payload) VALUES ('net',abc,'','"
              ++ dumps obj_text_id ++ str "');" ++ [LF])).
Proof.
  cbv zeta. split.
  - split; [vm_compute; reflexivity|]. split; [vm_compute; reflexivity|].
    split; vm_compute; reflexivity.
  - split; [vm_compute; reflexivity|]. split; vm_compute; reflexivity.
Qed.

(** The layout at the chunk of ["net"] for a table that also holds a
    row of ["org"]: that row is not written; the key 1.5 is written as
    Python prints it, [updated] as it is, the payload with its quote
    doubled. *)
Lemma chunk_file_layout_witness :
  let E := serve net [] in
  let w := mkWorld mixed_table mixed_table [] [] [] [] in
  let w' := fst (export_chunk E net w) in
  export_chunk E net w = (w', Returned tt)
  /\ lookup_file (d1_path (net ++ str ".sql")) (files w')
     = Some (str "DELETE FROM objects WHERE resource = 'net';" ++ [LF]
             ++ str "INSERT OR REPLACE INTO objects (resource,obj_id,updated,payload) VALUES ('net',2,'','"
             ++ dumps obj_2 ++ str "');" ++ [LF]
             ++ str "INSERT OR REPLACE INTO objects (resource,obj_id,updated,payload) VALUES ('net',1.5,'O'Brien','"
             ++ str "{" ++ DQUOTE :: str "id" ++ DQUOTE :: str ":1,"
             ++ DQUOTE :: str "name" ++ DQUOTE :: str ":" ++ DQUOTE
             :: str "O''Brien" ++ DQUOTE :: str "}');" ++ [LF])
  /\ (exists selected,
        (forall r, In r selected <-> In r mixed_table /\ resource r = net)
        /\ length selected = 2%nat)
  /\ db_file w' = db_file w.
Proof.
  intros E w w'.
  assert (Hrun : export_chunk E net w = (w', Returned tt))
    by (vm_compute; reflexivity).
  split; [exact Hrun|]. split; [vm_compute; reflexivity|].
  destruct (chunk_file_layout E net w w' (serve_order_only net []) Hrun)
    as ((selected & Hperm & Hsel & _) & Hdb & _).
  split; [|exact Hdb].
  exists selected. split; [exact Hsel|].
  apply Permutation_length in Hperm. rewrite Hperm. reflexivity.
Defined.





(** The theorem at a run in which the fourth URL, of ["net"], cannot be
    reached. *)
Lemma run_aborts_on_failure_witness :
  let w := initial_world [] in
  let w2 := fst (main net_down w) in
  main net_down w = (w2, Raised URLError)
  /\ exit_status (snd (main net_down w)) = 1%Z
  /\ requests w2 = map resource_url (map str ["org"; "campus"; "fac"; "net"]%string)
  /\ stderr w2 = map str ["org: 0 rows"; "campus: 0 rows"; "fac: 0 rows"]%string
  /\ files w2 = []
  /\ db_file w2 = [].
Proof.
  intros w w2.
  destruct (run_aborts_on_failure net_down w)
    as (_ & _ & _ & _ & _ & _ & Habort & _).
  destruct (Habort (map str ["org"; "campus"; "fac"]%string) net
              (map str ["ix"; "carrier"; "carrierfac"; "ixfac"; "ixlan";
                        "ixpfx"; "netfac"; "netixlan"]%string)
              (fst (bind (makedirs net_down D1_DIR)
                 (fun _ => bind (connect_and_create net_down)
                    (fun _ => for_each (map str ["org"; "campus"; "fac"]%string)
                                (fetch_and_store net_down))) w))
              w2 URLError)
    as (Hmain & Hreq & Hfiles & Hdb).
  - reflexivity.
  - vm_compute. reflexivity.
  - vm_compute. reflexivity.
  - split; [exact Hmain|]. split; [rewrite Hmain; reflexivity|].
    split; [exact Hreq|]. split; [vm_compute; reflexivity|].
    split; [exact Hfiles | exact Hdb].
Defined.

(** The theorem at the run that fetches [mixed_ids], and at the
    statement that stores the id [1.0], a text, into a table that
    holds the id 1: the row of the id 1 is replaced. *)
Lemma primary_key_invariant_witness :
  let E := serve net mixed_ids in
  let w' := fst (main E (initial_world [])) in
  let old := mkRow net (KInt 1) (str "2024-01-01T00:00:00Z") (dumps obj_1) in
  let pr := (net, JString (str "1.0"), JString [], dumps obj_text_1_0) in
  main E (initial_world []) = (w', Returned 0%Z)
  /\ db_file w' = mixed_rows
  /\ unique_keys (db_file w') /\ unique_keys (conn w')
  /\ execute_insert pr [old]
     = Returned [mkRow net (KInt 1) [] (dumps obj_text_1_0)]
  /\ exists new, stored_row pr = Returned new
       /\ forall x, In x [mkRow net (KInt 1) [] (dumps obj_text_1_0)] ->
                    key_of x = key_of new -> x = new.
Proof.
  intros E w' old pr.
  assert (Hrun : main E (initial_world []) = (w', Returned 0%Z))
    by (vm_compute; reflexivity).
  assert (Hex : execute_insert pr [old]
                = Returned [mkRow net (KInt 1) [] (dumps obj_text_1_0)])
    by (vm_compute; reflexivity).
  assert (Hold : unique_keys [old]) by (repeat constructor; intros []).
  destruct (primary_key_invariant E (initial_world []) w' (Returned 0%Z)
              (NoDup_nil _) (NoDup_nil _) Hrun) as ((H1 & H2) & Hup).
  destruct (Hup pr [old] _ Hold Hex) as (_ & new & Hnew & _ & Huniq).
  split; [exact Hrun|]. split; [vm_compute; reflexivity|].
  split; [exact H1|]. split; [exact H2|]. split; [exact Hex|].
  exists new. split; [exact Hnew | exact Huniq].
Defined.

Lemma fetch_and_store_idempotent_witness :
  let E := serve net [obj_1; obj_2; obj_1_again] in
  let w1 := fst (fetch_and_store E net (initial_world [])) in
  snd (fetch_and_store E net (initial_world [])) = Returned tt
  /\ conn w1 = sample_table
  /\ snd (fetch_and_store E net w1) = snd (fetch_and_store E net (initial_world []))
  /\ conn (fst (fetch_and_store E net w1)) = conn w1.
Proof.
  intros E w1. split; [vm_compute; reflexivity|].
  split; [vm_compute; reflexivity|].
  destruct (fetch_and_store_idempotent E net (initial_world []))
    as (Hout & Hconn & _).
  split; [exact Hout | exact Hconn].
Defined.

(** The example of the specification: two objects fetched as ["net"],
    the second without [updated]. *)
Example spec_example_net :
  let E := serve net [obj_1; obj_2] in
  let w' := fst (main E (initial_world [])) in
  main E (initial_world []) = (w', Returned 0%Z)
  /\ db_file w'
     = [ mkRow net (KInt 1) (str "2024-01-01T00:00:00Z") (dumps obj_1);
         mkRow net (KInt 2) [] (dumps obj_2) ]
  /\ lookup_file (d1_path (str "net.sql")) (files w')
     = Some (str "DELETE FROM objects WHERE resource = 'net';" ++ [LF]
             ++ insert_stmt net (mkRow net (KInt 1) (str "2024-01-01T00:00:00Z")
                                   (dumps obj_1))
             ++ insert_stmt net (mkRow net (KInt 2) [] (dumps obj_2))).
Proof.
  cbv zeta. split; [vm_compute; reflexivity|].
  split; vm_compute; reflexivity.
Qed.

Lemma keep_line_ignores_blanks_witness :
  keep_line (str "  PRAGMA foreign_keys=OFF; " ++ [LF]) = false
  /\ keep_line (str "    INSERT INTO t VALUES(1);" ++ [LF]) = true.
Proof.
  destruct (keep_line_ignores_blanks (str "  ") (str "PRAGMA foreign_keys=OFF;")
              (str " " ++ [LF]) eq_refl eq_refl) as (H1 & _ & _).
  destruct (keep_line_ignores_blanks (str "    ") (str "INSERT INTO t VALUES(1);")
              [LF] eq_refl eq_refl) as (H2 & _ & _).
  split.
  - change (str "  PRAGMA foreign_keys=OFF; " ++ [LF])
      with (str "  " ++ str "PRAGMA foreign_keys=OFF;" ++ str " " ++ [LF]).
    rewrite H1. reflexivity.
  - change (str "    INSERT INTO t VALUES(1);" ++ [LF])
      with (str "    " ++ str "INSERT INTO t VALUES(1);" ++ [LF]).
    rewrite H2. reflexivity.
Defined.

(** The theorem at an element with coordinates, whose id 3.0 is stored
    as the integer 3. *)
Lemma payload_is_printable_witness :
  row_for net obj_fac = Returned (mkRow net (KInt 3) [] (dumps obj_fac))
  /\ dumps obj_fac
     = str "{" ++ DQUOTE :: str "id" ++ DQUOTE :: str ":3.0,"
       ++ DQUOTE :: str "latitude" ++ DQUOTE :: str ":52.5,"
       ++ DQUOTE :: str "longitude" ++ DQUOTE :: str ":-0.125}"
  /\ printable (dumps obj_fac) = true.
Proof.
  assert (H : row_for net obj_fac
              = Returned (mkRow net (KInt 3) [] (dumps obj_fac)))
    by (vm_compute; reflexivity).
  split; [exact H|]. split; [vm_compute; reflexivity|].
  exact (proj1 (proj2 (payload_is_printable net obj_fac _ H))).
Defined.

Lemma chunk_one_statement_per_line_witness :
  text_lines (chunk_text net sample_table)
  = delete_stmt net :: map (insert_stmt net) sample_table.
Proof.
  apply chunk_one_statement_per_line; [vm_compute; reflexivity|].
  repeat constructor; vm_compute; reflexivity.
Defined.

(** The theorem at the run that fetches [mixed_ids], from a state
    with rows and no files: the store and the chunk file of ["net"]. *)
Lemma run_writes_its_files_witness :
  let E := serve net mixed_ids in
  let w' := fst (main E sample_world) in
  main E sample_world = (w', Returned 0%Z)
  /\ db_file w' = mixed_rows
  /\ lookup_file D1_SQL_PATH (files w')
     = Some (filter_dump (full_dump_text E (db_file w')))
  /\ lookup_file (chunk_path net) (files w')
     = Some (str "DELETE FROM objects WHERE resource = 'net';" ++ [LF]
             ++ str "INSERT OR REPLACE INTO objects (resource,obj_id,updated,payload) VALUES ('net',3,'','"
             ++ dumps obj_fac ++ str "');" ++ [LF]
             ++ str "INSERT OR REPLACE INTO objects (resource,obj_id,updated,payload) VALUES ('net',1,'','"
             ++ dumps obj_text_1_0 ++ str "');" ++ [LF]
             ++ str "INSERT OR REPLACE INTO objects (resource,obj_id,updated,payload) VALUES ('net',2.5,'1.5','"
             ++ dumps obj_half ++ str "');" ++ [LF]).
Proof.
  intros E w'.
  assert (Hrun : main E sample_world = (w', Returned 0%Z))
    by (vm_compute; reflexivity).
  assert (Hdb : db_file w' = mixed_rows) by (vm_compute; reflexivity).
  split; [exact Hrun|]. split; [exact Hdb|].
  destruct (run_writes_its_files E sample_world w' 0%Z Hrun)
    as (_ & _ & _ & _ & Hread & _).
  split.
  - apply Hread. unfold run_files. now left.
  - rewrite (Hread (chunk_path net)
               (chunk_text net (select_order E (select_resource net (db_file w'))))).
    + rewrite Hdb. vm_compute. reflexivity.
    + unfold run_files. apply in_or_app. right. apply in_or_app. left.
      unfold chunk_files. rewrite <- in_rev.
      apply (in_map (fun res0 =>
                       (chunk_path res0,
                        chunk_text res0
                          (select_order E (select_resource res0 (db_file w')))))
               RESOURCES net).
      vm_compute. tauto.
Defined.

Lemma run_is_reproducible_witness :
  let E := serve net [obj_1; obj_2; obj_1_again] in
  exists w2', main E sample_world = (w2', Returned 0%Z)
              /\ db_file w2' = db_file (fst (main E (initial_world []))).
Proof.
  intros E.
  assert (Hrun : main E (initial_world [])
                 = (fst (main E (initial_world [])), Returned 0%Z))
    by (vm_compute; reflexivity).
  destruct (run_is_reproducible E _ _ _ Hrun sample_world)
    as (w2' & H2 & Hdb & _).
  exists w2'. split; [exact H2 | exact Hdb].
Defined.

(** The theorem at the run that fetches [mixed_ids]: of the ids 1,
    3.0, the text [1.0] and 2.5, three rows are stored, under the keys
    3, 1 and 2.5. *)
Lemma run_table_per_resource_witness :
  let E := serve net mixed_ids in
  let w' := fst (main E sample_world) in
  main E sample_world = (w', Returned 0%Z)
  /\ select_resource net (db_file w') = mixed_rows
  /\ exists rs,
       Forall2 (fun obj r => row_for net obj = Returned r) (fetched E net) rs
       /\ select_resource net (db_file w') = fold_left upsert rs [].
Proof.
  intros E w'.
  assert (Hrun : main E sample_world = (w', Returned 0%Z))
    by (vm_compute; reflexivity).
  split; [exact Hrun|]. split; [vm_compute; reflexivity|].
  assert (Hnet : In net RESOURCES) by (vm_compute; tauto).
  destruct (proj1 (run_table_per_resource E _ _ _ Hrun) net Hnet)
    as (rs & HF & Hsel & _).
  exists rs. split; [exact HF | exact Hsel].
Defined.

Lemma progress_line_counts_elements_witness :
  let E := serve net [obj_1; obj_2; obj_1_again] in
  let w' := fst (fetch_and_store E net (initial_world [])) in
  stderr w' = [str "net: 3 rows"]
  /\ length (select_resource net (conn w')) = 2%nat
  /\ (length (select_resource net (conn w')) < length (fetched E net))%nat.
Proof.
  intros E w'.
  assert (Hrun : fetch_and_store E net (initial_world []) = (w', Returned tt))
    by (vm_compute; reflexivity).
  split; [vm_compute; reflexivity|]. split; [vm_compute; reflexivity|].
  exact (proj2 (proj2 (progress_line_counts_elements E net _ _ Hrun) eq_refl)
           [] obj_1 [obj_2] obj_1_again [] eq_refl eq_refl).
Defined.

Lemma malformed_data_stores_nothing_witness :
  let E := serve net [obj_1; JInt 7] in
  fetch_and_store E net sample_world
  = (mkWorld sample_table sample_table [] [] [] [resource_url net],
     Raised AttributeError).
Proof.
  intros E.
  exact (malformed_data_stores_nothing E net sample_world
           (JObject [(str "data", JArray [obj_1; JInt 7])])
           (JArray [obj_1; JInt 7])
           ltac:(vm_compute; reflexivity) ltac:(vm_compute; reflexivity)
           ltac:(vm_compute; reflexivity)).
Defined.

(** The theorem at an [updated] that is an integer, and at one that
    is the number 1.5. *)
Lemma updated_column_witness :
  (let obj := JObject [(str "id", JInt 1); (str "updated", JInt 20240101)] in
   exists r, row_for net obj = Returned r /\ updated r = str "20240101")
  /\ row_for net obj_half
     = Returned (mkRow net (KReal real_2_5) (str "1.5") (dumps obj_half))
  /\ real_text real_1_5 = str "1.5".
Proof.
  split; [|split; [vm_compute; reflexivity|]].
  - intros obj. exists (mkRow net (KInt 1) (str "20240101") (dumps obj)).
    assert (H : row_for net obj
                = Returned (mkRow net (KInt 1) (str "20240101") (dumps obj)))
      by (vm_compute; reflexivity).
    split; [exact H|].
    exact (updated_column net _ _ H).
  - assert (H : row_for net obj_half
                = Returned (mkRow net (KReal real_2_5) (str "1.5")
                              (dumps obj_half)))
      by (vm_compute; reflexivity).
    destruct (updated_column net _ _ H) as [_ Hu].
    cbn [updated] in Hu. symmetry. exact Hu.
Defined.

Lemma text_id_spelling_integer_witness :
  let a := JObject [(str "id", JInt (-42))] in
  let b := JObject [(str "id", JString (str "-42")); (str "name", JNull)] in
  exists ra rb, row_for net a = Returned ra /\ row_for net b = Returned rb
                /\ key_of ra = key_of rb.
Proof.
  intros a b.
  exists (mkRow net (KInt (-42)) [] (dumps a)),
         (mkRow net (KInt (-42)) [] (dumps b)).
  assert (Ha : row_for net a = Returned (mkRow net (KInt (-42)) [] (dumps a)))
    by (vm_compute; reflexivity).
  assert (Hb : row_for net b = Returned (mkRow net (KInt (-42)) [] (dumps b)))
    by (vm_compute; reflexivity).
  split; [exact Ha|]. split; [exact Hb|].
  exact (proj1 (proj2 (proj2
           (text_id_spelling_integer net a b _ _ (-42)%Z
              eq_refl eq_refl Ha Hb)))).
Defined.

Lemma run_chunks_read_back_witness :
  let E := serve net [obj_1; obj_2; obj_1_again] in
  exists content rows,
    lookup_file (chunk_path net) (files (fst (main E sample_world)))
    = Some content
    /\ replay content [] = Some rows
    /\ Permutation rows
         (select_resource net (db_file (fst (main E sample_world)))).
Proof.
  intros E.
  assert (Hrun : main E sample_world
                 = (fst (main E sample_world), Returned 0%Z))
    by (vm_compute; reflexivity).
  apply (run_chunks_read_back E sample_world _ 0%Z net
           (serve_order_only net _) Hrun).
  - vm_compute. tauto.
  - vm_compute. reflexivity.
Defined.

Lemma partial_run_files_witness :
  let E := mkEnv (fun _ => answer []) (fun p => negb (pystr_eqb p schema_path))
             sample_iterdump (fun l => l) in
  main E sample_world
  = (mkWorld [] [] [(SQL_PATH, full_dump_text E [])]
       [str "wrote " ++ DB_PATH ++ str " and " ++ SQL_PATH]
       (run_stderr E) (map resource_url RESOURCES), Raised OSError)
  /\ exists later,
       run_files E [] = later ++ [(SQL_PATH, full_dump_text E [])].
Proof.
  intros E.
  assert (Hrun : main E sample_world
                 = (mkWorld [] [] [(SQL_PATH, full_dump_text E [])]
                      [str "wrote " ++ DB_PATH ++ str " and " ++ SQL_PATH]
                      (run_stderr E) (map resource_url RESOURCES),
                    Raised OSError))
    by (vm_compute; reflexivity).
  split; [exact Hrun|].
  destruct (partial_run_files E sample_world _ _ Hrun)
    as (later & written & Hfiles & Hw & _).
  cbn [conn files sample_world] in Hfiles, Hw.
  rewrite List.app_nil_r in Hw. subst written. exists later. exact Hfiles.
Defined.

(** Ids that are no integers, at the INTEGER column: a text in the form
    of a whole number within 64 bits is stored as that integer, with
    its fraction or exponent too; any other text in the form of a
    number as a REAL; a text that has not the form of a number as it
    is; a REAL that is whole as an integer.  A REAL key is written in
    the chunk file as Python prints it. *)
Example ids_at_the_integer_column :
  integer_affinity (SText (str "1.0")) = SInteger 1
  /\ integer_affinity (SText (str "1e3")) = SInteger 1000
  /\ integer_affinity (SText (str " +12 ")) = SInteger 12
  /\ integer_affinity (SText (str "1.5"))
     = SReal (S754_finite false 6755399441055744 (-52))
  /\ integer_affinity (SText (str "9223372036854775808"))
     = SReal (S754_finite false 4503599627370496 11)
  /\ integer_affinity (SText (str "abc")) = SText (str "abc")
  /\ integer_affinity (SText (str "0x10")) = SText (str "0x10")
  /\ integer_affinity (SReal real_3) = SInteger 3
  /\ integer_affinity (SReal real_2_5) = SReal real_2_5
  /\ key_eqb (KReal (S754_finite true 4503599627370496 11)) (KInt (- 2 ^ 63))
     = true
  /\ format_key (KReal (S754_finite false 4503599627370496 11))
     = str "9.223372036854776e+18"
  /\ format_key (KReal real_2_5) = str "2.5".
Proof.
  repeat (split; [vm_compute; reflexivity|]). vm_compute. reflexivity.
Qed.
